(** * ha_cablemodem_stats: the response parsers, the update and the sensors

    A shallow embedding of
      - [custom_components/ha_cablemodem_stats/__init__.py]
        ([parse_uptime], [_parse_mb8600_json], [_parse_cgm4331com_html],
        [_async_update_data]),
      - [custom_components/ha_cablemodem_stats/config_flow.py]
        ([validate_input], [async_step_user]) and
      - [custom_components/ha_cablemodem_stats/sensor.py]
        ([get_downstream_value], [get_upstream_value], the sensor
        descriptions, [async_setup_entry], [ArrisModemSensor]),
    followed by their properties.

    Conventions of the embedding.
      - A Python [str] is a [string]; each character stands for the code
        point of the same number (0..255).
      - A Python [int] is a [Z]; positions and lengths are [nat]. The
        limit the interpreter puts on the number of digits [int()] reads
        is not part of the embedding.
      - A Python [float] is a binary64 value, [spec_float] with
        [prec = 53] and [emax = 1024]; [float()] rounds to nearest, ties
        to even.
      - A dictionary keyed by channel numbers is a [gmap Z]; a dictionary
        whose order of insertion is read back ([.items()]) is the list of
        its items.
      - A computation that may raise is a value of [result]; [Raise e]
        carries the class of the exception.
      - [BeautifulSoup(html, 'html.parser')] is not embedded: the HTML
        parser starts from the tree of tags and strings it builds.
      - The client session and the modem are the environment of
        [_async_update_data] and of [validate_input]: a request is
        answered by a reply or by an exception; the requests sent are
        kept in a log.
      - Logging calls have no effect on the results and are left out. *)

From Stdlib Require Import ZArith String Ascii List Bool Lia.
From Stdlib Require Import Floats.SpecFloat.
From Stdlib Require Import DecimalString.
From stdpp Require Import base option list strings gmap.

Local Open Scope string_scope.
Local Open Scope list_scope.

Set Warnings "-register-all".

(** ** Exceptions and the result monad *)

Inductive exn : Set :=
| ValueError
| IndexError
| KeyError
| TypeError
| AttributeError
| ZeroDivisionError
| UpdateFailed.

Inductive result (A : Type) : Type :=
| Ok (a : A)
| Raise (e : exn).
Arguments Ok {A} a.
Arguments Raise {A} e.

#[global] Instance result_ret : MRet result := fun A a => Ok a.
#[global] Instance result_bind : MBind result := fun A B f r =>
  match r with
  | Ok a => f a
  | Raise e => Raise e
  end.

#[global] Instance result_fmap : FMap result := fun A B f r =>
  match r with
  | Ok a => Ok (f a)
  | Raise e => Raise e
  end.

Definition is_Ok {A} (r : result A) : Prop := exists a, r = Ok a.

(** [try: r / except (ValueError, TypeError): h] *)
Definition except_ValueError_TypeError {A} (r : result A) (h : A) : result A :=
  match r with
  | Raise ValueError => Ok h
  | Raise TypeError => Ok h
  | _ => r
  end.

(** ** Characters *)

Definition code (c : ascii) : nat := nat_of_ascii c.

(** [0-9]: the only decimal digits below code point 256, so this is also
    the class [\d] of [re] on [str] patterns. *)
Definition is_digit (c : ascii) : bool :=
  (48 <=? code c)%nat && (code c <=? 57)%nat.

Definition digit_value (c : ascii) : Z := Z.of_nat (code c - 48).

(** [str.isspace], used by [str.split()], [str.strip()] and [\s]. *)
Definition is_space (c : ascii) : bool :=
  let n := code c in
  ((9 <=? n) && (n <=? 13) || (28 <=? n) && (n <=? 32)
   || (n =? 133) || (n =? 160))%nat.

(** The white space [int()] and [float()] accept around a number. *)
Definition is_num_space (c : ascii) : bool :=
  let n := code c in
  ((9 <=? n) && (n <=? 13) || (n =? 32) || (n =? 133) || (n =? 160))%nat.

(** [str.isalnum] or underscore: the class [\w] of [re]. *)
Definition is_word (c : ascii) : bool :=
  let n := code c in
  ((48 <=? n) && (n <=? 57) || (65 <=? n) && (n <=? 90)
   || (97 <=? n) && (n <=? 122) || (n =? 95)
   || (n =? 170) || (n =? 178) || (n =? 179) || (n =? 181)
   || (n =? 185) || (n =? 186) || (188 <=? n) && (n <=? 190)
   || (192 <=? n) && (n <=? 214) || (216 <=? n) && (n <=? 246)
   || (248 <=? n))%nat.

Definition lower (c : ascii) : ascii :=
  if ((65 <=? code c) && (code c <=? 90))%nat
  then ascii_of_nat (code c + 32) else c.

(** ** Strings *)

Definition str_eqb (a b : string) : bool := bool_decide (a = b).

Fixpoint lstrip (p : ascii -> bool) (s : string) : string :=
  match s with
  | String c s' => if p c then lstrip p s' else s
  | EmptyString => EmptyString
  end.

Fixpoint rstrip (p : ascii -> bool) (s : string) : string :=
  match s with
  | EmptyString => EmptyString
  | String c s' =>
      match rstrip p s' with
      | EmptyString => if p c then EmptyString else String c EmptyString
      | r => String c r
      end
  end.

(** [s.strip()] *)
Definition strip (s : string) : string := rstrip is_space (lstrip is_space s).

Fixpoint drop_str (n : nat) (s : string) : string :=
  match n, s with
  | S n', String _ s' => drop_str n' s'
  | _, _ => s
  end.

(** [s[i:j]], for [0 <= i] and [0 <= j] *)
Definition slice (s : string) (i j : nat) : string := substring i (j - i) s.

(** [s[:-1]] *)
Fixpoint init_str (s : string) : string :=
  match s with
  | EmptyString => EmptyString
  | String c EmptyString => EmptyString
  | String c s' => String c (init_str s')
  end.

Fixpoint last_char (s : string) : option ascii :=
  match s with
  | EmptyString => None
  | String c EmptyString => Some c
  | String _ s' => last_char s'
  end.

(** [s.endswith(c)] for a one-character [c] *)
Definition endswith (s : string) (c : ascii) : bool :=
  bool_decide (last_char s = Some c).

Definition snoc_str (s : string) (c : ascii) : string :=
  s +:+ String c EmptyString.

(** [s.split()]: the maximal runs of characters that are not white space.
    [cur] is the run being read. *)
Fixpoint split_ws_from (cur : string) (s : string) : list string :=
  match s with
  | EmptyString => if str_eqb cur "" then [] else [cur]
  | String c s' =>
      if is_space c
      then (if str_eqb cur "" then split_ws_from "" s'
            else cur :: split_ws_from "" s')
      else split_ws_from (snoc_str cur c) s'
  end.

Definition split_ws (s : string) : list string := split_ws_from "" s.

(** [s.split(sep)] for a non-empty [sep]: cut at every occurrence of [sep],
    leftmost first; empty pieces are kept. [skip] counts the characters of
    a separator just found that are still to be passed over. *)
Fixpoint split_from (sep : string) (skip : nat) (cur : string) (s : string)
  : list string :=
  match s with
  | EmptyString => [cur]
  | String c s' =>
      match skip with
      | S k => split_from sep k cur s'
      | O =>
          if String.prefix sep s
          then cur :: split_from sep (String.length sep - 1) "" s'
          else split_from sep 0 (snoc_str cur c) s'
      end
  end.

Definition split (sep s : string) : list string := split_from sep 0 "" s.

(** [s.split(sep, 1)], as a pair: the text before the first [sep] and,
    when [sep] occurs, the text after it. *)
Fixpoint split1_from (sep : string) (cur : string) (s : string)
  : string * option string :=
  match s with
  | EmptyString => (cur, None)
  | String c s' =>
      if String.prefix sep s
      then (cur, Some (drop_str (String.length sep) s))
      else split1_from sep (snoc_str cur c) s'
  end.

Definition split1 (sep s : string) : string * option string :=
  split1_from sep "" s.

(** The longest prefix of digits, and what follows it. *)
Fixpoint span_digits (s : string) : string * string :=
  match s with
  | String c s' =>
      if is_digit c
      then (let '(d, r) := span_digits s' in (String c d, r))
      else (EmptyString, s)
  | EmptyString => (EmptyString, EmptyString)
  end.

(** [\d+] at the start of [s] *)
Definition match_digits (s : string) : option (string * string) :=
  let '(d, r) := span_digits s in
  if str_eqb d "" then None else Some (d, r).

(** a literal at the start of [s] *)
Definition match_lit (lit s : string) : option string :=
  if String.prefix lit s then Some (drop_str (String.length lit) s) else None.

(** [re.findall(r'\d+', s)]. [cur] is the run of digits being read. *)
Fixpoint findall_digits_from (cur : string) (s : string) : list string :=
  match s with
  | EmptyString => if str_eqb cur "" then [] else [cur]
  | String c s' =>
      if is_digit c then findall_digits_from (snoc_str cur c) s'
      else if str_eqb cur "" then findall_digits_from "" s'
      else cur :: findall_digits_from "" s'
  end.

Definition findall_digits (s : string) : list string :=
  findall_digits_from "" s.

(** [re.sub(r'[^\d]', '', s)] *)
Fixpoint only_digits (s : string) : string :=
  match s with
  | EmptyString => EmptyString
  | String c s' => if is_digit c then String c (only_digits s') else only_digits s'
  end.

(** ** [int()] on a string

    White space around, an optional sign, then digits, where one underscore
    may stand between two digits. *)

Fixpoint digitpart (prev_digit : bool) (acc : Z) (s : string) : option Z :=
  match s with
  | EmptyString => if prev_digit then Some acc else None
  | String c s' =>
      if is_digit c then digitpart true (10 * acc + digit_value c)%Z s'
      else if bool_decide (c = "_"%char)
      then (if prev_digit then digitpart false acc s' else None)
      else None
  end.

Definition split_sign (s : string) : bool * string :=
  match s with
  | String "+" r => (false, r)
  | String "-" r => (true, r)
  | _ => (false, s)
  end.

Definition py_int (s : string) : result Z :=
  let '(neg, digits) := split_sign (rstrip is_num_space (lstrip is_num_space s)) in
  match digitpart false 0%Z digits with
  | Some n => Ok (if neg then (- n)%Z else n)
  | None => Raise ValueError
  end.

(** ** [parse_uptime] *)

(** [re.match(r"(\d+) days (\d+)h:(\d+)m:(\d+)s", text)]: the four groups.
    Every [\d+] is followed by a literal that starts with a character that
    is no digit, so the only candidate for a group is the longest run. *)
Definition match_uptime (text : string)
  : option (string * string * string * string) :=
  '(d, r) ← match_digits text;
  r ← match_lit " days " r;
  '(h, r) ← match_digits r;
  r ← match_lit "h:" r;
  '(m, r) ← match_digits r;
  r ← match_lit "m:" r;
  '(s, r) ← match_digits r;
  _ ← match_lit "s" r;
  Some (d, h, m, s).

Record uptime_parts : Set := {
  up_days : Z;
  up_hours : Z;
  up_minutes : Z;
  up_seconds : Z
}.

(** [parts[i-1]]: the index [-1] is the last element. *)
Definition index_before (parts : list string) (i : nat) : result string :=
  let j := match i with O => length parts - 1 | S k => k end in
  match parts !! j with
  | Some p => Ok p
  | None => Raise IndexError
  end.

(** One round of [for i, part in enumerate(parts)]. *)
Definition uptime_token (parts : list string) (st : uptime_parts)
    (i : nat) (part : string) : result uptime_parts :=
  if str_eqb part "days" then
    p ← index_before parts i;
    days ← py_int p;
    Ok {| up_days := days; up_hours := up_hours st;
          up_minutes := up_minutes st; up_seconds := up_seconds st |}
  else if endswith part "h" then
    hours ← py_int (init_str part);
    Ok {| up_days := up_days st; up_hours := hours;
          up_minutes := up_minutes st; up_seconds := up_seconds st |}
  else if endswith part "m" then
    minutes ← py_int (init_str part);
    Ok {| up_days := up_days st; up_hours := up_hours st;
          up_minutes := minutes; up_seconds := up_seconds st |}
  else if endswith part "s" then
    seconds ← py_int (init_str part);
    Ok {| up_days := up_days st; up_hours := up_hours st;
          up_minutes := up_minutes st; up_seconds := seconds |}
  else Ok st.

Fixpoint uptime_loop (parts : list string) (st : uptime_parts)
    (i : nat) (todo : list string) : result uptime_parts :=
  match todo with
  | [] => Ok st
  | part :: todo' =>
      st' ← uptime_token parts st i part;
      uptime_loop parts st' (S i) todo'
  end.

Definition uptime_seconds (st : uptime_parts) : Z :=
  (up_days st * 86400 + up_hours st * 3600 + up_minutes st * 60
   + up_seconds st)%Z.

Definition parse_uptime (text : string) : result Z :=
  let zero := {| up_days := 0; up_hours := 0; up_minutes := 0;
                 up_seconds := 0 |} in
  st ← match match_uptime text with
       | Some (d, h, m, s) =>
           days ← py_int d;
           hours ← py_int h;
           minutes ← py_int m;
           seconds ← py_int s;
           Ok {| up_days := days; up_hours := hours;
                 up_minutes := minutes; up_seconds := seconds |}
       | None =>
           let parts := split_ws text in
           uptime_loop parts zero 0 parts
       end;
  Ok (uptime_seconds st).

(** ** [float()] on a string *)

Definition prec : Z := 53.
Definition emax : Z := 1024.

(** The binary64 value nearest to [m * 10^k] (ties to even), signed by
    [neg]: one rounding of the exact integer or of the exact quotient. *)
Definition float_of_decimal (neg : bool) (m k : Z) : spec_float :=
  match m with
  | Zpos p =>
      if (0 <=? k)%Z then
        match (Zpos p * 10 ^ k)%Z with
        | Zpos q => binary_round prec emax neg q 0
        | _ => S754_zero neg
        end
      else
        let '(mz, ez, lz) :=
          SFdiv_core_binary prec emax (Zpos p) 0 (10 ^ (- k))%Z 0 in
        binary_round_aux prec emax neg mz ez lz
  | _ => S754_zero neg
  end.

Definition float_of_Z (z : Z) : spec_float :=
  float_of_decimal (z <? 0)%Z (Z.abs z) 0.

(** Underscores are allowed only between two digits, and are dropped.
    [prev] is the character before; none at the start. *)
Fixpoint drop_underscores (prev : option ascii) (s : string) : option string :=
  match s with
  | EmptyString =>
      if bool_decide (prev = Some "_"%char) then None else Some EmptyString
  | String c s' =>
      if bool_decide (c = "_"%char) then
        match prev with
        | Some d => if is_digit d then drop_underscores (Some c) s' else None
        | None => None
        end
      else if bool_decide (prev = Some "_"%char) && negb (is_digit c) then None
      else String c <$> drop_underscores (Some c) s'
  end.

Fixpoint digits_value (acc : Z) (s : string) : Z :=
  match s with
  | EmptyString => acc
  | String c s' => digits_value (10 * acc + digit_value c)%Z s'
  end.

(** The exponent part: nothing, or [e] or [E], an optional sign and
    digits, up to the end of the string. *)
Definition exponent_part (s : string) : option Z :=
  match s with
  | EmptyString => Some 0%Z
  | String c r =>
      if bool_decide (lower c = "e"%char) then
        let '(neg, r') := split_sign r in
        let '(d, rest) := span_digits r' in
        if str_eqb d "" || negb (str_eqb rest "") then None
        else Some (if neg then (- digits_value 0 d)%Z else digits_value 0 d)
      else None
  end.

(** A decimal number without sign: digits, an optional point and more
    digits, with at least one digit, then the exponent part. The result
    [(m, k)] stands for [m * 10^k]. *)
Definition decimal_literal (s : string) : option (Z * Z) :=
  let '(ip, r) := span_digits s in
  let '(fp, r') :=
    match r with
    | String "." t => span_digits t
    | _ => (EmptyString, r)
    end in
  if str_eqb (ip +:+ fp) "" then None
  else
    e ← exponent_part r';
    Some (digits_value 0 (ip +:+ fp), (e - Z.of_nat (String.length fp))%Z).

Fixpoint lower_str (s : string) : string :=
  match s with
  | EmptyString => EmptyString
  | String c s' => String (lower c) (lower_str s')
  end.

Definition py_float (s : string) : result spec_float :=
  match drop_underscores None
          (rstrip is_num_space (lstrip is_num_space s)) with
  | None => Raise ValueError
  | Some t =>
      let '(neg, r) := split_sign t in
      let w := lower_str r in
      if str_eqb w "inf" || str_eqb w "infinity" then Ok (S754_infinity neg)
      else if str_eqb w "nan" then Ok S754_nan
      else
        match decimal_literal r with
        | Some (m, k) => Ok (float_of_decimal neg m k)
        | None => Raise ValueError
        end
  end.

(** ** The channel model

    The parsers build a dictionary [{"downstream": {...}, "upstream": {...},
    "system_uptime": ...}]; each channel map goes from the channel number
    to a dictionary with a fixed set of keys, a record here. The key
    ["system_uptime"] is absent when the HTML parser finds no uptime. *)

Module Downstream.
Record t : Set := {
  channel : Z;
  lock_status : string;
  modulation : string;
  channel_id : Z;
  frequency : spec_float;
  power : spec_float;
  snr : spec_float;
  corrected_errors : Z;
  uncorrected_errors : Z
}.

(** [c[field] = v] *)
Definition set_lock_status (v : string) (c : t) : t :=
  {| channel := channel c; lock_status := v; modulation := modulation c;
     channel_id := channel_id c; frequency := frequency c;
     power := power c; snr := snr c;
     corrected_errors := corrected_errors c;
     uncorrected_errors := uncorrected_errors c |}.
Definition set_modulation (v : string) (c : t) : t :=
  {| channel := channel c; lock_status := lock_status c; modulation := v;
     channel_id := channel_id c; frequency := frequency c;
     power := power c; snr := snr c;
     corrected_errors := corrected_errors c;
     uncorrected_errors := uncorrected_errors c |}.
Definition set_frequency (v : spec_float) (c : t) : t :=
  {| channel := channel c; lock_status := lock_status c;
     modulation := modulation c; channel_id := channel_id c;
     frequency := v; power := power c; snr := snr c;
     corrected_errors := corrected_errors c;
     uncorrected_errors := uncorrected_errors c |}.
Definition set_power (v : spec_float) (c : t) : t :=
  {| channel := channel c; lock_status := lock_status c;
     modulation := modulation c; channel_id := channel_id c;
     frequency := frequency c; power := v; snr := snr c;
     corrected_errors := corrected_errors c;
     uncorrected_errors := uncorrected_errors c |}.
Definition set_snr (v : spec_float) (c : t) : t :=
  {| channel := channel c; lock_status := lock_status c;
     modulation := modulation c; channel_id := channel_id c;
     frequency := frequency c; power := power c; snr := v;
     corrected_errors := corrected_errors c;
     uncorrected_errors := uncorrected_errors c |}.
Definition set_corrected_errors (v : Z) (c : t) : t :=
  {| channel := channel c; lock_status := lock_status c;
     modulation := modulation c; channel_id := channel_id c;
     frequency := frequency c; power := power c; snr := snr c;
     corrected_errors := v; uncorrected_errors := uncorrected_errors c |}.
Definition set_uncorrected_errors (v : Z) (c : t) : t :=
  {| channel := channel c; lock_status := lock_status c;
     modulation := modulation c; channel_id := channel_id c;
     frequency := frequency c; power := power c; snr := snr c;
     corrected_errors := corrected_errors c; uncorrected_errors := v |}.
End Downstream.

Module Upstream.
Record t : Set := {
  channel : Z;
  lock_status : string;
  modulation : string;
  channel_id : Z;
  symbol_rate : Z;
  frequency : spec_float;
  power : spec_float
}.

(** [c[field] = v] *)
Definition set_lock_status (v : string) (c : t) : t :=
  {| channel := channel c; lock_status := v; modulation := modulation c;
     channel_id := channel_id c; symbol_rate := symbol_rate c;
     frequency := frequency c; power := power c |}.
Definition set_modulation (v : string) (c : t) : t :=
  {| channel := channel c; lock_status := lock_status c; modulation := v;
     channel_id := channel_id c; symbol_rate := symbol_rate c;
     frequency := frequency c; power := power c |}.
Definition set_symbol_rate (v : Z) (c : t) : t :=
  {| channel := channel c; lock_status := lock_status c;
     modulation := modulation c; channel_id := channel_id c;
     symbol_rate := v; frequency := frequency c; power := power c |}.
Definition set_frequency (v : spec_float) (c : t) : t :=
  {| channel := channel c; lock_status := lock_status c;
     modulation := modulation c; channel_id := channel_id c;
     symbol_rate := symbol_rate c; frequency := v; power := power c |}.
Definition set_power (v : spec_float) (c : t) : t :=
  {| channel := channel c; lock_status := lock_status c;
     modulation := modulation c; channel_id := channel_id c;
     symbol_rate := symbol_rate c; frequency := frequency c; power := v |}.
End Upstream.

Record ChannelModel : Type := {
  downstream : gmap Z Downstream.t;
  upstream : gmap Z Upstream.t;
  system_uptime : option Z
}.

(** ** Python values, as decoded from JSON or handed to the sensors *)

Inductive key : Set :=
| KInt (z : Z)
| KStr (s : string).

#[global] Instance key_eq_dec : EqDecision key.
Proof. solve_decision. Defined.

Inductive value : Type :=
| VNone
| VBool (b : bool)
| VInt (z : Z)
| VFloat (f : spec_float)
| VStr (s : string)
| VList (l : list value)
| VDict (d : list (key * value)).

(** A dictionary is the list of its items in insertion order; a key occurs
    once. *)
Fixpoint dict_get {K} `{EqDecision K} {V} (d : list (K * V)) (k : K)
  : option V :=
  match d with
  | [] => None
  | (k', v) :: d' => if bool_decide (k' = k) then Some v else dict_get d' k
  end.

(** [d[k] = v]: a new key goes to the end, a known key keeps its place. *)
Fixpoint dict_set {K} `{EqDecision K} {V} (d : list (K * V)) (k : K) (v : V)
  : list (K * V) :=
  match d with
  | [] => [(k, v)]
  | (k', v') :: d' =>
      if bool_decide (k' = k) then (k, v) :: d'
      else (k', v') :: dict_set d' k v
  end.

(** [l[i]] for a list, with Python's negative indices *)
Definition list_index {A} (l : list A) (i : Z) : result A :=
  let j := if (i <? 0)%Z then (i + Z.of_nat (length l))%Z else i in
  if (j <? 0)%Z then Raise IndexError
  else match l !! Z.to_nat j with
       | Some x => Ok x
       | None => Raise IndexError
       end.

(** [v[k]] *)
Definition getitem (v : value) (k : key) : result value :=
  match v with
  | VDict d =>
      match dict_get d k with
      | Some x => Ok x
      | None => Raise KeyError
      end
  | VList l =>
      match k with
      | KInt i => list_index l i
      | KStr _ => Raise TypeError
      end
  | VStr s =>
      match k with
      | KInt i =>
          c ← list_index (list_ascii_of_string s) i;
          Ok (VStr (String c EmptyString))
      | KStr _ => Raise TypeError
      end
  | _ => Raise TypeError
  end.

(** [v.split(sep)]: only a string has the method. *)
Definition value_split (sep : string) (v : value) : result (list string) :=
  match v with
  | VStr s => Ok (split sep s)
  | _ => Raise AttributeError
  end.

(** ** [_parse_mb8600_json] *)

(** [channel_data[k]] *)
Definition field (channel_data : list string) (k : nat) : result string :=
  match channel_data !! k with
  | Some f => Ok f
  | None => Raise IndexError
  end.

(** The body of the downstream loop for a non-empty record: the key and
    the dictionary stored under it. *)
Definition downstream_record (channel_raw : string)
  : result (Z * Downstream.t) :=
  let channel_data := split "^" channel_raw in
  channel_num ← field channel_data 0 ≫= py_int;
  lock_status ← field channel_data 1;
  modulation ← field channel_data 2;
  channel_id ← field channel_data 3 ≫= py_int;
  frequency ← field channel_data 4 ≫= py_float;
  power ← field channel_data 5 ≫= py_float;
  snr ← field channel_data 6 ≫= py_float;
  corrected_errors ← field channel_data 7 ≫= py_int;
  uncorrected_errors ← field channel_data 8 ≫= py_int;
  Ok (channel_num,
      {| Downstream.channel := channel_num;
         Downstream.lock_status := lock_status;
         Downstream.modulation := modulation;
         Downstream.channel_id := channel_id;
         Downstream.frequency := frequency;
         Downstream.power := power;
         Downstream.snr := snr;
         Downstream.corrected_errors := corrected_errors;
         Downstream.uncorrected_errors := uncorrected_errors |}).

Definition upstream_record (channel_raw : string)
  : result (Z * Upstream.t) :=
  let channel_data := split "^" channel_raw in
  channel_num ← field channel_data 0 ≫= py_int;
  lock_status ← field channel_data 1;
  modulation ← field channel_data 2;
  channel_id ← field channel_data 3 ≫= py_int;
  symbol_rate ← field channel_data 4 ≫= py_int;
  frequency ← field channel_data 5 ≫= py_float;
  power ← field channel_data 6 ≫= py_float;
  Ok (channel_num,
      {| Upstream.channel := channel_num;
         Upstream.lock_status := lock_status;
         Upstream.modulation := modulation;
         Upstream.channel_id := channel_id;
         Upstream.symbol_rate := symbol_rate;
         Upstream.frequency := frequency;
         Upstream.power := power |}).

(** [for channel_raw in channels: if not channel_raw: continue; ...],
    where [record] is the body and [acc] the map filled so far. *)
Fixpoint channel_loop {C} (record : string -> result (Z * C))
    (acc : gmap Z C) (channels : list string) : result (gmap Z C) :=
  match channels with
  | [] => Ok acc
  | channel_raw :: rest =>
      if str_eqb channel_raw "" then channel_loop record acc rest
      else
        '(channel_num, c) ← record channel_raw;
        channel_loop record (<[channel_num := c]> acc) rest
  end.

Definition parse_downstream_blob (blob : string)
  : result (gmap Z Downstream.t) :=
  channel_loop downstream_record ∅ (split "|+|" blob).

(** [data[k1][k2][k3]] *)
Definition path3 (data : value) (k1 k2 k3 : string) : result value :=
  v1 ← getitem data (KStr k1);
  v2 ← getitem v1 (KStr k2);
  getitem v2 (KStr k3).

(** [parse_uptime] on a value: [re.match] refuses what is no string. *)
Definition parse_uptime_value (v : value) : result Z :=
  match v with
  | VStr s => parse_uptime s
  | _ => Raise TypeError
  end.

Definition _parse_mb8600_json (data : value) : result ChannelModel :=
  ds_channels ←
    path3 data "GetMultipleHNAPsResponse"
      "GetMotoStatusDownstreamChannelInfoResponse"
      "MotoConnDownstreamChannel" ≫= value_split "|+|";
  ds ← channel_loop downstream_record ∅ ds_channels;
  us_channels ←
    path3 data "GetMultipleHNAPsResponse"
      "GetMotoStatusUpstreamChannelInfoResponse"
      "MotoConnUpstreamChannel" ≫= value_split "|+|";
  us ← channel_loop upstream_record ∅ us_channels;
  uptime_str ←
    path3 data "GetMultipleHNAPsResponse"
      "GetMotoStatusConnectionInfoResponse" "MotoConnSystemUpTime";
  uptime ← parse_uptime_value uptime_str;
  Ok {| downstream := ds; upstream := us; system_uptime := Some uptime |}.

(** The reply of the modem with the three strings the parser reads. *)
Definition hnap_response (ds_blob us_blob uptime : string) : value :=
  VDict [(KStr "GetMultipleHNAPsResponse",
     VDict [(KStr "GetMotoStatusDownstreamChannelInfoResponse",
               VDict [(KStr "MotoConnDownstreamChannel", VStr ds_blob)]);
            (KStr "GetMotoStatusUpstreamChannelInfoResponse",
               VDict [(KStr "MotoConnUpstreamChannel", VStr us_blob)]);
            (KStr "GetMotoStatusConnectionInfoResponse",
               VDict [(KStr "MotoConnSystemUpTime", VStr uptime)])])].

(** ** The document tree

    [_parse_cgm4331com_html] reads the tree that
    [BeautifulSoup(html, 'html.parser')] builds: tags with their children
    and the strings between them. The embedding starts from that tree; a
    document is the list of the nodes at its top. *)

Inductive node : Type :=
| Text (s : string)
| Tag (name : string) (children : list node).

Definition children (n : node) : list node :=
  match n with
  | Tag _ cs => cs
  | Text _ => []
  end.

(** [tag.text]: the strings below the tag, joined in document order. *)
Fixpoint node_text (n : node) : string :=
  match n with
  | Text s => s
  | Tag _ cs =>
      (fix go (l : list node) : string :=
         match l with
         | [] => EmptyString
         | c :: l' => node_text c +:+ go l'
         end) cs
  end.

(** [tag.string]: the string of a tag whose only child is a string, or
    whose only child is a tag that has one. *)
Fixpoint node_string (n : node) : option string :=
  match n with
  | Text s => Some s
  | Tag _ [c] => node_string c
  | Tag _ _ => None
  end.

Definition is_tag (name : string) (n : node) : bool :=
  match n with
  | Tag nm _ => str_eqb nm name
  | Text _ => false
  end.

(** The tags called [name] in the tree of [n], [n] included, in document
    order. *)
Fixpoint find_all_from (name : string) (n : node) : list node :=
  match n with
  | Text _ => []
  | Tag _ cs =>
      (if is_tag name n then [n] else [])
      ++ (fix go (l : list node) : list node :=
            match l with
            | [] => []
            | c :: l' => find_all_from name c ++ go l'
            end) cs
  end.

(** [tag.find_all(name)] on the children of a tag, or on a document *)
Definition find_all (name : string) (forest : list node) : list node :=
  flat_map (find_all_from name) forest.

(** [tag.find(name)] *)
Definition find (name : string) (forest : list node) : option node :=
  head (find_all name forest).

(** The first node in document order, among [n] and the nodes below it,
    that satisfies [p], with the siblings that follow that node. *)
Fixpoint find_with_siblings (p : node -> bool) (n : node)
    (next_siblings : list node) : option (node * list node) :=
  if p n then Some (n, next_siblings)
  else
    match n with
    | Text _ => None
    | Tag _ cs =>
        (fix go (l : list node) : option (node * list node) :=
           match l with
           | [] => None
           | c :: l' =>
               match find_with_siblings p c l' with
               | Some r => Some r
               | None => go l'
               end
           end) cs
    end.

Fixpoint find_in_forest (p : node -> bool) (forest : list node)
  : option (node * list node) :=
  match forest with
  | [] => None
  | n :: rest =>
      match find_with_siblings p n rest with
      | Some r => Some r
      | None => find_in_forest p rest
      end
  end.

(** [tag.find_next_sibling(name)], from the siblings that follow the tag *)
Definition find_next_sibling (name : string) (next_siblings : list node)
  : option node :=
  head (filter (fun n => is_tag name n = true) next_siblings).

(** ** [_parse_cgm4331com_html] *)

(** *** The uptime *)

Definition is_uptime_label (n : node) : bool :=
  is_tag "span" n && bool_decide (node_string n = Some "System Uptime:").

(** [None] when the label is not found: the key ["system_uptime"] is then
    not set. A label with no [span] after it gives [None.text]. *)
Definition find_uptime (soup : list node) : result (option Z) :=
  match find_in_forest is_uptime_label soup with
  | Some (uptime_row, next_siblings) =>
      match find_next_sibling "span" next_siblings with
      | Some sibling =>
          uptime ← parse_uptime (node_text sibling);
          Ok (Some uptime)
      | None => Raise AttributeError
      end
  | None => Ok None
  end.

(** *** The rows of a table *)

(** [th.text.strip().split('\n')[0].strip()] *)
Definition header_of (th : node) : string :=
  strip (fst (split1 (String "010" EmptyString) (strip (node_text th)))).

(** The text of every [div] in every [td] of the row, stripped. *)
Definition cell_values (row : node) : list string :=
  flat_map
    (fun td =>
       map (fun div => strip (node_text div)) (find_all "div" (children td)))
    (find_all "td" (children row)).

(** The [while] loop that cuts a run of digits into channel ids. The loop
    moves [i] forward by one or two at every round, so [fuel] rounds are
    enough when [fuel] is the length of [giant_id]. *)
Fixpoint split_giant_loop (fuel : nat) (giant_id : string) (i : nat)
    (values : list string) : result (list string) :=
  match fuel with
  | O => Ok values
  | S fuel' =>
      if (i <? String.length giant_id)%nat then
        two ←
          (if (i + 2 <? String.length giant_id)%nat then
             n ← py_int (slice giant_id i (i + 3));
             Ok (n <? 100)%Z
           else Ok false);
        if (two : bool) then
          split_giant_loop fuel' giant_id (i + 2)
            (values ++ [slice giant_id i (i + 2)])
        else
          split_giant_loop fuel' giant_id (i + 1)
            (values ++ [slice giant_id i (i + 1)])
      else Ok values
  end.

Definition split_giant_id (giant_id : string) : result (list string) :=
  split_giant_loop (String.length giant_id) giant_id 0 [].

(** The runs of digits of [value_text]; a single run of more than three
    digits is cut by [split_giant_id]. *)
Definition channel_ids_of_text (value_text : string) : result (list string) :=
  let channel_ids := findall_digits value_text in
  match channel_ids with
  | [giant_id] =>
      if (3 <? String.length giant_id)%nat then split_giant_id giant_id
      else Ok channel_ids
  | _ => Ok channel_ids
  end.

(** [full_text.split('\n', 1)[1].strip()] when ['\n' in full_text] *)
Definition value_text_of (th : node) : option string :=
  strip <$> snd (split1 (String "010" EmptyString) (strip (node_text th))).

(** The values of a row of the downstream or of the upstream table. *)
Definition channel_row_values (row th : node) (header : string)
  : result (list string) :=
  let values := cell_values row in
  if bool_decide (values = []) && str_eqb header "Channel ID" then
    match value_text_of th with
    | Some value_text => channel_ids_of_text value_text
    | None => Ok values
    end
  else Ok values.

(** [range(0, stop, step)] for [0 < step] *)
Definition range_step (stop step : nat) : list nat :=
  map (fun k => k * step)%nat (seq 0 ((stop + step - 1) / step)).

(** [a // b] *)
Definition floordiv (a b : nat) : result nat :=
  if (b =? 0)%nat then Raise ZeroDivisionError else Ok (a / b)%nat.

(** The error counts of a row whose cells hold no value: with a
    [Channel ID] row read before, the digits of [value_text] are cut into
    pieces of [chunk_size]. *)
Definition codeword_values (error_data : list (string * list string))
    (value_text : string) : result (list string) :=
  match dict_get error_data "Channel ID" with
  | Some channel_ids =>
      let big_value := only_digits value_text in
      chunk_size ← floordiv (String.length big_value) (length channel_ids);
      if (0 <? chunk_size)%nat then
        Ok (map
              (fun i =>
                 slice big_value i
                   (Nat.min (i + chunk_size) (String.length big_value)))
              (range_step (String.length big_value) chunk_size))
      else Ok (findall_digits value_text)
  | None => Ok (findall_digits value_text)
  end.

(** The values of a row of the error table; [error_data] holds the rows
    read before. *)
Definition error_row_values (error_data : list (string * list string))
    (row th : node) (header : string) : result (list string) :=
  let values := cell_values row in
  if bool_decide (values = []) then
    match value_text_of th with
    | Some value_text =>
        if str_eqb header "Channel ID" then channel_ids_of_text value_text
        else if str_eqb header "Correctable Codewords"
                || str_eqb header "Uncorrectable Codewords"
        then codeword_values error_data value_text
        else Ok values
    | None => Ok values
    end
  else Ok values.

(** [for row in rows: ...; data[header] = values]; [row_values] reads the
    values of a row and may look at the rows gathered so far. *)
Fixpoint gather_rows
    (row_values : list (string * list string) -> node -> node -> string
                  -> result (list string))
    (data : list (string * list string)) (rows : list node)
  : result (list (string * list string)) :=
  match rows with
  | [] => Ok data
  | row :: rest =>
      match find "th" (children row) with
      | None => gather_rows row_values data rest
      | Some th =>
          let header := header_of th in
          values ← row_values data row th header;
          gather_rows row_values (dict_set data header values) rest
      end
  end.

(** [max(l)] *)
Definition py_max (l : list nat) : result nat :=
  match l with
  | [] => Raise ValueError
  | x :: l' => Ok (fold_left Nat.max l' x)
  end.

(** [max([len(values) for values in data.values()])] *)
Definition num_channels (data : list (string * list string)) : result nat :=
  py_max (map (fun item => length (snd item)) data).

(** The id of the channel at position [i]: the entry of the [Channel ID]
    row when there is one that [int()] accepts, else the channel number. *)
Definition channel_id_at (channel_ids : list string) (i : nat) : result Z :=
  let channel_num := (Z.of_nat i + 1)%Z in
  match channel_ids !! i with
  | Some text => except_ValueError_TypeError (py_int text) channel_num
  | None => Ok channel_num
  end.

(** *** The values of a row, by header *)

(** [\d+(?:\.\d+)?] at the start of [s]: the text matched and the rest.
    The fraction is taken when a digit follows the point. *)
Definition match_number (s : string) : option (string * string) :=
  '(ip, r) ← match_digits s;
  match r with
  | String "." t =>
      match match_digits t with
      | Some (fp, r') => Some (ip +:+ "." +:+ fp, r')
      | None => Some (ip, r)
      end
  | _ => Some (ip, r)
  end.

(** [[+-]?\d+(?:\.\d+)?] at the start of [s] *)
Definition match_signed_number (s : string) : option (string * string) :=
  match s with
  | String "+" t => (fun '(n, r) => (String "+" n, r)) <$> match_number t
  | String "-" t => (fun '(n, r) => (String "-" n, r)) <$> match_number t
  | _ => match_number s
  end.

(** The longest prefix of word characters. *)
Fixpoint span_word (s : string) : string :=
  match s with
  | String c s' => if is_word c then String c (span_word s') else EmptyString
  | EmptyString => EmptyString
  end.

(** [re.match] with the pattern of the frequency cells: a number as in
    [match_number] (group 1), any white space, then the longest run of
    word characters (group 2, maybe empty). *)
Definition match_frequency (value : string) : option (string * string) :=
  '(number, r) ← match_number value;
  Some (number, span_word (lstrip is_space r)).

Definition million : spec_float := float_of_Z 1000000.

(** The frequency read from a cell, [None] when the pattern does not
    match. *)
Definition frequency_of (value : string) : result (option spec_float) :=
  match match_frequency value with
  | Some (number, unit) =>
      freq ← py_float number;
      if negb (str_eqb unit "MHz") && SFltb million freq
      then Ok (Some (SFdiv prec emax freq million))
      else Ok (Some freq)
  | None => Ok None
  end.


(** What one value of the row [header] does to a downstream channel. *)
Definition set_downstream_value (header value : string) (c : Downstream.t)
  : result Downstream.t :=
  if str_eqb header "Lock Status" then Ok (Downstream.set_lock_status value c)
  else if str_eqb header "Frequency" then
    freq ← frequency_of value;
    Ok (from_option (fun f => Downstream.set_frequency f c) c freq)
  else if str_eqb header "SNR" then
    match match_number value with
    | Some (number, _) => f ← py_float number; Ok (Downstream.set_snr f c)
    | None => Ok c
    end
  else if str_eqb header "Power Level" then
    match match_signed_number value with
    | Some (number, _) => f ← py_float number; Ok (Downstream.set_power f c)
    | None => Ok c
    end
  else if str_eqb header "Modulation" then Ok (Downstream.set_modulation value c)
  else Ok c.

(** What one value of the row [header] does to an upstream channel. *)
Definition set_upstream_value (header value : string) (c : Upstream.t)
  : result Upstream.t :=
  if str_eqb header "Lock Status" then Ok (Upstream.set_lock_status value c)
  else if str_eqb header "Frequency" then
    freq ← frequency_of value;
    Ok (from_option (fun f => Upstream.set_frequency f c) c freq)
  else if str_eqb header "Symbol Rate" then
    match match_digits value with
    | Some (number, _) => n ← py_int number; Ok (Upstream.set_symbol_rate n c)
    | None => Ok c
    end
  else if str_eqb header "Power Level" then
    match match_signed_number value with
    | Some (number, _) => f ← py_float number; Ok (Upstream.set_power f c)
    | None => Ok c
    end
  else if str_eqb header "Modulation" then Ok (Upstream.set_modulation value c)
  else Ok c.

(** *** Building the channels of a table *)

Section Channels.
Context {C : Type}.
(** The dictionary a new channel starts from. *)
Variable new_channel : Z -> Z -> C.
(** The effect of one value of a row on a channel. *)
Variable set_value : string -> string -> C -> result C.

(** [for i in range(num): ... channels[channel_num] = {...}] *)
Fixpoint create_channels (channel_ids : list string) (channels : gmap Z C)
    (positions : list nat) : result (gmap Z C) :=
  match positions with
  | [] => Ok channels
  | i :: rest =>
      let channel_num := (Z.of_nat i + 1)%Z in
      channel_id ← channel_id_at channel_ids i;
      create_channels channel_ids
        (<[channel_num := new_channel channel_num channel_id]> channels) rest
  end.

(** [for i, value in enumerate(values): ...], from position [i] on;
    values beyond the channels that exist are skipped. *)
Fixpoint set_row (header : string) (channels : gmap Z C) (i : nat)
    (values : list string) : result (gmap Z C) :=
  match values with
  | [] => Ok channels
  | value :: rest =>
      let channel_num := (Z.of_nat i + 1)%Z in
      match channels !! channel_num with
      | None => set_row header channels (S i) rest
      | Some c =>
          c' ← set_value header value c;
          set_row header (<[channel_num := c']> channels) (S i) rest
      end
  end.

(** [for header, values in data.items(): ...] *)
Fixpoint set_rows (channels : gmap Z C)
    (items : list (string * list string)) : result (gmap Z C) :=
  match items with
  | [] => Ok channels
  | (header, values) :: rest =>
      if str_eqb header "Channel ID" then set_rows channels rest
      else
        channels' ← set_row header channels 0 values;
        set_rows channels' rest
  end.

(** A table, from its rows to its channels. *)
Definition parse_channel_table (table : node) : result (gmap Z C) :=
  data ← gather_rows (fun _ => channel_row_values) [] (find_all "tr" (children table));
  num ← num_channels data;
  match dict_get data "Channel ID" with
  | Some (id :: ids) =>
      channels ← create_channels (id :: ids) ∅ (seq 0 num);
      set_rows channels data
  | _ => Ok ∅
  end.
End Channels.

Definition new_downstream (channel_num channel_id : Z) : Downstream.t :=
  {| Downstream.channel := channel_num;
     Downstream.channel_id := channel_id;
     Downstream.lock_status := "";
     Downstream.modulation := "";
     Downstream.frequency := S754_zero false;
     Downstream.power := S754_zero false;
     Downstream.snr := S754_zero false;
     Downstream.corrected_errors := 0;
     Downstream.uncorrected_errors := 0 |}.

Definition new_upstream (channel_num channel_id : Z) : Upstream.t :=
  {| Upstream.channel := channel_num;
     Upstream.channel_id := channel_id;
     Upstream.lock_status := "";
     Upstream.modulation := "";
     Upstream.frequency := S754_zero false;
     Upstream.power := S754_zero false;
     Upstream.symbol_rate := 0 |}.

(** *** The error table *)

(** [if i < len(counts): try: channel[field] = int(counts[i]) / except
    (ValueError, TypeError): pass] *)
Definition set_count (set : Z -> Downstream.t -> Downstream.t)
    (counts : list string) (i : nat) (c : Downstream.t)
  : result Downstream.t :=
  match counts !! i with
  | Some text =>
      except_ValueError_TypeError (n ← py_int text; Ok (set n c)) c
  | None => Ok c
  end.

(** [for i, channel_id in enumerate(error_data["Channel ID"]): ...] *)
Fixpoint assign_errors (correctable uncorrectable : list string)
    (channels : gmap Z Downstream.t) (i : nat) (channel_ids : list string)
  : result (gmap Z Downstream.t) :=
  match channel_ids with
  | [] => Ok channels
  | _ :: rest =>
      let channel_num := (Z.of_nat i + 1)%Z in
      match channels !! channel_num with
      | None => assign_errors correctable uncorrectable channels (S i) rest
      | Some c =>
          c1 ← set_count Downstream.set_corrected_errors correctable i c;
          c2 ← set_count Downstream.set_uncorrected_errors uncorrectable i c1;
          assign_errors correctable uncorrectable
            (<[channel_num := c2]> channels) (S i) rest
      end
  end.

Definition parse_error_table (table : node) (channels : gmap Z Downstream.t)
  : result (gmap Z Downstream.t) :=
  error_data ← gather_rows error_row_values [] (find_all "tr" (children table));
  match dict_get error_data "Channel ID",
        dict_get error_data "Correctable Codewords",
        dict_get error_data "Uncorrectable Codewords" with
  | Some channel_ids, Some correctable, Some uncorrectable =>
      assign_errors correctable uncorrectable channels 0 channel_ids
  | _, _, _ => Ok channels
  end.

(** *** The parser *)

(** The part under [if len(tables) >= 3]: the downstream and the upstream
    map. *)
Definition parse_tables (soup : list node)
  : result (gmap Z Downstream.t * gmap Z Upstream.t) :=
  let tables := find_all "tbody" soup in
  match tables with
  | downstream_table :: upstream_table :: error_table :: _ =>
      ds ← parse_channel_table new_downstream set_downstream_value
             downstream_table;
      us ← parse_channel_table new_upstream set_upstream_value
             upstream_table;
      ds' ← parse_error_table error_table ds;
      Ok (ds', us)
  | _ => Ok (∅, ∅)
  end.

Definition _parse_cgm4331com_html (soup : list node) : result ChannelModel :=
  uptime ← find_uptime soup;
  '(ds, us) ← parse_tables soup;
  Ok {| downstream := ds; upstream := us; system_uptime := uptime |}.

(** [_async_update_data] runs a parser under [except Exception] and raises
    [UpdateFailed] for whatever the parser raised. *)
Definition update_failed {A} (r : result A) : result A :=
  match r with
  | Ok a => Ok a
  | Raise _ => Raise UpdateFailed
  end.

(** ** The requests to the modem ([aiohttp])

    [_async_update_data] and [validate_input] talk to the modem through a
    client session. The session and the modem are the environment of the
    embedding: a request is answered by a reply or by an exception, as a
    function of the request and of the requests sent before it. The
    requests that were sent are kept in a log. *)

Inductive method : Set := GET | POST.

Inductive body : Type :=
| NoBody
| JsonBody (payload : value)
| FormBody (payload : list (string * string)).

Record request : Type := {
  req_method : method;
  req_url : string;
  req_headers : list (string * string);
  req_body : body;
  req_cookies : list (string * string);
  req_allow_redirects : bool
}.

(** What is raised at this level: an exception of the embedded code, an
    [aiohttp.ClientError] (which [raise_for_status] raises as a
    [ClientResponseError]), or an exception of the library that the code
    tells apart only as a [ValueError] (as [json.JSONDecodeError] is) or
    not (a timeout). *)
Inductive failure : Set :=
| Py (e : exn)
| ClientError
| LibraryValueError
| LibraryException.

(** [isinstance(f, ValueError)] *)
Definition is_ValueError (f : failure) : bool :=
  match f with
  | Py ValueError => true
  | LibraryValueError => true
  | _ => false
  end.

(** A reply; [json] and [text] are what [await response.json()] and
    [await response.text()] give. *)
Module Response.
Record t : Type := {
  status : Z;
  cookies : list (string * string);
  json : failure + value;
  text : failure + string
}.
End Response.

Record environment : Type := {
  (** the reply to a request, after the requests of the log *)
  respond : list request -> request -> failure + Response.t;
  (** the tree that [BeautifulSoup(html, 'html.parser')] builds *)
  BeautifulSoup : string -> list node
}.

Inductive outcome (A : Type) : Type :=
| Done (a : A)
| Failed (f : failure).
Arguments Done {A} a.
Arguments Failed {A} f.

(** A computation that sends requests: from the log before to the log
    after and the outcome. *)
Definition io (A : Type) : Type := list request -> list request * outcome A.

#[global] Instance io_ret : MRet io := fun A a log => (log, Done a).
#[global] Instance io_bind : MBind io := fun A B f m log =>
  match m log with
  | (log', Done a) => f a log'
  | (log', Failed e) => (log', Failed e)
  end.

Definition raise {A} (f : failure) : io A := fun log => (log, Failed f).

(** The value or the exception of a step that sends nothing. *)
Definition of_sum {A} (r : failure + A) : io A :=
  match r with
  | inl f => raise f
  | inr a => mret a
  end.

Definition of_result {A} (r : result A) : io A :=
  match r with
  | Ok a => mret a
  | Raise e => raise (Py e)
  end.

(** [async with session.post(...) as response] and [session.get(...)]:
    the request goes to the log, the environment answers. *)
Definition send (env : environment) (r : request) : io Response.t :=
  fun log => (log ++ [r], match respond env log r with
                          | inl f => Failed f
                          | inr resp => Done resp
                          end).

(** [response.raise_for_status()] *)
Definition raise_for_status (r : Response.t) : io unit :=
  if (400 <=? Response.status r)%Z then raise ClientError else mret tt.

(** [not s] for [s : str | None] *)
Definition falsy (s : option string) : bool :=
  match s with
  | Some s => str_eqb s ""
  | None => true
  end.

Definition hnap_headers : list (string * string) :=
  [("SOAPACTION", String "034" "http://purenetworks.com/HNAP1/GetMultipleHNAPs"
                  +:+ String "034" "");
   ("Content-Type", "application/json")].

Definition hnap_payload : value :=
  VDict [(KStr "GetMultipleHNAPs",
          VDict [(KStr "GetMotoStatusStartupSequence", VStr "");
                 (KStr "GetMotoStatusConnectionInfo", VStr "");
                 (KStr "GetMotoStatusDownstreamChannelInfo", VStr "");
                 (KStr "GetMotoStatusUpstreamChannelInfo", VStr "");
                 (KStr "GetMotoLagStatus", VStr "")])].

Definition form_headers : list (string * string) :=
  [("Content-Type", "application/x-www-form-urlencoded")].

(** [session.post(url, json=payload, headers=headers)] of the MB8600 *)
Definition hnap_request (protocol host : string) : request :=
  {| req_method := POST;
     req_url := protocol +:+ "://" +:+ host +:+ "/HNAP1";
     req_headers := hnap_headers;
     req_body := JsonBody hnap_payload;
     req_cookies := [];
     req_allow_redirects := true |}.

(** [session.post(login_url, data=payload, headers=headers,
    allow_redirects=False)] *)
Definition login_request (protocol host : string)
    (username password : option string) : request :=
  {| req_method := POST;
     req_url := protocol +:+ "://" +:+ host +:+ "/check.jst";
     req_headers := form_headers;
     req_body := FormBody [("username", default "" username);
                           ("password", default "" password)];
     req_cookies := [];
     req_allow_redirects := false |}.

(** [session.get(data_url, cookies=cookies)] *)
Definition data_request (protocol host : string)
    (cookies : list (string * string)) : request :=
  {| req_method := GET;
     req_url := protocol +:+ "://" +:+ host +:+ "/network_setup.jst";
     req_headers := [];
     req_body := NoBody;
     req_cookies := cookies;
     req_allow_redirects := true |}.

(** [response.status in (301, 302)] *)
Definition is_redirect (r : Response.t) : bool :=
  (Response.status r =? 301)%Z || (Response.status r =? 302)%Z.

(** ** [ArrisModemDataUpdateCoordinator._async_update_data] *)

Module Coordinator.
Record t : Type := {
  host : string;
  username : option string;
  password : option string;
  use_ssl : bool;
  model : string
}.
End Coordinator.

(** The body of the [try]. *)
Definition update_body (env : environment) (self : Coordinator.t)
  : io ChannelModel :=
  let protocol := if Coordinator.use_ssl self then "https" else "http" in
  if str_eqb (Coordinator.model self) "MB8600" then
    response ← send env (hnap_request protocol (Coordinator.host self));
    _ ← raise_for_status response;
    data ← of_sum (Response.json response);
    of_result (_parse_mb8600_json data)
  else
    if falsy (Coordinator.username self) || falsy (Coordinator.password self)
    then raise (Py UpdateFailed)
    else
      response ← send env (login_request protocol (Coordinator.host self)
                             (Coordinator.username self)
                             (Coordinator.password self));
      cookies ← (if negb (is_redirect response) then raise (Py UpdateFailed)
                 else
                   match Response.cookies response with
                   | [] => raise (Py UpdateFailed)
                   | cookies => mret cookies
                   end);
      response ← send env (data_request protocol (Coordinator.host self)
                             cookies);
      _ ← raise_for_status response;
      html ← of_sum (Response.text response);
      of_result (_parse_cgm4331com_html (BeautifulSoup env html)).

(** [except Exception as err: raise UpdateFailed(...)] *)
Definition _async_update_data (env : environment) (self : Coordinator.t)
  : io ChannelModel :=
  fun log =>
    match update_body env self log with
    | (log', Done result) => (log', Done result)
    | (log', Failed _) => (log', Failed (Py UpdateFailed))
    end.

(** ** The configuration flow ([config_flow.py]) *)

(** The input of the form; its schema makes the host and the model
    present. *)
Module UserInput.
Record t : Type := {
  host : string;
  model : string;
  username : option string;
  password : option string;
  ssl : option bool;
  scan_interval : option Z
}.
End UserInput.

(** [validate_input]; the result is the title. The handler logs the
    exception and raises it again. *)
Definition validate_input (env : environment) (data : UserInput.t)
  : io string :=
  let protocol := if default true (UserInput.ssl data) then "https"
                  else "http" in
  let model := UserInput.model data in
  _ ← (if str_eqb model "MB8600" then
         response ← send env (hnap_request protocol (UserInput.host data));
         _ ← raise_for_status response;
         _ ← of_sum (Response.json response);
         mret tt
       else
         if falsy (UserInput.username data) || falsy (UserInput.password data)
         then raise (Py ValueError)
         else
           response ← send env (login_request protocol (UserInput.host data)
                                  (UserInput.username data)
                                  (UserInput.password data));
           cookies ← (if negb (is_redirect response) then raise ClientError
                      else
                        match Response.cookies response with
                        | [] => raise ClientError
                        | cookies => mret cookies
                        end);
           response ← send env (data_request protocol (UserInput.host data)
                                  cookies);
           _ ← raise_for_status response;
           _ ← of_sum (Response.text response);
           mret tt);
  mret ("Arris Modem " +:+ model).

Inductive FlowResult : Type :=
| CreateEntry (title : string) (data : UserInput.t)
| ShowForm (errors : list (string * string)).

(** [ConfigFlow.async_step_user] *)
Definition async_step_user (env : environment)
    (user_input : option UserInput.t) (log : list request)
  : list request * FlowResult :=
  match user_input with
  | Some data =>
      match validate_input env data log with
      | (log', Done title) => (log', CreateEntry title data)
      | (log', Failed f) =>
          if is_ValueError f then (log', ShowForm [("base", "invalid_auth")])
          else (log', ShowForm [("base", "cannot_connect")])
      end
  | None => (log, ShowForm [])
  end.

(** The coordinator that [async_setup_entry] makes of the data of the
    entry. *)
Definition coordinator_of_entry (data : UserInput.t) : Coordinator.t :=
  {| Coordinator.host := UserInput.host data;
     Coordinator.username := UserInput.username data;
     Coordinator.password := UserInput.password data;
     Coordinator.use_ssl := default true (UserInput.ssl data);
     Coordinator.model := UserInput.model data |}.

(** ** The sensor accessors ([sensor.py]) *)

(** [bool(v)] *)
Definition truthy (v : value) : bool :=
  match v with
  | VNone => false
  | VBool b => b
  | VInt z => negb (z =? 0)%Z
  | VFloat f => match f with S754_zero _ => false | _ => true end
  | VStr s => negb (str_eqb s "")
  | VList l => match l with [] => false | _ => true end
  | VDict d => match d with [] => false | _ => true end
  end.

(** [isinstance(v, dict)] *)
Definition is_dict (v : value) : bool :=
  match v with
  | VDict _ => true
  | _ => false
  end.

(** [f == z] for a float and an integer: the comparison is exact. *)
Definition float_eq_Z (f : spec_float) (z : Z) : bool :=
  match f with
  | S754_zero _ => (z =? 0)%Z
  | S754_finite s m e =>
      let n := if s then Z.neg m else Z.pos m in
      if (0 <=? e)%Z then (n * 2 ^ e =? z)%Z else (n =? z * 2 ^ (- e))%Z
  | _ => false
  end.

(** [v == k] for an element [v] of a list and an integer or a string [k] *)
Definition value_eq_key (v : value) (k : key) : bool :=
  match k, v with
  | KInt z, VInt z' => (z' =? z)%Z
  | KInt z, VBool b => ((if b then 1 else 0) =? z)%Z
  | KInt z, VFloat f => float_eq_Z f z
  | KStr s, VStr s' => str_eqb s' s
  | _, _ => false
  end.

(** [sub in s] for two strings *)
Fixpoint is_substring (sub s : string) : bool :=
  String.prefix sub s
  || match s with
     | String _ s' => is_substring sub s'
     | EmptyString => false
     end.

(** [k in v] *)
Definition contains (v : value) (k : key) : result bool :=
  match v with
  | VDict d => Ok (bool_decide (is_Some (dict_get d k)))
  | VList l => Ok (existsb (fun x => value_eq_key x k) l)
  | VStr s =>
      match k with
      | KStr sub => Ok (is_substring sub s)
      | KInt _ => Raise TypeError
      end
  | _ => Raise TypeError
  end.

(** [list(v.keys())], an argument of the warning that is logged when the
    metric is missing *)
Definition keys_of (v : value) : result (list key) :=
  match v with
  | VDict d => Ok (map fst d)
  | _ => Raise AttributeError
  end.

(** The body of the [try] of [get_downstream_value] and of
    [get_upstream_value]; the two differ in the name of the map only. *)
Definition get_value_body (direction : string) (data : value) (key : string)
    (channel : Z) : result value :=
  if negb (truthy data) || negb (is_dict data) then Ok VNone
  else
    has_direction ← contains data (KStr direction);
    if negb has_direction then Ok VNone
    else
      channels ← getitem data (KStr direction);
      has_channel ← contains channels (KInt channel);
      if negb has_channel then Ok VNone
      else
        record ← getitem channels (KInt channel);
        has_key ← contains record (KStr key);
        if negb has_key then
          _ ← keys_of record;
          Ok VNone
        else getitem record (KStr key).

(** [try: ... except Exception: return None] *)
Definition or_None (r : result value) : value :=
  match r with
  | Ok v => v
  | Raise _ => VNone
  end.

Definition get_downstream_value (data : value) (key : string) (channel : Z)
  : value :=
  or_None (get_value_body "downstream" data key channel).

Definition get_upstream_value (data : value) (key : string) (channel : Z)
  : value :=
  or_None (get_value_body "upstream" data key channel).

(** ** The sensor entities ([sensor.py]) *)

(** [str(n)] for an integer, as [f"{n}"] formats it *)
Definition py_str_int (n : Z) : string := NilZero.string_of_int (Z.to_int n).

(** [ArrisModemSensorEntityDescription]: the key, the name, the unit and
    the accessor. The device class and the state class are left out; no
    code of the integration reads them. *)
Module Description.
Record t : Type := {
  key : string;
  name : string;
  native_unit_of_measurement : option string;
  value_fn : option (value -> string -> Z -> value)
}.
End Description.

Definition FREQUENCY_MHZ : string := "MHz".
Definition POWER_DBMV : string := "dB".
Definition SNR_DB : string := "dB".
Definition SYMBOL_RATE_KSPS : string := "Ksps".

Definition DOWNSTREAM_SENSORS : list Description.t :=
  [ {| Description.key := "frequency"; Description.name := "Frequency";
       Description.native_unit_of_measurement := Some FREQUENCY_MHZ;
       Description.value_fn := Some get_downstream_value |};
    {| Description.key := "power"; Description.name := "Power";
       Description.native_unit_of_measurement := Some POWER_DBMV;
       Description.value_fn := Some get_downstream_value |};
    {| Description.key := "snr"; Description.name := "SNR";
       Description.native_unit_of_measurement := Some SNR_DB;
       Description.value_fn := Some get_downstream_value |};
    {| Description.key := "corrected_errors";
       Description.name := "Corrected Errors";
       Description.native_unit_of_measurement := None;
       Description.value_fn := Some get_downstream_value |};
    {| Description.key := "uncorrected_errors";
       Description.name := "Uncorrected Errors";
       Description.native_unit_of_measurement := None;
       Description.value_fn := Some get_downstream_value |} ].

Definition UPSTREAM_SENSORS : list Description.t :=
  [ {| Description.key := "frequency"; Description.name := "Frequency";
       Description.native_unit_of_measurement := Some FREQUENCY_MHZ;
       Description.value_fn := Some get_upstream_value |};
    {| Description.key := "power"; Description.name := "Power";
       Description.native_unit_of_measurement := Some POWER_DBMV;
       Description.value_fn := Some get_upstream_value |};
    {| Description.key := "symbol_rate"; Description.name := "Symbol Rate";
       Description.native_unit_of_measurement := Some SYMBOL_RATE_KSPS;
       Description.value_fn := Some get_upstream_value |} ].

(** [ArrisModemSensor]: what [__init__] stores. The device information is
    left out. *)
Module Sensor.
Record t : Type := {
  entity_description : Description.t;
  _channel : Z;
  _direction : string;
  _attr_name : string;
  _attr_unique_id : string
}.
End Sensor.

(** [ArrisModemSensor(coordinator, description, channel, direction)] *)
Definition ArrisModemSensor (host : string) (description : Description.t)
    (channel : Z) (direction : string) : Sensor.t :=
  {| Sensor.entity_description := description;
     Sensor._channel := channel;
     Sensor._direction := direction;
     Sensor._attr_name :=
       direction +:+ " " +:+ Description.name description +:+ " Ch."
       +:+ py_str_int channel;
     Sensor._attr_unique_id :=
       host +:+ "_" +:+ direction +:+ "_" +:+ Description.key description
       +:+ "_" +:+ py_str_int channel |}.

(** [range(a, b)] *)
Definition range (a b : nat) : list Z := map Z.of_nat (seq a (b - a)).

(** The entities that [async_setup_entry] of [sensor.py] adds, for a
    coordinator with the given host. *)
Definition sensor_entities (host : string) : list Sensor.t :=
  flat_map
    (fun channel =>
       map (fun description =>
              ArrisModemSensor host description channel "Downstream")
         DOWNSTREAM_SENSORS)
    (range 1 33)
  ++ flat_map
       (fun channel =>
          map (fun description =>
                 ArrisModemSensor host description channel "Upstream")
            UPSTREAM_SENSORS)
       (range 1 9).

(** [ArrisModemSensor.native_value]; [data] is [coordinator.data]. *)
Definition native_value (self : Sensor.t) (data : option value) : value :=
  match data with
  | None => VNone
  | Some data =>
      match Description.value_fn (Sensor.entity_description self) with
      | None => VNone
      | Some value_fn =>
          value_fn data (Description.key (Sensor.entity_description self))
            (Sensor._channel self)
      end
  end.

(** [ArrisModemSensor.available] *)
Definition available (self : Sensor.t) (data : option value) : result bool :=
  match data with
  | None => Ok false
  | Some data =>
      let data_key :=
        if str_eqb (Sensor._direction self) "Downstream" then "downstream"
        else "upstream" in
      has_key ← contains data (KStr data_key);
      if negb has_key then Ok false
      else
        channels ← getitem data (KStr data_key);
        has_channel ← contains channels (KInt (Sensor._channel self));
        if negb has_channel then Ok false else Ok true
  end.

(** ** The model as the dictionary the sensors read

    The parsers return the dictionary that the records of [ChannelModel]
    stand for; the coordinator hands it to the sensors. The items of a
    channel are in the order of the dictionary of [_parse_mb8600_json]
    ([_parse_cgm4331com_html] sets the same keys in another order); the
    order is not read by the accessors. *)

Definition downstream_dict (c : Downstream.t) : value :=
  VDict [(KStr "channel", VInt (Downstream.channel c));
         (KStr "lock_status", VStr (Downstream.lock_status c));
         (KStr "modulation", VStr (Downstream.modulation c));
         (KStr "channel_id", VInt (Downstream.channel_id c));
         (KStr "frequency", VFloat (Downstream.frequency c));
         (KStr "power", VFloat (Downstream.power c));
         (KStr "snr", VFloat (Downstream.snr c));
         (KStr "corrected_errors", VInt (Downstream.corrected_errors c));
         (KStr "uncorrected_errors", VInt (Downstream.uncorrected_errors c))].

Definition upstream_dict (c : Upstream.t) : value :=
  VDict [(KStr "channel", VInt (Upstream.channel c));
         (KStr "lock_status", VStr (Upstream.lock_status c));
         (KStr "modulation", VStr (Upstream.modulation c));
         (KStr "channel_id", VInt (Upstream.channel_id c));
         (KStr "symbol_rate", VInt (Upstream.symbol_rate c));
         (KStr "frequency", VFloat (Upstream.frequency c));
         (KStr "power", VFloat (Upstream.power c))].

Definition channels_dict {C} (to_dict : C -> value) (channels : gmap Z C)
  : value :=
  VDict (map (fun item => (KInt (fst item), to_dict (snd item)))
           (map_to_list channels)).

Definition model_dict (model : ChannelModel) : value :=
  VDict ([(KStr "downstream", channels_dict downstream_dict (downstream model));
          (KStr "upstream", channels_dict upstream_dict (upstream model))]
         ++ match system_uptime model with
            | Some uptime => [(KStr "system_uptime", VInt uptime)]
            | None => []
            end).

(** * The vocabulary of the properties, and example inputs *)

Fixpoint all_digits (s : string) : bool :=
  match s with
  | EmptyString => true
  | String c s' => is_digit c && all_digits s'
  end.

(** The token read as the number of days at position [i]: the one before,
    and the last one when [i] is the first position. *)
Definition token_before (parts : list string) (i : nat) : option string :=
  parts !! (match i with O => length parts - 1 | S k => k end).



(** [''.join(chunks)] *)
Definition join (chunks : list string) : string :=
  fold_right String.append EmptyString chunks.

Definition example_blob : string :=
  "1^locked^QAM256^5^549.0^5.1^40.2^0^0|+|2^locked^QAM256^6^555.0^5.3^40.0^1^2".

(** A record that breaks the format of its direction: fewer fields than
    [required], or a field at one of the positions [ints] ([floats]) that
    [int()] ([float()]) refuses. *)
Definition malformed_record (required : nat) (ints floats : list nat)
    (channel_raw : string) : Prop :=
  let fields := split "^" channel_raw in
  length fields < required
  \/ (exists k f, In k ints /\ fields !! k = Some f /\ ~ is_Ok (py_int f))
  \/ (exists k f, In k floats /\ fields !! k = Some f /\ ~ is_Ok (py_float f)).

Definition malformed_downstream : string -> Prop :=
  malformed_record 9 [0; 3; 7; 8] [4; 5; 6].

Definition malformed_upstream : string -> Prop :=
  malformed_record 7 [0; 3; 4] [5; 6].

(** What the parser raises on a malformed record. *)
Definition format_error (e : exn) : Prop := e = IndexError \/ e = ValueError.

Definition keyed {C} (chan : C -> Z) (m : gmap Z C) : Prop :=
  forall k c, m !! k = Some c -> chan c = k.

Definition keyed_by_channel (model : ChannelModel) : Prop :=
  keyed Downstream.channel (downstream model)
  /\ keyed Upstream.channel (upstream model).

(** A status page: the uptime, the downstream table, the upstream table
    and the error table, with one [div] for every value. *)
Definition value_row (label : string) (values : list string) : node :=
  Tag "tr"
    (Tag "th" [Text label]
     :: map (fun v => Tag "td" [Tag "div" [Text v]]) values).

Definition example_page : list node :=
  [Tag "html" [Tag "body" [
     Tag "div" [Tag "span" [Text "System Uptime:"];
                Tag "span" [Text "1 days 02h:03m:04s"]];
     Tag "table" [Tag "tbody" [
       value_row "Channel ID" ["5"; "6"];
       value_row "Lock Status" ["Locked"; "Locked"];
       value_row "Frequency" ["549 MHz"; "555000000"];
       value_row "SNR" ["40.2 dB"; "40.0 dB"];
       value_row "Power Level" ["5.1 dBmV"; "-5.3 dBmV"];
       value_row "Modulation" ["256 QAM"; "256 QAM"]]];
     Tag "table" [Tag "tbody" [
       value_row "Channel ID" ["1"];
       value_row "Lock Status" ["Locked"];
       value_row "Frequency" ["17 MHz"];
       value_row "Symbol Rate" ["5120"];
       value_row "Power Level" ["45.0 dBmV"];
       value_row "Modulation" ["QAM"]]];
     Tag "table" [Tag "tbody" [
       value_row "Channel ID" ["5"; "6"];
       value_row "Correctable Codewords" ["10"; "20"];
       value_row "Uncorrectable Codewords" ["0"; "2"]]]]]].

Definition example_reply : value :=
  hnap_response example_blob "1^Locked^SC-QAM^1^5120^17.8^45.0|+|"
    "0 days 02h:03m:04s".



(** Three tables, the first with a row of cells and no header cell. *)
Definition headerless_page : list node :=
  [Tag "table" [Tag "tbody" [Tag "tr" [Tag "td" [Tag "div" [Text "1"]]]]];
   Tag "table" [Tag "tbody" []];
   Tag "table" [Tag "tbody" []]].

(** The uptime label with no [span] after it. *)
Definition lonely_label_page : list node :=
  [Tag "div" [Tag "span" [Text "System Uptime:"]]].

(** An error table whose [Channel ID] header has no value, followed by
    error counts given in the header cell. *)
Definition empty_ids_page : list node :=
  [Tag "table" [Tag "tbody" [value_row "Channel ID" ["5"]]];
   Tag "table" [Tag "tbody" [value_row "Channel ID" ["1"]]];
   Tag "table" [Tag "tbody" [
     Tag "tr" [Tag "th" [Text "Channel ID"]];
     Tag "tr" [Tag "th" [Text ("Correctable Codewords"
                               +:+ String "010" "1020")]]]]].

(** What an accessor for the map [direction] gives on [data], [key] and
    [channel]: [None] unless the three lookups succeed, and then the value
    stored. *)
Definition accessor_spec (direction : string) (data : value) (key : string)
    (channel : Z) (r : value) : Prop :=
  ((forall d, data <> VDict d) -> r = VNone)
  /\ (forall d, data = VDict d ->
                dict_get d (KStr direction) = None -> r = VNone)
  /\ (forall d channels,
        data = VDict d ->
        dict_get d (KStr direction) = Some (VDict channels) ->
        dict_get channels (KInt channel) = None -> r = VNone)
  /\ (forall d channels record,
        data = VDict d ->
        dict_get d (KStr direction) = Some (VDict channels) ->
        dict_get channels (KInt channel) = Some (VDict record) ->
        dict_get record (KStr key) = None -> r = VNone)
  /\ (forall d channels record v,
        data = VDict d ->
        dict_get d (KStr direction) = Some (VDict channels) ->
        dict_get channels (KInt channel) = Some (VDict record) ->
        dict_get record (KStr key) = Some v -> r = v)
  /\ (r = VNone
      \/ (channels ← getitem data (KStr direction);
          record ← getitem channels (KInt channel);
          getitem record (KStr key)) = Ok r).

(** What is left of the body once [data] is known to be a dictionary
    that has the map [direction]. *)
Definition channel_lookup (channels : value) (key : string) (channel : Z)
  : result value :=
  has_channel ← contains channels (KInt channel);
  if negb has_channel then Ok VNone
  else
    record ← getitem channels (KInt channel);
    has_key ← contains record (KStr key);
    if negb has_key then
      _ ← keys_of record;
      Ok VNone
    else getitem record (KStr key).

(** A model as the sensors receive it. *)
Definition example_data : value :=
  VDict [(KStr "downstream",
          VDict [(KInt 1, VDict [(KStr "channel", VInt 1);
                                 (KStr "lock_status", VStr "locked");
                                 (KStr "corrected_errors", VInt 7)])]);
         (KStr "upstream",
          VDict [(KInt 1, VDict [(KStr "channel", VInt 1);
                                 (KStr "symbol_rate", VInt 5120)])]);
         (KStr "system_uptime", VInt 93784)].

Fixpoint no_underscore (s : string) : bool :=
  match s with
  | EmptyString => true
  | String c s' => negb (bool_decide (c = "_"%char)) && no_underscore s'
  end.

(** What [match_number] matches: digits, or digits, a point and digits. *)
Inductive plain_number : string -> Prop :=
| plain_integer ip :
    ip <> "" -> all_digits ip = true -> plain_number ip
| plain_fraction ip fp :
    ip <> "" -> all_digits ip = true -> fp <> "" -> all_digits fp = true ->
    plain_number (ip +:+ "." +:+ fp).

(** A table none of whose rows has a header cell. *)
Definition no_header_row (table : node) : Prop :=
  Forall (fun row => find "th" (children row) = None)
    (find_all "tr" (children table)).

(** ** The forms of the uptime *)


(** ** The records of the JSON reply *)

(** The record that decides the entry [k]: a non-empty record
    that the body of the loop reads as [(k, c)], with no record for [k]
    after it. *)
Definition last_record {C} (record : string -> result (Z * C))
    (channels : list string) (k : Z) (c : C) : Prop :=
  exists i channel_raw,
    channels !! i = Some channel_raw /\ channel_raw <> ""
    /\ record channel_raw = Ok (k, c)
    /\ forall j later c',
         i < j -> channels !! j = Some later -> later <> "" ->
         record later <> Ok (k, c').

Definition ds_path (data : value) : result value :=
  path3 data "GetMultipleHNAPsResponse"
    "GetMotoStatusDownstreamChannelInfoResponse" "MotoConnDownstreamChannel".

Definition us_path (data : value) : result value :=
  path3 data "GetMultipleHNAPsResponse"
    "GetMotoStatusUpstreamChannelInfoResponse" "MotoConnUpstreamChannel".

Definition uptime_path (data : value) : result value :=
  path3 data "GetMultipleHNAPsResponse"
    "GetMotoStatusConnectionInfoResponse" "MotoConnSystemUpTime".

Definition well_formed (malformed : string -> Prop) (blob : string) : Prop :=
  Forall (fun channel_raw => channel_raw = "" \/ ~ malformed channel_raw)
    (split "|+|" blob).

(** Two records for the channel 1. *)
Definition duplicate_blob : string :=
  "1^first^QAM256^5^549.0^5.1^40.2^0^0|+|1^second^QAM256^6^555.0^5.3^40.0^1^2".

(** ** The rows of the tables, channel by channel *)

(** The rows of a channel table and of the error table, by header. *)
Definition table_rows (table : node) : result (list (string * list string)) :=
  gather_rows (fun _ => channel_row_values) [] (find_all "tr" (children table)).

Definition error_rows (table : node) : result (list (string * list string)) :=
  gather_rows error_row_values [] (find_all "tr" (children table)).

Definition longest_row (data : list (string * list string)) : nat :=
  fold_right Nat.max 0 (map (fun item => length (snd item)) data).

(** The number of channels of a table: the length of its longest row when
    it has a [Channel ID] row with a value, none otherwise. *)
Definition channel_count (data : list (string * list string)) : nat :=
  match dict_get data "Channel ID" with
  | Some (_ :: _) => longest_row data
  | _ => 0
  end.

(** The value of [values] for the channel [k], when the first value of
    the list is for the position [i]. *)
Definition value_at (values : list string) (i : nat) (k : Z) : option string :=
  if (Z.of_nat i + 1 <=? k)%Z then values !! (Z.to_nat (k - 1) - i) else None.

(** The value for the channel [k] in the row [header]. *)
Definition cell (data : list (string * list string)) (header : string)
    (k : Z) : option string :=
  values ← dict_get data header; value_at values 0 k.

(** The integer [text] stands for, [d] without a text that [int()] accepts. *)
Definition int_or (text : option string) (d : Z) : Z :=
  match text with
  | Some t => match py_int t with Ok n => n | Raise _ => d end
  | None => d
  end.

(** The number at the start of [text] according to [pattern], [d] when
    there is none. *)
Definition number_or (pattern : string -> option (string * string))
    (text : option string) (d : spec_float) : spec_float :=
  match text with
  | Some value =>
      match pattern value with
      | Some (number, _) =>
          match py_float number with Ok f => f | Raise _ => d end
      | None => d
      end
  | None => d
  end.

(** The integer of the digits at the start of [text], [d] when there is
    no digit. *)
Definition digits_or (text : option string) (d : Z) : Z :=
  match text with
  | Some value =>
      match match_digits value with
      | Some (number, _) => int_or (Some number) d
      | None => d
      end
  | None => d
  end.

Definition frequency_or (text : option string) (d : spec_float) : spec_float :=
  match text with
  | Some value =>
      match frequency_of value with Ok (Some f) => f | _ => d end
  | None => d
  end.

(** The downstream entry [k] as the rows [data] of the table give it. *)
Definition downstream_of_rows (data : list (string * list string)) (k : Z)
  : Downstream.t :=
  {| Downstream.channel := k;
     Downstream.lock_status := default "" (cell data "Lock Status" k);
     Downstream.modulation := default "" (cell data "Modulation" k);
     Downstream.channel_id := int_or (cell data "Channel ID" k) k;
     Downstream.frequency :=
       frequency_or (cell data "Frequency" k) (S754_zero false);
     Downstream.power :=
       number_or match_signed_number (cell data "Power Level" k)
         (S754_zero false);
     Downstream.snr :=
       number_or match_number (cell data "SNR" k) (S754_zero false);
     Downstream.corrected_errors := 0;
     Downstream.uncorrected_errors := 0 |}.

Definition upstream_of_rows (data : list (string * list string)) (k : Z)
  : Upstream.t :=
  {| Upstream.channel := k;
     Upstream.lock_status := default "" (cell data "Lock Status" k);
     Upstream.modulation := default "" (cell data "Modulation" k);
     Upstream.channel_id := int_or (cell data "Channel ID" k) k;
     Upstream.symbol_rate := digits_or (cell data "Symbol Rate" k) 0;
     Upstream.frequency :=
       frequency_or (cell data "Frequency" k) (S754_zero false);
     Upstream.power :=
       number_or match_signed_number (cell data "Power Level" k)
         (S754_zero false) |}.

(** The error counts of the rows [errors] of the error table, put into the
    entry [c] of the channel [k]. *)
Definition with_error_counts (errors : list (string * list string)) (k : Z)
    (c : Downstream.t) : Downstream.t :=
  match dict_get errors "Channel ID",
        dict_get errors "Correctable Codewords",
        dict_get errors "Uncorrectable Codewords" with
  | Some channel_ids, Some correctable, Some uncorrectable =>
      if (1 <=? k)%Z && (k <=? Z.of_nat (length channel_ids))%Z then
        Downstream.set_uncorrected_errors
          (int_or (value_at uncorrectable 0 k) (Downstream.uncorrected_errors c))
          (Downstream.set_corrected_errors
             (int_or (value_at correctable 0 k) (Downstream.corrected_errors c))
             c)
      else c
  | _, _, _ => c
  end.

(** What a value of the row [header] makes of an entry. *)
Definition apply_value {C} (set_value : string -> string -> C -> result C)
    (header : string) (value : option string) (c : C) : C :=
  match value with
  | Some v => match set_value header v c with Ok c' => c' | Raise _ => c end
  | None => c
  end.

(** The values of all rows for the channel [k], put into the entry [c]
    row by row. *)
Definition entry_of_rows {C} (set_value : string -> string -> C -> result C)
    (items : list (string * list string)) (k : Z) (c : C) : C :=
  fold_left
    (fun c item =>
       if str_eqb (fst item) "Channel ID" then c
       else apply_value set_value (fst item) (value_at (snd item) 0 k) c)
    items c.

(** Three tables: two downstream channels, one upstream channel, and the
    error counts of the downstream channels. *)
Definition ds_table : node :=
  Tag "tbody" [
    value_row "Channel ID" ["5"; "six"];
    value_row "Lock Status" ["Locked"; "Not locked"];
    value_row "Frequency" ["549 MHz"; "555000000"; "561 MHz"];
    value_row "SNR" ["40.2 dB"; "n/a"]].

Definition us_table : node :=
  Tag "tbody" [
    value_row "Channel ID" ["1"];
    value_row "Symbol Rate" ["5120"];
    value_row "Power Level" ["45.0 dBmV"]].

Definition err_table : node :=
  Tag "tbody" [
    value_row "Channel ID" ["5"; "6"];
    value_row "Correctable Codewords" ["10"; "20"];
    value_row "Uncorrectable Codewords" ["0"]].

Definition three_tables_page : list node :=
  [Tag "table" [ds_table]; Tag "table" [us_table]; Tag "table" [err_table]].

(** ** The requests of an update *)

(** The protocol of the requests. *)
Definition protocol_of (use_ssl : bool) : string :=
  if use_ssl then "https" else "http".

(** The login request of a coordinator. *)
Definition login_of (self : Coordinator.t) : request :=
  login_request (protocol_of (Coordinator.use_ssl self))
    (Coordinator.host self) (Coordinator.username self)
    (Coordinator.password self).

(** The outcome of an update whose requests were answered: what the
    parser returned, or [UpdateFailed] when the parser raised. *)
Definition parsed (r : result ChannelModel) : outcome ChannelModel :=
  match r with
  | Ok result => Done result
  | Raise _ => Failed (Py UpdateFailed)
  end.

(** A modem that answers the three requests: the channel strings of the
    MB8600, a redirect with a cookie for the login, and a page. *)
Definition example_env : environment :=
  {| respond := fun log r =>
       match req_method r with
       | GET =>
           inr {| Response.status := 200; Response.cookies := [];
                  Response.json := inl LibraryValueError;
                  Response.text := inr "page" |}
       | POST =>
           if String.prefix "http://modem/HNAP1" (req_url r) then
             inr {| Response.status := 200; Response.cookies := [];
                    Response.json := inr example_reply;
                    Response.text := inr "" |}
           else
             inr {| Response.status := 302; Response.cookies := [("session", "1")];
                    Response.json := inl LibraryValueError;
                    Response.text := inr "" |}
       end;
     BeautifulSoup := fun _ => example_page |}.

(** A modem that answers every request with the status 200 and no
    cookie. *)
Definition rejecting_env : environment :=
  {| respond := fun _ _ =>
       inr {| Response.status := 200; Response.cookies := [];
              Response.json := inl LibraryValueError;
              Response.text := inr "wrong password" |};
     BeautifulSoup := fun _ => [] |}.

Definition example_input (model : string) (username : option string)
  : UserInput.t :=
  {| UserInput.host := "modem";
     UserInput.model := model;
     UserInput.username := username;
     UserInput.password := Some "secret";
     UserInput.ssl := Some false;
     UserInput.scan_interval := None |}.

(** ** The entities *)

(** Whether the model has the channel in the map of a direction. *)
Definition has_channel (model : ChannelModel) (direction : string)
    (channel : Z) : bool :=
  if str_eqb direction "Downstream"
  then bool_decide (is_Some (downstream model !! channel))
  else bool_decide (is_Some (upstream model !! channel)).


(** An entity of the first downstream channel. *)
Definition example_sensor : Sensor.t :=
  ArrisModemSensor "modem"
    {| Description.key := "corrected_errors";
       Description.name := "Corrected Errors";
       Description.native_unit_of_measurement := None;
       Description.value_fn := Some get_downstream_value |}
    1 "Downstream".

(** A model with one downstream channel. *)
Definition one_channel_model : ChannelModel :=
  {| downstream := {[1%Z := new_downstream 1 5]};
     upstream := ∅;
     system_uptime := None |}.

(** * Properties *)

(** ** The result monad *)

Lemma bind_Ok {A B} (r : result A) (f : A -> result B) (b : B) :
  r ≫= f = Ok b <-> exists a, r = Ok a /\ f a = Ok b.
Proof.
  destruct r as [a|e]; simpl; split.
  - intros H. exists a. split; [reflexivity | exact H].
  - intros (a' & Ha & Hf). injection Ha as ->. exact Hf.
  - discriminate.
  - intros (a' & Ha & _). discriminate.
Qed.

Lemma bind_Raise {A B} (r : result A) (f : A -> result B) (e : exn) :
  r ≫= f = Raise e <-> r = Raise e \/ exists a, r = Ok a /\ f a = Raise e.
Proof.
  destruct r as [a|e']; simpl; split.
  - intros H. right. exists a. split; [reflexivity | exact H].
  - intros [H | (a' & Ha & Hf)]; [discriminate | ]. injection Ha as ->. exact Hf.
  - intros H. left. congruence.
  - intros [H | (a' & Ha & _)]; [congruence | discriminate].
Qed.

Lemma is_Ok_Ok {A} (a : A) : is_Ok (Ok a).
Proof. exists a. reflexivity. Qed.

Lemma not_is_Ok_Raise {A} (e : exn) : ~ is_Ok (@Raise A e).
Proof. intros [a H]. discriminate. Qed.

Lemma is_Ok_bind {A B} (r : result A) (f : A -> result B) :
  is_Ok (r ≫= f) <-> exists a, r = Ok a /\ is_Ok (f a).
Proof.
  split.
  - intros [b H]. apply bind_Ok in H as (a & Ha & Hf). exists a.
    split; [exact Ha | exists b; exact Hf].
  - intros (a & Ha & [b Hf]). exists b. apply bind_Ok. exists a. auto.
Qed.

(** ** Characters and strings *)

Lemma digit_not_num_space (c : ascii) :
  is_digit c = true -> is_num_space c = false.
Proof.
  destruct c as [[] [] [] [] [] [] [] []]; vm_compute; congruence.
Qed.

Lemma digit_not_sign (c : ascii) (s : string) :
  is_digit c = true -> split_sign (String c s) = (false, String c s).
Proof.
  destruct c as [[] [] [] [] [] [] [] []]; vm_compute; congruence.
Qed.

Lemma digit_not_underscore (c : ascii) :
  is_digit c = true -> c <> "_"%char.
Proof.
  destruct c as [[] [] [] [] [] [] [] []]; vm_compute; congruence.
Qed.

Lemma span_digits_all_digits (s d r : string) :
  span_digits s = (d, r) -> all_digits d = true.
Proof.
  revert d r. induction s as [|c s IH]; simpl; intros d r H.
  - injection H as <- <-. reflexivity.
  - destruct (is_digit c) eqn:Hc.
    + destruct (span_digits s) as [d' r'] eqn:Hs.
      injection H as <- <-. simpl. rewrite Hc. simpl. eapply IH. reflexivity.
    + injection H as <- <-. reflexivity.
Qed.

Lemma match_digits_Some (s d r : string) :
  match_digits s = Some (d, r) -> d <> "" /\ all_digits d = true.
Proof.
  unfold match_digits. destruct (span_digits s) as [d' r'] eqn:Hs.
  unfold str_eqb. case_bool_decide as Hd; [discriminate|].
  intros H. injection H as <- <-. split; [exact Hd|].
  eapply span_digits_all_digits. exact Hs.
Qed.

Lemma rstrip_all_digits (s : string) :
  all_digits s = true -> rstrip is_num_space s = s.
Proof.
  induction s as [|c s IH]; simpl; [reflexivity|].
  intros H. apply andb_true_iff in H as [Hc Hs].
  rewrite (IH Hs). destruct s; [|reflexivity].
  rewrite (digit_not_num_space c Hc). reflexivity.
Qed.

Lemma digitpart_all_digits (s : string) (b : bool) (acc : Z) :
  all_digits s = true -> s <> "" ->
  digitpart b acc s = Some (digits_value acc s).
Proof.
  revert b acc. induction s as [|c s IH]; intros b acc H Hne; [congruence|].
  simpl in *. apply andb_true_iff in H as [Hc Hs]. rewrite Hc.
  destruct s as [|c' s']; [reflexivity|].
  apply IH; [exact Hs | discriminate].
Qed.

(** [int()] accepts every non-empty run of digits. *)
Lemma py_int_all_digits (s : string) :
  all_digits s = true -> s <> "" -> py_int s = Ok (digits_value 0 s).
Proof.
  intros H Hne. unfold py_int.
  destruct s as [|c s]; [congruence|].
  pose proof H as H'. simpl in H'. apply andb_true_iff in H' as [Hc Hs].
  replace (lstrip is_num_space (String c s)) with (String c s)
    by (simpl; rewrite (digit_not_num_space c Hc); reflexivity).
  rewrite (rstrip_all_digits _ H), (digit_not_sign c s Hc).
  rewrite (digitpart_all_digits _ false 0%Z H Hne). reflexivity.
Qed.

(** [int()] raises nothing but [ValueError]. *)
Lemma py_int_raises (s : string) (e : exn) :
  py_int s = Raise e -> e = ValueError.
Proof.
  unfold py_int. destruct (split_sign _) as [neg digits].
  destruct (digitpart _ _ _); [discriminate|]. congruence.
Qed.

(** [float()] raises nothing but [ValueError]. *)
Lemma py_float_raises (s : string) (e : exn) :
  py_float s = Raise e -> e = ValueError.
Proof.
  unfold py_float. destruct (drop_underscores _ _) as [t|]; [|congruence].
  destruct (split_sign t) as [neg r].
  repeat match goal with |- context [if ?b then _ else _] => destruct b end;
    try discriminate.
  destruct (decimal_literal r) as [[m k]|]; [discriminate | congruence].
Qed.

Lemma length_list_ascii (s : string) :
  length (list_ascii_of_string s) = String.length s.
Proof. induction s as [|c s IH]; simpl; [reflexivity | rewrite IH; reflexivity]. Qed.

Lemma list_ascii_app (a b : string) :
  list_ascii_of_string (a +:+ b)
  = list_ascii_of_string a ++ list_ascii_of_string b.
Proof. induction a as [|c a IH]; simpl; [reflexivity | rewrite IH; reflexivity]. Qed.

Lemma list_ascii_inj (a b : string) :
  list_ascii_of_string a = list_ascii_of_string b -> a = b.
Proof.
  intros H. rewrite <- (string_of_list_ascii_of_string a),
    <- (string_of_list_ascii_of_string b), H. reflexivity.
Qed.

Lemma list_ascii_substring (s : string) : forall i m,
  list_ascii_of_string (substring i m s)
  = take m (drop i (list_ascii_of_string s)).
Proof.
  induction s as [|c s IH]; intros i m.
  - destruct i, m; reflexivity.
  - destruct i as [|i]; simpl.
    + destruct m as [|m]; simpl; [reflexivity|]. rewrite IH. reflexivity.
    + apply IH.
Qed.

Lemma append_cons c a b : String c a +:+ b = String c (a +:+ b).
Proof. reflexivity. Qed.

Lemma append_nil b : "" +:+ b = b.
Proof. reflexivity. Qed.

Lemma append_nil_r a : a +:+ "" = a.
Proof.
  induction a as [|c a IH]; [reflexivity|]. rewrite append_cons, IH.
  reflexivity.
Qed.

Lemma all_digits_app a b :
  all_digits (a +:+ b) = all_digits a && all_digits b.
Proof.
  induction a as [|c a IH]; [reflexivity|].
  rewrite append_cons. simpl. rewrite IH, andb_assoc. reflexivity.
Qed.

Lemma all_digits_snoc cur c :
  all_digits cur = true -> is_digit c = true ->
  all_digits (snoc_str cur c) = true.
Proof.
  intros Hcur Hc. unfold snoc_str. rewrite all_digits_app, Hcur. simpl.
  rewrite Hc. reflexivity.
Qed.

Lemma all_digits_substring s : forall i m,
  all_digits s = true -> all_digits (substring i m s) = true.
Proof.
  induction s as [|c s IH]; intros i m Hs.
  - destruct i, m; reflexivity.
  - simpl in Hs. apply andb_true_iff in Hs as [Hc Hs].
    destruct i as [|i]; simpl.
    + destruct m as [|m]; simpl; [reflexivity|]. rewrite Hc. apply IH, Hs.
    + apply IH, Hs.
Qed.

Lemma length_substring s i m :
  i + m <= String.length s -> String.length (substring i m s) = m.
Proof.
  intros H. rewrite <- length_list_ascii, list_ascii_substring, length_take,
    length_drop, length_list_ascii. lia.
Qed.

(** ** [parse_uptime] *)

Lemma index_before_token (parts : list string) (i : nat) (part : string) :
  parts !! i = Some part ->
  exists p, token_before parts i = Some p /\ index_before parts i = Ok p.
Proof.
  intros H. apply lookup_lt_Some in H.
  unfold index_before, token_before.
  destruct (parts !! _) as [p|] eqn:Hp.
  - exists p. split; reflexivity.
  - apply lookup_ge_None in Hp. destruct i; lia.
Qed.


Lemma uptime_token_raises parts st i part e :
  parts !! i = Some part ->
  uptime_token parts st i part = Raise e -> e = ValueError.
Proof.
  intros Hi. destruct (index_before_token parts i part Hi) as (p & _ & Hix).
  unfold uptime_token.
  repeat match goal with |- context [if ?b then _ else _] => destruct b end;
    rewrite ?Hix; simpl;
    try match goal with
        | |- context [py_int ?s] =>
            destruct (py_int s) as [n|e'] eqn:Hn; simpl;
            [discriminate | apply py_int_raises in Hn as ->; congruence]
        end.
  discriminate.
Qed.

Lemma drop_cons_next {A} (l : list A) (i : nat) (x : A) (t : list A) :
  drop i l = x :: t -> l !! i = Some x /\ drop (S i) l = t.
Proof.
  intros H. split.
  - rewrite <- (Nat.add_0_r i), <- lookup_drop, H. reflexivity.
  - replace (S i) with (i + 1) by lia. rewrite <- drop_drop, H. reflexivity.
Qed.


Lemma uptime_loop_raises parts todo e : forall st i,
  drop i parts = todo ->
  uptime_loop parts st i todo = Raise e -> e = ValueError.
Proof.
  induction todo as [|part todo IH]; intros st i Hdrop; simpl; [discriminate|].
  destruct (drop_cons_next _ _ _ _ Hdrop) as [Hi Hdrop'].
  intros H. apply bind_Raise in H as [H | (st' & _ & H)].
  - eapply uptime_token_raises; eassumption.
  - apply (IH st' (S i) Hdrop' H).
Qed.


(** The four groups of the strict pattern are numbers [int()] accepts. *)
Lemma match_uptime_groups text d h m s :
  match_uptime text = Some (d, h, m, s) ->
  is_Ok (py_int d) /\ is_Ok (py_int h) /\ is_Ok (py_int m)
  /\ is_Ok (py_int s).
Proof.
  unfold match_uptime. intros H.
  destruct (match_digits text) as [[d' r1]|] eqn:H1; simpl in H; [|discriminate].
  destruct (match_lit " days " r1) as [r2|]; simpl in H; [|discriminate].
  destruct (match_digits r2) as [[h' r3]|] eqn:H2; simpl in H; [|discriminate].
  destruct (match_lit "h:" r3) as [r4|]; simpl in H; [|discriminate].
  destruct (match_digits r4) as [[m' r5]|] eqn:H3; simpl in H; [|discriminate].
  destruct (match_lit "m:" r5) as [r6|]; simpl in H; [|discriminate].
  destruct (match_digits r6) as [[s' r7]|] eqn:H4; simpl in H; [|discriminate].
  destruct (match_lit "s" r7) as [r8|]; simpl in H; [|discriminate].
  injection H as <- <- <- <-.
  apply match_digits_Some in H1 as [? ?], H2 as [? ?], H3 as [? ?], H4 as [? ?].
  repeat split; eexists; apply py_int_all_digits; assumption.
Qed.

(** [parse_uptime] raises nothing but [ValueError]. *)
Lemma parse_uptime_raises text e :
  parse_uptime text = Raise e -> e = ValueError.
Proof.
  unfold parse_uptime.
  destruct (match_uptime text) as [[[[d h] m] s]|] eqn:Hm.
  - destruct (match_uptime_groups _ _ _ _ _ Hm)
      as ([nd Hd] & [nh Hh] & [nm Hmi] & [ns Hs]).
    rewrite Hd, Hh, Hmi, Hs. discriminate.
  - intros H. apply bind_Raise in H as [H | (st & _ & H)]; [|discriminate].
    eapply uptime_loop_raises; [|exact H]. reflexivity.
Qed.




(** The loose form and a text with no number, as the specification gives
    them. *)
Lemma parse_uptime_loose_examples :
  parse_uptime "3 days 4h 5m 6s" = Ok (3 * 86400 + 4 * 3600 + 5 * 60 + 6)%Z
  /\ (3 * 86400 + 4 * 3600 + 5 * 60 + 6 = 273906)%Z
  /\ parse_uptime "nonsense" = Ok 0%Z.
Proof. repeat split; reflexivity. Qed.

(** ** The strict uptime example *)

(** C8, as the claim states it, fails: the result is not 97384. *)
Lemma parse_uptime_strict_not_97384 :
  parse_uptime "1 days 02h:03m:04s" <> Ok 97384%Z.
Proof. vm_compute. discriminate. Qed.

(** C8 (amended). [parse_uptime("1 days 02h:03m:04s")] is
    1*86400 + 2*3600 + 3*60 + 4, and that sum is 93784. *)
Theorem parse_uptime_strict_example :
  parse_uptime "1 days 02h:03m:04s" = Ok (1 * 86400 + 2 * 3600 + 3 * 60 + 4)%Z
  /\ (1 * 86400 + 2 * 3600 + 3 * 60 + 4 = 93784)%Z.
Proof. split; reflexivity. Qed.

(** ** The digit-splitting heuristic *)

Lemma split_giant_loop_step fuel giant_id i values :
  split_giant_loop (S fuel) giant_id i values =
  if (i <? String.length giant_id)%nat then
    two ←
      (if (i + 2 <? String.length giant_id)%nat then
         n ← py_int (slice giant_id i (i + 3));
         Ok (n <? 100)%Z
       else Ok false);
    if (two : bool) then
      split_giant_loop fuel giant_id (i + 2)
        (values ++ [slice giant_id i (i + 2)])
    else
      split_giant_loop fuel giant_id (i + 1)
        (values ++ [slice giant_id i (i + 1)])
  else Ok values.
Proof. reflexivity. Qed.

(** The loop is over once [i] has reached the end: fuel beyond the
    distance to the end changes nothing. *)
Lemma split_giant_loop_fuel giant_id : forall fuel i values,
  String.length giant_id - i <= fuel ->
  split_giant_loop (S fuel) giant_id i values
  = split_giant_loop fuel giant_id i values.
Proof.
  induction fuel as [|fuel IH]; intros i values Hle.
  - rewrite split_giant_loop_step.
    destruct (i <? String.length giant_id)%nat eqn:Hi; [|reflexivity].
    apply Nat.ltb_lt in Hi. lia.
  - rewrite (split_giant_loop_step (S fuel) giant_id i values),
      (split_giant_loop_step fuel giant_id i values).
    destruct (i <? String.length giant_id)%nat eqn:Hi; [|reflexivity].
    apply Nat.ltb_lt in Hi.
    destruct (if (i + 2 <? String.length giant_id)%nat
              then n ← py_int (slice giant_id i (i + 3)); Ok (n <? 100)%Z
              else Ok false) as [[|]|e]; simpl;
      [apply IH; lia | apply IH; lia | reflexivity].
Qed.

(** [split_giant_id] runs the loop to its end: more fuel than the length
    of the run gives the same list. *)
Lemma split_giant_id_enough_fuel giant_id extra :
  split_giant_loop (String.length giant_id + extra) giant_id 0 []
  = split_giant_id giant_id.
Proof.
  unfold split_giant_id. induction extra as [|extra IH].
  - rewrite Nat.add_0_r. reflexivity.
  - rewrite Nat.add_succ_r, split_giant_loop_fuel by lia. exact IH.
Qed.

(** C3, as the claim states it, fails: the run [123456] is not cut into
    [12], [34], [56]. *)
Lemma split_123456_not_pairs :
  split_giant_id "123456" <> Ok ["12"; "34"; "56"]
  /\ channel_ids_of_text "123456" <> Ok ["12"; "34"; "56"].
Proof. split; vm_compute; discriminate. Qed.

(** C3 (amended). The fallback on the single run [123456] gives the six
    digits one by one: no window of three digits reads as a number below
    100. Two digits are taken where the window starts with a zero, as in
    [010203]. *)
Theorem split_123456_digits :
  channel_ids_of_text "123456" = Ok ["1"; "2"; "3"; "4"; "5"; "6"]
  /\ split_giant_id "123456" = Ok ["1"; "2"; "3"; "4"; "5"; "6"]
  /\ split_giant_id "010203" = Ok ["01"; "02"; "0"; "3"].
Proof. repeat split; reflexivity. Qed.

(** ** Where the heuristic takes two digits *)

Lemma digit_value_range c :
  is_digit c = true ->
  (0 <= digit_value c <= 9)%Z /\ (digit_value c = 0%Z <-> c = "0"%char).
Proof.
  destruct c as [[] [] [] [] [] [] [] []]; vm_compute; intros H;
    try discriminate H; (split; [split; discriminate | split; congruence]).
Qed.

Lemma substring_window s : forall i,
  i + 3 <= String.length s ->
  exists c1 c2 c3,
    substring i 3 s = String c1 (String c2 (String c3 EmptyString))
    /\ String.get i s = Some c1.
Proof.
  induction s as [|c s IH]; intros i Hi; simpl in Hi; [lia|].
  destruct i as [|i].
  - destruct s as [|c2 [|c3 s]]; simpl in Hi; try lia.
    exists c, c2, c3. split; [|reflexivity]. simpl. destruct s; reflexivity.
  - simpl. apply IH. lia.
Qed.

(** In the loop, the window of three digits at [i] reads as a number
    below 100 exactly when the digit at [i] is a zero. *)
Lemma window_below_100 giant_id i :
  all_digits giant_id = true -> i + 2 < String.length giant_id ->
  exists n,
    py_int (slice giant_id i (i + 3)) = Ok n
    /\ ((n <? 100)%Z = true <-> String.get i giant_id = Some "0"%char).
Proof.
  intros Hd Hi. unfold slice. replace (i + 3 - i) with 3 by lia.
  pose proof (all_digits_substring giant_id i 3 Hd) as Hw.
  destruct (substring_window giant_id i ltac:(lia)) as (c1 & c2 & c3 & Hs & Hg).
  rewrite Hs in Hw |- *. rewrite Hg.
  rewrite py_int_all_digits by (exact Hw || discriminate).
  simpl in Hw. rewrite andb_true_r in Hw.
  apply andb_true_iff in Hw as [H1 Hw]. apply andb_true_iff in Hw as [H2 H3].
  destruct (digit_value_range c1 H1) as [R1 Z1].
  destruct (digit_value_range c2 H2) as [R2 _].
  destruct (digit_value_range c3 H3) as [R3 _].
  eexists. split; [reflexivity|]. simpl digits_value.
  rewrite Z.ltb_lt. split.
  - intros Hlt. f_equal. apply Z1. lia.
  - intros Heq. injection Heq as Heq. apply Z1 in Heq. lia.
Qed.

Lemma window_below_100_witness :
  exists n,
    py_int (slice "010203" 0 (0 + 3)) = Ok n
    /\ ((n <? 100)%Z = true <-> String.get 0 "010203" = Some "0"%char).
Proof. apply (window_below_100 "010203" 0); [reflexivity | simpl; lia]. Defined.

(** The fallback on a header cell that holds the run [123456]. *)
Example channel_id_row_123456 :
  let th := Tag "th" [Text ("Channel ID" +:+ String "010" "123456")] in
  channel_row_values (Tag "tr" [th]) th (header_of th)
  = Ok ["1"; "2"; "3"; "4"; "5"; "6"].
Proof. reflexivity. Qed.

(** ** The chunks of the error counts *)

Lemma list_ascii_join (chunks : list string) :
  list_ascii_of_string (join chunks)
  = concat (map list_ascii_of_string chunks).
Proof.
  induction chunks as [|a l IH]; simpl; [reflexivity|].
  rewrite <- IH. apply list_ascii_app.
Qed.

(** The piece cut at [i] is the [chunk_size] characters from [i], fewer
    at the end of the string. *)
Lemma slice_chunk (s : string) (i chunk_size : nat) :
  slice s i (Nat.min (i + chunk_size) (String.length s))
  = substring i chunk_size s.
Proof.
  apply list_ascii_inj. unfold slice. rewrite !list_ascii_substring.
  pose proof (length_list_ascii s) as Hlen.
  destruct (Nat.le_gt_cases (i + chunk_size) (String.length s)) as [H|H].
  - rewrite Nat.min_l by exact H. f_equal. lia.
  - rewrite Nat.min_r by lia.
    rewrite !take_ge; [reflexivity | |]; rewrite length_drop; lia.
Qed.

(** Pieces of [c] characters cut one after the other are a prefix. *)
Lemma concat_chunks {A} (l : list A) (c : nat) : forall m j,
  concat (map (fun k => take c (drop (k * c) l)) (seq j m))
  = take (m * c) (drop (j * c) l).
Proof.
  induction m as [|m IH]; intros j; simpl; [reflexivity|].
  rewrite IH. replace (S j * c) with (j * c + c) by lia.
  rewrite <- drop_drop. apply take_take_drop.
Qed.

Lemma range_step_lookup (stop step k : nat) :
  k < (stop + step - 1) / step ->
  range_step stop step !! k = Some (k * step).
Proof.
  intros H. unfold range_step. rewrite list_lookup_fmap.
  rewrite lookup_seq_lt by exact H. reflexivity.
Qed.

(** The number of pieces, against the number of channels. *)
Lemma chunk_count (L n : nat) :
  0 < n -> n <= L ->
  let c := L / n in
  0 < c /\ n <= (L + c - 1) / c
  /\ ((L + c - 1) / c = n <-> L mod n = 0).
Proof.
  intros Hn HL c.
  assert (Hc : 0 < c).
  { apply Nat.div_str_pos. lia. }
  pose proof (Nat.div_mod_eq L n) as Hdiv. fold c in Hdiv.
  pose proof (Nat.mod_upper_bound L n ltac:(lia)) as Hmod.
  split; [exact Hc|].
  destruct (Nat.eq_dec (L mod n) 0) as [Hz|Hnz].
  - assert (HL' : L + c - 1 = n * c + (c - 1)) by nia.
    assert (Hq : (L + c - 1) / c = n).
    { rewrite HL', Nat.div_add_l by lia.
      rewrite Nat.div_small by lia. lia. }
    rewrite Hq. split; [lia | tauto].
  - assert (Hq : S n <= (L + c - 1) / c).
    { apply Nat.div_le_lower_bound; [lia | nia]. }
    split; [lia | split; lia].
Qed.

(** C4, as the claim states it, fails: with three channel ids and ten
    digits there are four pieces, and the digit that is left over is one
    of them. *)
Lemma codeword_values_extra_chunk :
  codeword_values [("Channel ID", ["1"; "2"; "3"])] "1234567890"
  = Ok ["123"; "456"; "789"; "0"]
  /\ length ["123"; "456"; "789"; "0"] <> length ["1"; "2"; "3"]
  /\ In "0" ["123"; "456"; "789"; "0"].
Proof.
  split; [reflexivity|]. split; [discriminate|]. simpl. tauto.
Qed.

(** C4 (amended). With a [Channel ID] row of [n >= 1] ids read before and
    at least [n] digits in the text, the digits are cut at every multiple
    of [chunk_size], the number of digits divided by [n]: the first [n]
    pieces have exactly [chunk_size] digits each, and the digits that are
    left over are not dropped but follow as further pieces, so that the
    pieces joined give all the digits back; there are [n] pieces exactly
    when [n] divides the number of digits. *)
Theorem codeword_values_chunks
    (error_data : list (string * list string)) (channel_ids : list string)
    (value_text : string) :
  dict_get error_data "Channel ID" = Some channel_ids ->
  let big_value := only_digits value_text in
  let n := length channel_ids in
  let chunk_size := String.length big_value / n in
  0 < n -> n <= String.length big_value ->
  exists chunks,
    codeword_values error_data value_text = Ok chunks
    /\ (forall k, k < n ->
          chunks !! k = Some (substring (k * chunk_size) chunk_size big_value)
          /\ String.length (substring (k * chunk_size) chunk_size big_value)
             = chunk_size)
    /\ join chunks = big_value
    /\ n <= length chunks
    /\ (length chunks = n <-> String.length big_value mod n = 0).
Proof.
  intros Hids big_value n chunk_size Hn HL.
  destruct (chunk_count (String.length big_value) n Hn HL)
    as (Hc & Hle & Hiff). fold chunk_size in Hc, Hle, Hiff.
  set (count := (String.length big_value + chunk_size - 1) / chunk_size) in *.
  exists (map (fun i => substring i chunk_size big_value)
              (range_step (String.length big_value) chunk_size)).
  assert (Hlen : length (map (fun i => substring i chunk_size big_value)
                   (range_step (String.length big_value) chunk_size)) = count).
  { unfold range_step. rewrite !length_map, length_seq. reflexivity. }
  split; [|split; [|split; [|split]]].
  - unfold codeword_values. rewrite Hids. fold big_value n.
    unfold floordiv. destruct (n =? 0)%nat eqn:Hn0;
      [apply Nat.eqb_eq in Hn0; lia|].
    simpl. fold chunk_size.
    destruct (0 <? chunk_size)%nat eqn:Hc0;
      [|apply Nat.ltb_ge in Hc0; lia].
    f_equal. apply map_ext. intros i. apply slice_chunk.
  - intros k Hk. split.
    + rewrite list_lookup_fmap, range_step_lookup by (fold count; lia).
      reflexivity.
    + rewrite <- length_list_ascii, list_ascii_substring, length_take,
        length_drop, length_list_ascii.
      assert (k * chunk_size + chunk_size <= String.length big_value).
      { pose proof (Nat.div_mod_eq (String.length big_value) n) as Hdiv.
        fold chunk_size in Hdiv. nia. }
      lia.
  - apply list_ascii_inj. rewrite list_ascii_join.
    unfold range_step. rewrite !map_map.
    rewrite (map_ext _ (fun k => take chunk_size
                          (drop (k * chunk_size)
                             (list_ascii_of_string big_value))))
      by (intros k; apply list_ascii_substring).
    rewrite concat_chunks. simpl. rewrite drop_0.
    apply take_ge. rewrite length_list_ascii. fold count.
    pose proof (Nat.div_mod_eq (String.length big_value + chunk_size - 1)
                  chunk_size) as Hdiv. fold count in Hdiv.
    pose proof (Nat.mod_upper_bound (String.length big_value + chunk_size - 1)
                  chunk_size ltac:(lia)) as Hmod.
    nia.
  - rewrite Hlen. exact Hle.
  - rewrite Hlen. exact Hiff.
Qed.

Lemma codeword_values_chunks_witness :
  exists chunks,
    codeword_values [("Channel ID", ["1"; "2"; "3"])] "1234567890" = Ok chunks
    /\ join chunks = "1234567890"
    /\ 3 <= length chunks.
Proof.
  destruct (codeword_values_chunks [("Channel ID", ["1"; "2"; "3"])]
              ["1"; "2"; "3"] "1234567890" eq_refl)
    as (chunks & Hvalues & _ & Hjoin & Hle & _).
  - simpl. lia.
  - simpl. lia.
  - exists chunks. split; [exact Hvalues|]. split; [exact Hjoin | exact Hle].
Defined.

(** ** The chunks that are used *)

Lemma set_count_take set counts i c n :
  i < n -> set_count set (take n counts) i c = set_count set counts i c.
Proof.
  intros Hi. unfold set_count. rewrite lookup_take_lt by exact Hi. reflexivity.
Qed.

(** Only as many error counts are used as there are channel ids: the
    pieces beyond them have no effect. *)
Lemma assign_errors_take correctable uncorrectable channel_ids n :
  forall channels i,
    i + length channel_ids <= n ->
    assign_errors (take n correctable) (take n uncorrectable) channels i
      channel_ids
    = assign_errors correctable uncorrectable channels i channel_ids.
Proof.
  induction channel_ids as [|id rest IH]; intros channels i Hn; simpl;
    [reflexivity|].
  simpl in Hn.
  destruct (channels !! (Z.of_nat i + 1)%Z) as [c|]; [|apply IH; lia].
  rewrite !set_count_take by lia.
  destruct (set_count Downstream.set_corrected_errors correctable i c)
    as [c1|e]; simpl; [|reflexivity].
  rewrite !set_count_take by lia.
  destruct (set_count Downstream.set_uncorrected_errors uncorrectable i c1)
    as [c2|e]; simpl; [|reflexivity].
  apply IH. lia.
Qed.

Lemma assign_errors_take_witness :
  assign_errors (take 2 ["10"; "20"; "30"]) (take 2 ["0"; "2"; "9"])
    ({[1%Z := new_downstream 1 5]}) 0 ["5"; "6"]
  = assign_errors ["10"; "20"; "30"] ["0"; "2"; "9"]
      ({[1%Z := new_downstream 1 5]}) 0 ["5"; "6"].
Proof. apply (assign_errors_take _ _ ["5"; "6"] 2). simpl. lia. Defined.

(** ** [_parse_mb8600_json] *)

(** C1. For the example blob the downstream map has the keys 1 and 2 and
    no other; entry 1 has [channel_id] 5 and [uncorrected_errors] 0, entry
    2 has [channel_id] 6 and [uncorrected_errors] 2. The same map is the
    [downstream] of the model when the blob comes in a reply. *)
Theorem json_downstream_example :
  exists m : gmap Z Downstream.t,
    parse_downstream_blob example_blob = Ok m
    /\ dom m = ({[1%Z; 2%Z]} : gset Z)
    /\ Downstream.channel_id <$> m !! 1%Z = Some 5%Z
    /\ Downstream.uncorrected_errors <$> m !! 1%Z = Some 0%Z
    /\ Downstream.channel_id <$> m !! 2%Z = Some 6%Z
    /\ Downstream.uncorrected_errors <$> m !! 2%Z = Some 2%Z
    /\ exists us uptime,
         _parse_mb8600_json
           (hnap_response example_blob "" "0 days 00h:00m:00s")
         = Ok {| downstream := m; upstream := us; system_uptime := uptime |}.
Proof.
  eexists. split; [vm_compute; reflexivity|].
  split; [vm_compute; reflexivity|].
  repeat (split; [vm_compute; reflexivity|]).
  eexists _, _. vm_compute. reflexivity.
Qed.

Lemma field_Ok fields k f :
  field fields k = Ok f -> fields !! k = Some f.
Proof. unfold field. destruct (fields !! k); [congruence | discriminate]. Qed.

Lemma field_raises fields k e :
  field fields k = Raise e -> e = IndexError.
Proof. unfold field. destruct (fields !! k); [discriminate | congruence]. Qed.

(** Read the steps of a record that was built without an exception. *)
Ltac record_steps H :=
  repeat match type of H with
    | (field ?l ?k ≫= ?conv) ≫= _ = Ok _ =>
        let f := fresh "f" in
        let n := fresh "n" in
        let Hf := fresh "Hf" in
        let Hn := fresh "Hn" in
        apply bind_Ok in H as (n & Hn & H);
        apply bind_Ok in Hn as (f & Hf & Hn);
        apply field_Ok in Hf
    | field ?l ?k ≫= _ = Ok _ =>
        let f := fresh "f" in
        let Hf := fresh "Hf" in
        apply bind_Ok in H as (f & Hf & H);
        apply field_Ok in Hf
    end.

Ltac refute_malformed H :=
  let pos := fresh "pos" in
  let text := fresh "text" in
  let Hpos := fresh "Hpos" in
  let Htext := fresh "Htext" in
  let Hbad := fresh "Hbad" in
  destruct H as [H | [(pos & text & Hpos & Htext & Hbad)
                      | (pos & text & Hpos & Htext & Hbad)]];
  [ match goal with
    | Hl : ?l !! 8 = Some _ |- _ => apply lookup_lt_Some in Hl; lia
    | Hl : ?l !! 6 = Some _ |- _ => apply lookup_lt_Some in Hl; lia
    end
  | simpl in Hpos; repeat destruct Hpos as [<- | Hpos]; try destruct Hpos;
    apply Hbad; eexists;
    match goal with
    | Hl : ?l !! ?j = Some ?g |- _ =>
        rewrite Hl in Htext; injection Htext as <-; eassumption
    end .. ].

Lemma downstream_record_well_formed channel_raw x :
  downstream_record channel_raw = Ok x -> ~ malformed_downstream channel_raw.
Proof.
  unfold downstream_record, malformed_downstream, malformed_record.
  intros H Hm. record_steps H. refute_malformed Hm.
Qed.

Lemma upstream_record_well_formed channel_raw x :
  upstream_record channel_raw = Ok x -> ~ malformed_upstream channel_raw.
Proof.
  unfold upstream_record, malformed_upstream, malformed_record.
  intros H Hm. record_steps H. refute_malformed Hm.
Qed.

(** The steps of a record that raised. *)
Ltac record_raise H :=
  repeat match type of H with
    | _ ≫= _ = Raise _ =>
        apply bind_Raise in H as [H | (? & _ & H)]
    end;
  first [ apply field_raises in H; left; exact H
        | apply py_int_raises in H; right; exact H
        | apply py_float_raises in H; right; exact H
        | discriminate H ].

Lemma downstream_record_raises channel_raw e :
  downstream_record channel_raw = Raise e -> format_error e.
Proof. unfold downstream_record, format_error. intros H. record_raise H. Qed.

Lemma upstream_record_raises channel_raw e :
  upstream_record channel_raw = Raise e -> format_error e.
Proof. unfold upstream_record, format_error. intros H. record_raise H. Qed.

Section ChannelLoop.
Context {C : Type}.
Variable record : string -> result (Z * C).
Variable malformed : string -> Prop.
Hypothesis record_well_formed :
  forall channel_raw x, record channel_raw = Ok x -> ~ malformed channel_raw.
Hypothesis record_raises :
  forall channel_raw e, record channel_raw = Raise e -> format_error e.

(** The loop raises whatever a record raises. *)
Lemma channel_loop_raises channels : forall acc e,
  channel_loop record acc channels = Raise e -> format_error e.
Proof.
  induction channels as [|channel_raw rest IH]; intros acc e; simpl;
    [discriminate|].
  destruct (str_eqb channel_raw ""); [apply IH|].
  intros H. apply bind_Raise in H as [H | ([k c] & _ & H)].
  - eapply record_raises. exact H.
  - eapply IH. exact H.
Qed.

(** One malformed record, wherever it stands, makes the loop raise. *)
Lemma channel_loop_malformed channels : forall acc,
  Exists (fun channel_raw => channel_raw <> "" /\ malformed channel_raw)
    channels ->
  exists e, format_error e /\ channel_loop record acc channels = Raise e.
Proof.
  induction channels as [|channel_raw rest IH]; intros acc Hex.
  - inversion Hex.
  - simpl. unfold str_eqb. case_bool_decide as Hempty.
    + apply IH. inversion Hex as [? ? [Hne _]|]; subst; [congruence | assumption].
    + destruct (record channel_raw) as [[k c]|e] eqn:Hrec; simpl.
      * apply IH. inversion Hex as [? ? [_ Hm]|]; subst; [|assumption].
        destruct (record_well_formed _ _ Hrec Hm).
      * exists e. split; [eapply record_raises; exact Hrec | reflexivity].
Qed.
End ChannelLoop.

(** C5. A reply in which the downstream blob, or the upstream blob, has a
    non-empty record with fewer fields than its direction requires (9 and
    7) or with a numeric field that [int()] or [float()] refuses makes the
    parser raise [IndexError] or [ValueError]: no model is returned, and
    no value is made up for the field. [_async_update_data] reports the
    exception as [UpdateFailed]. *)
Theorem malformed_record_raises (data : value) (ds_blob : string) :
  path3 data "GetMultipleHNAPsResponse"
    "GetMotoStatusDownstreamChannelInfoResponse" "MotoConnDownstreamChannel"
  = Ok (VStr ds_blob) ->
  Exists (fun r => r <> "" /\ malformed_downstream r) (split "|+|" ds_blob)
  \/ (exists us_blob,
        path3 data "GetMultipleHNAPsResponse"
          "GetMotoStatusUpstreamChannelInfoResponse" "MotoConnUpstreamChannel"
        = Ok (VStr us_blob)
        /\ Exists (fun r => r <> "" /\ malformed_upstream r)
             (split "|+|" us_blob)) ->
  exists e,
    format_error e
    /\ _parse_mb8600_json data = Raise e
    /\ update_failed (_parse_mb8600_json data) = Raise UpdateFailed.
Proof.
  intros Hds Hbad.
  assert (exists e, format_error e /\ _parse_mb8600_json data = Raise e)
    as (e & He & Hparse).
  { unfold _parse_mb8600_json. rewrite Hds. simpl.
    destruct (channel_loop downstream_record ∅ (split "|+|" ds_blob))
      as [ds|e] eqn:Hloop; simpl.
    - destruct Hbad as [Hbad | (us_blob & Hus & Hbad)].
      + destruct (channel_loop_malformed downstream_record malformed_downstream
                    downstream_record_well_formed downstream_record_raises
                    _ ∅ Hbad) as (e & _ & He).
        congruence.
      + rewrite Hus. simpl.
        destruct (channel_loop_malformed upstream_record malformed_upstream
                    upstream_record_well_formed upstream_record_raises
                    _ ∅ Hbad) as (e & He & Hraise).
        exists e. rewrite Hraise. split; [exact He | reflexivity].
    - exists e. split; [|reflexivity].
      eapply channel_loop_raises; [|exact Hloop].
      exact downstream_record_raises. }
  exists e. split; [exact He|]. split; [exact Hparse|].
  rewrite Hparse. reflexivity.
Qed.

(** A downstream record of four fields. *)
Lemma malformed_record_raises_witness :
  exists e,
    format_error e
    /\ _parse_mb8600_json
         (hnap_response "1^locked^QAM256^5" "" "0 days 00h:00m:00s")
       = Raise e
    /\ update_failed
         (_parse_mb8600_json
            (hnap_response "1^locked^QAM256^5" "" "0 days 00h:00m:00s"))
       = Raise UpdateFailed.
Proof.
  apply (malformed_record_raises _ "1^locked^QAM256^5"); [reflexivity|].
  left. apply Exists_cons_hd. split; [discriminate|].
  left. vm_compute. lia.
Defined.

(** The record of four fields stops at the fifth field. *)
Lemma four_fields_IndexError :
  parse_downstream_blob "1^locked^QAM256^5" = Raise IndexError.
Proof. reflexivity. Qed.

(** ** Every channel is stored under its own number *)

Lemma keyed_empty {C} (chan : C -> Z) : keyed chan ∅.
Proof. intros k c H. rewrite lookup_empty in H. discriminate. Qed.

Lemma keyed_insert {C} (chan : C -> Z) (m : gmap Z C) (k : Z) (c : C) :
  keyed chan m -> chan c = k -> keyed chan (<[k := c]> m).
Proof.
  intros Hm Hc k' c' H. apply lookup_insert_Some in H as [[<- <-] | [_ H]].
  - exact Hc.
  - apply Hm. exact H.
Qed.

Section ChannelLoopKeys.
Context {C : Type}.
Variable record : string -> result (Z * C).
Variable chan : C -> Z.
Hypothesis record_chan :
  forall channel_raw k c, record channel_raw = Ok (k, c) -> chan c = k.

Lemma channel_loop_keyed channels : forall acc m,
  keyed chan acc -> channel_loop record acc channels = Ok m -> keyed chan m.
Proof.
  induction channels as [|channel_raw rest IH]; intros acc m Hacc; simpl.
  - intros H. injection H as <-. exact Hacc.
  - destruct (str_eqb channel_raw ""); [apply IH; exact Hacc|].
    intros H. apply bind_Ok in H as ([k c] & Hrec & H).
    eapply IH; [|exact H]. apply keyed_insert; [exact Hacc|].
    eapply record_chan. exact Hrec.
Qed.
End ChannelLoopKeys.

Lemma downstream_record_chan channel_raw k c :
  downstream_record channel_raw = Ok (k, c) -> Downstream.channel c = k.
Proof.
  unfold downstream_record. intros H. record_steps H.
  injection H as <- <-. reflexivity.
Qed.

Lemma upstream_record_chan channel_raw k c :
  upstream_record channel_raw = Ok (k, c) -> Upstream.channel c = k.
Proof.
  unfold upstream_record. intros H. record_steps H.
  injection H as <- <-. reflexivity.
Qed.

Lemma parse_mb8600_json_keyed data model :
  _parse_mb8600_json data = Ok model -> keyed_by_channel model.
Proof.
  unfold _parse_mb8600_json. intros H.
  apply bind_Ok in H as (ds_channels & _ & H).
  apply bind_Ok in H as (ds & Hds & H).
  apply bind_Ok in H as (us_channels & _ & H).
  apply bind_Ok in H as (us & Hus & H).
  apply bind_Ok in H as (uptime_str & _ & H).
  apply bind_Ok in H as (uptime & _ & H).
  injection H as <-. split; simpl.
  - eapply channel_loop_keyed; [| apply keyed_empty | exact Hds].
    exact downstream_record_chan.
  - eapply channel_loop_keyed; [| apply keyed_empty | exact Hus].
    exact upstream_record_chan.
Qed.

Section ChannelsKeys.
Context {C : Type}.
Variable new_channel : Z -> Z -> C.
Variable set_value : string -> string -> C -> result C.
Variable chan : C -> Z.
Hypothesis new_channel_chan :
  forall channel_num channel_id,
    chan (new_channel channel_num channel_id) = channel_num.
Hypothesis set_value_chan :
  forall header value c c', set_value header value c = Ok c' -> chan c' = chan c.

Lemma create_channels_keyed channel_ids positions : forall channels m,
  keyed chan channels ->
  create_channels new_channel channel_ids channels positions = Ok m ->
  keyed chan m.
Proof.
  induction positions as [|i rest IH]; intros channels m Hk; simpl.
  - intros H. injection H as <-. exact Hk.
  - intros H. apply bind_Ok in H as (channel_id & _ & H).
    eapply IH; [|exact H]. apply keyed_insert; [exact Hk|].
    apply new_channel_chan.
Qed.

Lemma set_row_keyed header values : forall channels i m,
  keyed chan channels ->
  set_row set_value header channels i values = Ok m -> keyed chan m.
Proof.
  induction values as [|value rest IH]; intros channels i m Hk; simpl.
  - intros H. injection H as <-. exact Hk.
  - destruct (channels !! (Z.of_nat i + 1)%Z) as [c|] eqn:Hc.
    + intros H. apply bind_Ok in H as (c' & Hset & H).
      eapply IH; [|exact H]. apply keyed_insert; [exact Hk|].
      rewrite (set_value_chan _ _ _ _ Hset). apply Hk. exact Hc.
    + apply IH. exact Hk.
Qed.

Lemma set_rows_keyed items : forall channels m,
  keyed chan channels ->
  set_rows set_value channels items = Ok m -> keyed chan m.
Proof.
  induction items as [|[header values] rest IH]; intros channels m Hk; simpl.
  - intros H. injection H as <-. exact Hk.
  - destruct (str_eqb header "Channel ID"); [apply IH; exact Hk|].
    intros H. apply bind_Ok in H as (channels' & Hrow & H).
    eapply IH; [|exact H]. eapply set_row_keyed; [exact Hk | exact Hrow].
Qed.

Lemma parse_channel_table_keyed table m :
  parse_channel_table new_channel set_value table = Ok m -> keyed chan m.
Proof.
  unfold parse_channel_table. intros H.
  apply bind_Ok in H as (data & _ & H).
  apply bind_Ok in H as (num & _ & H).
  destruct (dict_get data "Channel ID") as [[|id ids]|].
  1, 3: injection H as <-; apply keyed_empty.
  apply bind_Ok in H as (channels & Hcreate & H).
  eapply set_rows_keyed; [|exact H].
  eapply create_channels_keyed; [apply keyed_empty | exact Hcreate].
Qed.
End ChannelsKeys.

Lemma frequency_step {C} (set : spec_float -> C -> C) (value : string)
    (c c' : C) :
  (freq ← frequency_of value; Ok (from_option (fun f => set f c) c freq))
  = Ok c' ->
  c' = c \/ exists f, c' = set f c.
Proof.
  intros H. apply bind_Ok in H as ([f|] & _ & H); injection H as <-.
  - right. exists f. reflexivity.
  - left. reflexivity.
Qed.

Lemma set_downstream_value_chan header value c c' :
  set_downstream_value header value c = Ok c' ->
  Downstream.channel c' = Downstream.channel c.
Proof.
  unfold set_downstream_value. intros H.
  destruct (str_eqb header "Lock Status"); [injection H as <-; reflexivity|].
  destruct (str_eqb header "Frequency").
  { apply frequency_step in H as [-> | [f ->]]; reflexivity. }
  destruct (str_eqb header "SNR").
  { destruct (match_number value) as [[number r]|];
      [apply bind_Ok in H as (f & _ & H)|]; injection H as <-; reflexivity. }
  destruct (str_eqb header "Power Level").
  { destruct (match_signed_number value) as [[number r]|];
      [apply bind_Ok in H as (f & _ & H)|]; injection H as <-; reflexivity. }
  destruct (str_eqb header "Modulation"); injection H as <-; reflexivity.
Qed.

Lemma set_upstream_value_chan header value c c' :
  set_upstream_value header value c = Ok c' ->
  Upstream.channel c' = Upstream.channel c.
Proof.
  unfold set_upstream_value. intros H.
  destruct (str_eqb header "Lock Status"); [injection H as <-; reflexivity|].
  destruct (str_eqb header "Frequency").
  { apply frequency_step in H as [-> | [f ->]]; reflexivity. }
  destruct (str_eqb header "Symbol Rate").
  { destruct (match_digits value) as [[number r]|];
      [apply bind_Ok in H as (f & _ & H)|]; injection H as <-; reflexivity. }
  destruct (str_eqb header "Power Level").
  { destruct (match_signed_number value) as [[number r]|];
      [apply bind_Ok in H as (f & _ & H)|]; injection H as <-; reflexivity. }
  destruct (str_eqb header "Modulation"); injection H as <-; reflexivity.
Qed.

Lemma set_count_chan set counts i c c' :
  (forall n c, Downstream.channel (set n c) = Downstream.channel c) ->
  set_count set counts i c = Ok c' ->
  Downstream.channel c' = Downstream.channel c.
Proof.
  intros Hset. unfold set_count.
  destruct (counts !! i) as [text|]; [|intros H; injection H as <-; reflexivity].
  destruct (py_int text) as [n|e]; simpl.
  - intros H. injection H as <-. apply Hset.
  - destruct e; simpl; intros H; try discriminate;
      injection H as <-; reflexivity.
Qed.

Lemma assign_errors_keyed correctable uncorrectable channel_ids :
  forall channels i m,
    keyed Downstream.channel channels ->
    assign_errors correctable uncorrectable channels i channel_ids = Ok m ->
    keyed Downstream.channel m.
Proof.
  induction channel_ids as [|id rest IH]; intros channels i m Hk; simpl.
  - intros H. injection H as <-. exact Hk.
  - destruct (channels !! (Z.of_nat i + 1)%Z) as [c|] eqn:Hc.
    + intros H. apply bind_Ok in H as (c1 & H1 & H).
      apply bind_Ok in H as (c2 & H2 & H).
      eapply IH; [|exact H]. apply keyed_insert; [exact Hk|].
      apply set_count_chan in H1; [|reflexivity].
      apply set_count_chan in H2; [|reflexivity].
      rewrite H2, H1. apply Hk. exact Hc.
    + apply IH. exact Hk.
Qed.

Lemma parse_error_table_keyed table channels m :
  keyed Downstream.channel channels ->
  parse_error_table table channels = Ok m -> keyed Downstream.channel m.
Proof.
  unfold parse_error_table. intros Hk H.
  apply bind_Ok in H as (error_data & _ & H).
  destruct (dict_get error_data "Channel ID") as [channel_ids|];
    [|injection H as <-; exact Hk].
  destruct (dict_get error_data "Correctable Codewords") as [correctable|];
    [|injection H as <-; exact Hk].
  destruct (dict_get error_data "Uncorrectable Codewords") as [uncorrectable|];
    [|injection H as <-; exact Hk].
  eapply assign_errors_keyed; [exact Hk | exact H].
Qed.

Lemma parse_tables_keyed soup ds us :
  parse_tables soup = Ok (ds, us) ->
  keyed Downstream.channel ds /\ keyed Upstream.channel us.
Proof.
  unfold parse_tables.
  destruct (find_all "tbody" soup) as [|t0 [|t1 [|t2 rest]]];
    try (intros H; injection H as <- <-; split; apply keyed_empty).
  intros H. apply bind_Ok in H as (ds0 & Hds & H).
  apply bind_Ok in H as (us0 & Hus & H).
  apply bind_Ok in H as (ds' & Herr & H). injection H as <- <-.
  split.
  - eapply parse_error_table_keyed; [|exact Herr].
    eapply parse_channel_table_keyed; [| |exact Hds].
    + reflexivity.
    + exact set_downstream_value_chan.
  - eapply parse_channel_table_keyed; [| |exact Hus].
    + reflexivity.
    + exact set_upstream_value_chan.
Qed.

Lemma parse_cgm4331com_html_keyed soup model :
  _parse_cgm4331com_html soup = Ok model -> keyed_by_channel model.
Proof.
  unfold _parse_cgm4331com_html. intros H.
  apply bind_Ok in H as (uptime & _ & H).
  apply bind_Ok in H as ([ds us] & Htables & H). injection H as <-.
  exact (parse_tables_keyed soup ds us Htables).
Qed.

Lemma example_page_parsed :
  exists model,
    _parse_cgm4331com_html example_page = Ok model
    /\ dom (downstream model) = ({[1%Z; 2%Z]} : gset Z)
    /\ dom (upstream model) = ({[1%Z]} : gset Z)
    /\ Downstream.channel_id <$> downstream model !! 2%Z = Some 6%Z
    /\ Downstream.uncorrected_errors <$> downstream model !! 2%Z = Some 2%Z
    /\ system_uptime model = Some 93784%Z.
Proof.
  eexists. split; [vm_compute; reflexivity|].
  do 4 (split; [vm_compute; reflexivity|]). vm_compute. reflexivity.
Qed.

(** C9. In every model that [_parse_mb8600_json] or
    [_parse_cgm4331com_html] returns, every entry of the downstream map and
    of the upstream map has as its [channel] the key it is stored under. *)
Theorem channel_is_key :
  (forall data model,
     _parse_mb8600_json data = Ok model -> keyed_by_channel model)
  /\ (forall soup model,
        _parse_cgm4331com_html soup = Ok model -> keyed_by_channel model).
Proof.
  split; [exact parse_mb8600_json_keyed | exact parse_cgm4331com_html_keyed].
Qed.

Lemma channel_is_key_witness :
  (exists model,
     _parse_mb8600_json example_reply = Ok model
     /\ size (downstream model) = 2 /\ size (upstream model) = 1
     /\ keyed_by_channel model)
  /\ (exists model,
        _parse_cgm4331com_html example_page = Ok model
        /\ size (downstream model) = 2 /\ size (upstream model) = 1
        /\ keyed_by_channel model).
Proof.
  split.
  - eexists. split; [vm_compute; reflexivity|].
    split; [vm_compute; reflexivity|]. split; [vm_compute; reflexivity|].
    apply (proj1 channel_is_key example_reply). vm_compute. reflexivity.
  - eexists. split; [vm_compute; reflexivity|].
    split; [vm_compute; reflexivity|]. split; [vm_compute; reflexivity|].
    apply (proj2 channel_is_key example_page). vm_compute. reflexivity.
Defined.

(** ** Fewer than three tables *)



(** ** Values of cells never raise *)

Lemma match_number_plain value number r :
  match_number value = Some (number, r) -> plain_number number.
Proof.
  unfold match_number.
  destruct (match_digits value) as [[ip r1]|] eqn:Hip; simpl; [|discriminate].
  apply match_digits_Some in Hip as [Hne Hd].
  destruct r1 as [|c t].
  { intros H. injection H as <- <-. constructor; assumption. }
  destruct (ascii_dec c ".") as [->|Hc].
  - destruct (match_digits t) as [[fp r2]|] eqn:Hfp.
    + apply match_digits_Some in Hfp as [Hne' Hd'].
      intros H. injection H as <- <-. constructor; assumption.
    + intros H. injection H as <- <-. constructor; assumption.
  - intros H.
    assert (Some (ip, String c t) = Some (number, r)) as Heq.
    { destruct c as [[] [] [] [] [] [] [] []]; try exact H.
      exfalso. apply Hc. reflexivity. }
    injection Heq as <- <-. constructor; assumption.
Qed.

Lemma all_digits_no_underscore s :
  all_digits s = true -> no_underscore s = true.
Proof.
  induction s as [|c s IH]; simpl; [reflexivity|].
  intros H. apply andb_true_iff in H as [Hc Hs].
  rewrite (IH Hs), bool_decide_eq_false_2 by (apply digit_not_underscore, Hc).
  reflexivity.
Qed.

Lemma no_underscore_app a b :
  no_underscore (a +:+ b) = no_underscore a && no_underscore b.
Proof.
  induction a as [|c a IH]; [reflexivity|].
  rewrite append_cons. simpl. rewrite IH, andb_assoc. reflexivity.
Qed.

Lemma drop_underscores_none s : forall prev,
  no_underscore s = true -> prev <> Some "_"%char ->
  drop_underscores prev s = Some s.
Proof.
  induction s as [|c s IH]; intros prev Hs Hprev; simpl.
  - rewrite bool_decide_eq_false_2 by exact Hprev. reflexivity.
  - simpl in Hs. apply andb_true_iff in Hs as [Hc Hs].
    apply negb_true_iff in Hc. rewrite Hc.
    rewrite (bool_decide_eq_false_2 _ Hprev). simpl.
    rewrite IH; [reflexivity | exact Hs |].
    apply bool_decide_eq_false_1 in Hc. congruence.
Qed.

Lemma rstrip_app p a b :
  rstrip p b <> "" -> rstrip p (a +:+ b) = a +:+ rstrip p b.
Proof.
  intros Hb. induction a as [|c a IH]; [reflexivity|].
  rewrite !append_cons. simpl. rewrite IH.
  destruct (a +:+ rstrip p b) eqn:Hab; [|reflexivity].
  destruct a; [rewrite append_nil in Hab; congruence | discriminate].
Qed.

Lemma span_digits_app d r :
  all_digits d = true ->
  (match r with String c _ => is_digit c = false | EmptyString => True end) ->
  span_digits (d +:+ r) = (d, r).
Proof.
  intros Hd Hr. induction d as [|c d IH].
  - rewrite append_nil.
    destruct r as [|c r]; simpl; [reflexivity | rewrite Hr; reflexivity].
  - simpl in Hd. apply andb_true_iff in Hd as [Hc Hd].
    rewrite append_cons. simpl. rewrite Hc, (IH Hd). reflexivity.
Qed.

Lemma span_digits_all d :
  all_digits d = true -> span_digits d = (d, EmptyString).
Proof.
  intros Hd. pose proof (span_digits_app d "" Hd I) as H.
  rewrite append_nil_r in H. exact H.
Qed.

Lemma lower_digit c : is_digit c = true -> lower c = c.
Proof. destruct c as [[] [] [] [] [] [] [] []]; vm_compute; congruence. Qed.

Lemma digit_not_letter c : is_digit c = true ->
  c <> "i"%char /\ c <> "n"%char.
Proof. destruct c as [[] [] [] [] [] [] [] []]; vm_compute; split; congruence. Qed.

(** [float()] accepts what [match_number] matches. *)
Lemma py_float_plain number neg :
  plain_number number ->
  is_Ok (py_float number)
  /\ is_Ok (py_float (String (if neg : bool then "-" else "+")%char number)).
Proof.
  intros Hn.
  assert (exists c t, number = String c t /\ is_digit c = true) as (c & t & Hct & Hc).
  { destruct Hn as [ip Hne Hd | ip fp Hne Hd _ _];
      (destruct ip as [|c ip]; [congruence|]);
      simpl in Hd; apply andb_true_iff in Hd as [Hc _];
      eexists _, _; (split; [reflexivity | exact Hc]). }
  assert (Hnu : no_underscore number = true).
  { destruct Hn as [ip Hne Hd | ip fp Hne Hd Hne' Hd'].
    - apply all_digits_no_underscore, Hd.
    - rewrite !no_underscore_app, (all_digits_no_underscore ip Hd),
        (all_digits_no_underscore fp Hd').
      reflexivity. }
  assert (Hrs : rstrip is_num_space number = number).
  { destruct Hn as [ip Hne Hd | ip fp Hne Hd Hne' Hd'].
    - apply rstrip_all_digits, Hd.
    - assert (H1 : rstrip is_num_space fp = fp)
        by apply rstrip_all_digits, Hd'.
      assert (H2 : rstrip is_num_space ("." +:+ fp) = "." +:+ fp).
      { rewrite rstrip_app; rewrite H1; [reflexivity | exact Hne']. }
      rewrite rstrip_app; rewrite H2; [reflexivity | discriminate]. }
  assert (Hdec : exists mk, decimal_literal number = Some mk).
  { unfold decimal_literal.
    destruct Hn as [ip Hne Hd | ip fp Hne Hd Hne' Hd'].
    - rewrite (span_digits_all ip Hd). simpl.
      unfold str_eqb. rewrite append_nil_r.
      rewrite bool_decide_eq_false_2 by exact Hne. simpl. eexists. reflexivity.
    - rewrite (span_digits_app ip ("." +:+ fp) Hd) by reflexivity.
      change ("." +:+ fp) with (String "." fp). cbv iota beta.
      rewrite (span_digits_all fp Hd').
      unfold str_eqb. rewrite bool_decide_eq_false_2.
      + simpl. eexists. reflexivity.
      + destruct ip; [congruence | discriminate]. }
  destruct Hdec as ([m k] & Hdec).
  assert (Hlow : forall w, lower_str number = w ->
             str_eqb w "inf" || str_eqb w "infinity" = false
             /\ str_eqb w "nan" = false).
  { intros w <-. rewrite Hct. simpl. rewrite (lower_digit c Hc).
    destruct (digit_not_letter c Hc) as [Hi Hn'].
    unfold str_eqb. rewrite !bool_decide_eq_false_2; [split; reflexivity | | |];
      intros Heq; injection Heq; congruence. }
  destruct (Hlow _ eq_refl) as [Hinf Hnan].
  split.
  - unfold py_float.
    replace (lstrip is_num_space number) with number
      by (rewrite Hct; simpl; rewrite (digit_not_num_space c Hc); reflexivity).
    rewrite Hrs, (drop_underscores_none _ None Hnu) by discriminate.
    rewrite Hct, (digit_not_sign c t Hc), <- Hct.
    rewrite Hinf, Hnan, Hdec. apply is_Ok_Ok.
  - unfold py_float.
    set (sign := if neg then "-"%char else "+"%char).
    assert (Hsign : is_num_space sign = false /\ sign <> "_"%char
                    /\ is_digit sign = false
                    /\ split_sign (String sign number) = (neg, number)).
    { unfold sign. destruct neg; repeat split; discriminate. }
    destruct Hsign as (Hsp & Hus & Hnd & Hss).
    replace (lstrip is_num_space (String sign number))
      with (String sign number) by (simpl; rewrite Hsp; reflexivity).
    replace (rstrip is_num_space (String sign number))
      with (String sign number).
    2: { change (String sign number) with (String sign "" +:+ number).
         rewrite rstrip_app by (rewrite Hrs, Hct; discriminate).
         rewrite Hrs. reflexivity. }
    rewrite drop_underscores_none; [| |discriminate].
    2: { simpl. rewrite Hnu, bool_decide_eq_false_2 by exact Hus. reflexivity. }
    rewrite Hss, Hinf, Hnan, Hdec. apply is_Ok_Ok.
Qed.

Lemma match_signed_number_Ok value number r :
  match_signed_number value = Some (number, r) -> is_Ok (py_float number).
Proof.
  unfold match_signed_number.
  assert (Hplain : match_number value = Some (number, r) ->
                   is_Ok (py_float number)).
  { intros H. apply match_number_plain in H.
    apply (py_float_plain number false H). }
  assert (Hsigned : forall (neg : bool) t,
             (fun '(n, r) => (String (if neg then "-" else "+")%char n, r))
               <$> match_number t = Some (number, r) ->
             is_Ok (py_float number)).
  { intros neg t H.
    destruct (match_number t) as [[n r']|] eqn:Hn; [|discriminate].
    injection H as <- <-. apply match_number_plain in Hn.
    apply (py_float_plain n neg Hn). }
  destruct value as [|c t]; [exact Hplain|].
  destruct (ascii_dec c "+") as [->|Hplus]; [exact (Hsigned false t)|].
  destruct (ascii_dec c "-") as [->|Hminus]; [exact (Hsigned true t)|].
  intros H. apply Hplain.
  destruct c as [[] [] [] [] [] [] [] []]; try exact H;
    exfalso; first [apply Hplus; reflexivity | apply Hminus; reflexivity].
Qed.

Lemma frequency_of_Ok value : is_Ok (frequency_of value).
Proof.
  unfold frequency_of, match_frequency.
  destruct (match_number value) as [[number r]|] eqn:Hn; simpl;
    [|apply is_Ok_Ok].
  apply match_number_plain in Hn.
  destruct (proj1 (py_float_plain number false Hn)) as [f ->]. simpl.
  destruct (_ && _); apply is_Ok_Ok.
Qed.




Lemma channel_id_at_Ok channel_ids i : is_Ok (channel_id_at channel_ids i).
Proof.
  unfold channel_id_at. destruct (channel_ids !! i) as [text|];
    [|apply is_Ok_Ok].
  destruct (py_int text) as [n|e] eqn:Hn; simpl; [apply is_Ok_Ok|].
  apply py_int_raises in Hn as ->. apply is_Ok_Ok.
Qed.


Section ChannelsTotal.
Context {C : Type}.
Variable new_channel : Z -> Z -> C.
Variable set_value : string -> string -> C -> result C.
Hypothesis set_value_Ok : forall header value c, is_Ok (set_value header value c).

Lemma create_channels_Ok channel_ids positions : forall channels,
  is_Ok (create_channels new_channel channel_ids channels positions).
Proof.
  induction positions as [|i rest IH]; intros channels; simpl;
    [apply is_Ok_Ok|].
  destruct (channel_id_at_Ok channel_ids i) as [id ->]. simpl. apply IH.
Qed.

Lemma set_row_Ok header values : forall channels i,
  is_Ok (set_row set_value header channels i values).
Proof.
  induction values as [|value rest IH]; intros channels i; simpl;
    [apply is_Ok_Ok|].
  destruct (channels !! (Z.of_nat i + 1)%Z) as [c|]; [|apply IH].
  destruct (set_value_Ok header value c) as [c' ->]. simpl. apply IH.
Qed.

Lemma set_rows_Ok items : forall channels,
  is_Ok (set_rows set_value channels items).
Proof.
  induction items as [|[header values] rest IH]; intros channels; simpl;
    [apply is_Ok_Ok|].
  destruct (str_eqb header "Channel ID"); [apply IH|].
  destruct (set_row_Ok header values channels 0) as [channels' ->].
  simpl. apply IH.
Qed.
End ChannelsTotal.


(** ** What makes the HTML parser raise *)

Lemma findall_digits_from_all_digits s : forall cur,
  all_digits cur = true ->
  Forall (fun d => all_digits d = true) (findall_digits_from cur s).
Proof.
  induction s as [|c s IH]; intros cur Hcur; simpl.
  - destruct (str_eqb cur ""); constructor; [exact Hcur | constructor].
  - destruct (is_digit c) eqn:Hc.
    + apply IH. apply all_digits_snoc; assumption.
    + destruct (str_eqb cur ""); [apply IH; reflexivity|].
      constructor; [exact Hcur | apply IH; reflexivity].
Qed.

(** On a run of digits the loop that cuts it never raises. *)
Lemma split_giant_loop_Ok giant_id :
  all_digits giant_id = true ->
  forall fuel i values, is_Ok (split_giant_loop fuel giant_id i values).
Proof.
  intros Hd. induction fuel as [|fuel IH]; intros i values;
    [apply is_Ok_Ok|].
  rewrite split_giant_loop_step.
  destruct (i <? String.length giant_id)%nat; [|apply is_Ok_Ok].
  destruct (i + 2 <? String.length giant_id)%nat eqn:Hi; simpl.
  - apply Nat.ltb_lt in Hi.
    rewrite py_int_all_digits.
    + simpl. destruct (_ <? 100)%Z; apply IH.
    + apply all_digits_substring, Hd.
    + intros Hempty. unfold slice in Hempty.
      pose proof (length_substring giant_id i (i + 3 - i) ltac:(lia)) as Hlen.
      rewrite Hempty in Hlen. simpl in Hlen. lia.
  - apply IH.
Qed.

Lemma channel_ids_of_text_Ok value_text :
  is_Ok (channel_ids_of_text value_text).
Proof.
  unfold channel_ids_of_text.
  pose proof (findall_digits_from_all_digits value_text "" eq_refl) as Hall.
  fold (findall_digits value_text) in Hall.
  destruct (findall_digits value_text) as [|giant_id [|second rest]];
    try apply is_Ok_Ok.
  destruct (3 <? String.length giant_id)%nat; [|apply is_Ok_Ok].
  apply split_giant_loop_Ok. inversion Hall; assumption.
Qed.

Lemma channel_row_values_Ok row th header :
  is_Ok (channel_row_values row th header).
Proof.
  unfold channel_row_values. destruct (_ && _); [|apply is_Ok_Ok].
  destruct (value_text_of th); [apply channel_ids_of_text_Ok | apply is_Ok_Ok].
Qed.

Lemma dict_set_not_nil {K} `{EqDecision K} {V} (d : list (K * V)) k v :
  dict_set d k v <> [].
Proof.
  destruct d as [|[k' v'] d]; simpl; [discriminate|].
  destruct (bool_decide (k' = k)); discriminate.
Qed.

(** The rows of a channel table are gathered without an exception, and
    something is gathered unless no row has a header cell. *)
Lemma gather_channel_rows rows : forall data,
  exists data',
    gather_rows (fun _ => channel_row_values) data rows = Ok data'
    /\ (data' = [] ->
        data = [] /\ Forall (fun row => find "th" (children row) = None) rows).
Proof.
  induction rows as [|row rest IH]; intros data; simpl.
  - exists data. split; [reflexivity|]. intros ->. split; [reflexivity|constructor].
  - destruct (find "th" (children row)) as [th|] eqn:Hth.
    + destruct (channel_row_values_Ok row th (header_of th)) as [values ->].
      simpl. destruct (IH (dict_set data (header_of th) values))
        as (data' & Hdata' & Hempty).
      exists data'. split; [exact Hdata'|]. intros Hnil.
      destruct (Hempty Hnil) as [Hset _].
      destruct (dict_set_not_nil _ _ _ Hset).
    + destruct (IH data) as (data' & Hdata' & Hempty).
      exists data'. split; [exact Hdata'|]. intros Hnil.
      destruct (Hempty Hnil) as [-> Hrest]. split; [reflexivity|].
      constructor; assumption.
Qed.

Section ChannelTableTotal.
Context {C : Type}.
Variable new_channel : Z -> Z -> C.
Variable set_value : string -> string -> C -> result C.
Hypothesis set_value_Ok : forall header value c, is_Ok (set_value header value c).

(** A channel table raises only in [max([])], when no row has a header
    cell. *)
Lemma parse_channel_table_raises table e :
  parse_channel_table new_channel set_value table = Raise e ->
  e = ValueError /\ no_header_row table.
Proof.
  unfold parse_channel_table, no_header_row.
  destruct (gather_channel_rows (find_all "tr" (children table)) [])
    as (data & -> & Hempty). simpl.
  destruct data as [|item data].
  - simpl. intros H. injection H as <-. split; [reflexivity|].
    apply Hempty. reflexivity.
  - assert (exists num, num_channels (item :: data) = Ok num) as [num Hnum]
      by (eexists; reflexivity).
    remember (item :: data) as d eqn:Hd. rewrite Hnum. simpl.
    destruct (dict_get d "Channel ID") as [[|id ids]|]; try discriminate.
    destruct (create_channels_Ok new_channel (id :: ids) (seq 0 num) ∅)
      as [channels ->].
    simpl.
    destruct (set_rows_Ok set_value set_value_Ok d channels)
      as [m ->].
    discriminate.
Qed.

Lemma parse_channel_table_Ok table :
  ~ no_header_row table ->
  is_Ok (parse_channel_table new_channel set_value table).
Proof.
  intros H.
  destruct (parse_channel_table new_channel set_value table) as [m|e] eqn:Hp;
    [apply is_Ok_Ok|].
  apply parse_channel_table_raises in Hp as [_ Hp]. contradiction.
Qed.
End ChannelTableTotal.





(** The search for the uptime raises when no [span] follows the label,
    and when [parse_uptime] refuses the text of the [span] that does. *)
Lemma find_uptime_raises soup e :
  find_uptime soup = Raise e ->
  exists uptime_row next_siblings,
    find_in_forest is_uptime_label soup = Some (uptime_row, next_siblings)
    /\ ((e = AttributeError
         /\ find_next_sibling "span" next_siblings = None)
        \/ (e = ValueError
            /\ exists sibling,
                 find_next_sibling "span" next_siblings = Some sibling
                 /\ parse_uptime (node_text sibling) = Raise ValueError)).
Proof.
  unfold find_uptime.
  destruct (find_in_forest is_uptime_label soup)
    as [[uptime_row next_siblings]|]; [|discriminate].
  intros H. exists uptime_row, next_siblings. split; [reflexivity|].
  destruct (find_next_sibling "span" next_siblings) as [sibling|].
  - right. apply bind_Raise in H as [H | (uptime & _ & H)]; [|discriminate].
    pose proof (parse_uptime_raises _ _ H) as ->.
    split; [reflexivity|]. exists sibling. split; [reflexivity | exact H].
  - left. injection H as <-. split; reflexivity.
Qed.



(** ** Documents on which the HTML parser raises *)

(** C2 fails on the code. A document with three tables of which the first
    has no header cell reaches [max([])], and the [ValueError] leaves the
    parser; so do the [AttributeError] of an uptime label that no [span]
    follows and the [ZeroDivisionError] of error counts cut for a
    [Channel ID] row without ids. *)
Theorem html_parser_raises :
  _parse_cgm4331com_html headerless_page = Raise ValueError
  /\ _parse_cgm4331com_html lonely_label_page = Raise AttributeError
  /\ _parse_cgm4331com_html empty_ids_page = Raise ZeroDivisionError.
Proof.
  split; [vm_compute; reflexivity|]. split; vm_compute; reflexivity.
Qed.

(** ** The sensor accessors *)

Lemma body_not_dict direction data key channel :
  (forall d, data <> VDict d) ->
  get_value_body direction data key channel = Ok VNone.
Proof.
  intros H. unfold get_value_body.
  destruct data; simpl; rewrite ?orb_true_r; try reflexivity.
  destruct (H d eq_refl).
Qed.

Lemma body_dict direction d key channel :
  get_value_body direction (VDict d) key channel =
  match dict_get d (KStr direction) with
  | Some channels => channel_lookup channels key channel
  | None => Ok VNone
  end.
Proof.
  unfold get_value_body. destruct d as [|item d]; [reflexivity|].
  set (d' := item :: d).
  replace (negb (truthy (VDict d')) || negb (is_dict (VDict d')))
    with false by reflexivity.
  clearbody d'. simpl.
  destruct (dict_get d' (KStr direction)) as [channels|].
  - rewrite bool_decide_eq_true_2 by (eexists; reflexivity). reflexivity.
  - rewrite bool_decide_eq_false_2 by (intros [x Hx]; discriminate).
    reflexivity.
Qed.

Lemma channel_lookup_dict channels key channel :
  channel_lookup (VDict channels) key channel =
  match dict_get channels (KInt channel) with
  | Some record =>
      has_key ← contains record (KStr key);
      if negb has_key then
        _ ← keys_of record;
        Ok VNone
      else getitem record (KStr key)
  | None => Ok VNone
  end.
Proof.
  unfold channel_lookup. simpl.
  destruct (dict_get channels (KInt channel)) as [record|].
  - rewrite bool_decide_eq_true_2 by (eexists; reflexivity). reflexivity.
  - rewrite bool_decide_eq_false_2 by (intros [x Hx]; discriminate).
    reflexivity.
Qed.

(** Whatever the body returns is [None] or the value the three lookups
    give. *)
Lemma channel_lookup_path channels key channel v :
  channel_lookup channels key channel = Ok v ->
  v = VNone
  \/ (record ← getitem channels (KInt channel); getitem record (KStr key))
     = Ok v.
Proof.
  unfold channel_lookup. intros H.
  apply bind_Ok in H as ([|] & _ & H); simpl in H;
    [|left; congruence].
  apply bind_Ok in H as (record & Hrec & H).
  apply bind_Ok in H as ([|] & _ & H); simpl in H.
  - right. rewrite Hrec. exact H.
  - apply bind_Ok in H as (ks & _ & H). left. congruence.
Qed.

Lemma accessor_body_spec direction data key channel :
  accessor_spec direction data key channel
    (or_None (get_value_body direction data key channel)).
Proof.
  unfold accessor_spec. split; [|split; [|split; [|split; [|split]]]].
  - intros H. rewrite body_not_dict by exact H. reflexivity.
  - intros d -> Hdir. rewrite body_dict, Hdir. reflexivity.
  - intros d channels -> Hdir Hch.
    rewrite body_dict, Hdir, channel_lookup_dict, Hch. reflexivity.
  - intros d channels record -> Hdir Hch Hkey.
    rewrite body_dict, Hdir, channel_lookup_dict, Hch. simpl.
    rewrite Hkey, bool_decide_eq_false_2 by (intros [x Hx]; discriminate).
    reflexivity.
  - intros d channels record v -> Hdir Hch Hkey.
    rewrite body_dict, Hdir, channel_lookup_dict, Hch. simpl.
    rewrite Hkey, bool_decide_eq_true_2 by (eexists; reflexivity).
    reflexivity.
  - destruct (get_value_body direction data key channel) as [v|e] eqn:Hbody;
      simpl; [|left; reflexivity].
    destruct data as [| b | z | f | s | l | d];
      try (rewrite body_not_dict in Hbody by discriminate;
           left; congruence).
    rewrite body_dict in Hbody. simpl.
    destruct (dict_get d (KStr direction)) as [channels|];
      [|left; congruence].
    simpl. apply channel_lookup_path. exact Hbody.
Qed.

(** C10. [get_downstream_value] and [get_upstream_value] give a value on
    every [data], [key] and [channel]: an exception in the body ends in
    [None]. They give [None] when [data] is not a dictionary, when the map
    of the direction is missing, when the channel is missing from the map
    and when the key is missing from the channel; with all three present
    they give the value stored under the key. *)
Theorem accessors_total (data : value) (key : string) (channel : Z) :
  accessor_spec "downstream" data key channel
    (get_downstream_value data key channel)
  /\ accessor_spec "upstream" data key channel
       (get_upstream_value data key channel)
  /\ (forall e, get_value_body "downstream" data key channel = Raise e ->
                get_downstream_value data key channel = VNone)
  /\ (forall e, get_value_body "upstream" data key channel = Raise e ->
                get_upstream_value data key channel = VNone).
Proof.
  split; [apply accessor_body_spec|]. split; [apply accessor_body_spec|].
  unfold get_downstream_value, get_upstream_value.
  split; intros e ->; reflexivity.
Qed.

Lemma accessors_total_witness :
  get_downstream_value example_data "corrected_errors" 1 = VInt 7
  /\ get_upstream_value example_data "symbol_rate" 1 = VInt 5120
  /\ get_downstream_value example_data "corrected_errors" 2 = VNone
  /\ get_upstream_value example_data "snr" 1 = VNone
  /\ get_downstream_value (VList []) "corrected_errors" 1 = VNone.
Proof.
  destruct (accessors_total example_data "corrected_errors" 1)
    as [(_ & _ & _ & _ & Hdown & _) _].
  destruct (accessors_total example_data "symbol_rate" 1)
    as (_ & (_ & _ & _ & _ & Hup & _) & _).
  destruct (accessors_total example_data "corrected_errors" 2)
    as [(_ & _ & Hchannel & _) _].
  destruct (accessors_total example_data "snr" 1)
    as (_ & (_ & _ & _ & Hkey & _) & _).
  destruct (accessors_total (VList []) "corrected_errors" 1)
    as [(Hdata & _) _].
  split; [eapply Hdown; reflexivity|].
  split; [eapply Hup; reflexivity|].
  split; [eapply Hchannel; reflexivity|].
  split; [eapply Hkey; reflexivity|].
  apply Hdata. discriminate.
Defined.

(** An exception in the body: the map of the direction is no container. *)
Lemma accessor_swallows_TypeError :
  get_value_body "downstream" (VDict [(KStr "downstream", VNone)])
    "snr" 1 = Raise TypeError
  /\ get_downstream_value (VDict [(KStr "downstream", VNone)]) "snr" 1
     = VNone.
Proof. split; reflexivity. Qed.

(** ** The two forms of the uptime *)


























(** ** When the JSON parser returns, and what *)

Lemma result_cases {A} (r : result A) : is_Ok r \/ exists e, r = Raise e.
Proof. destruct r as [a|e]; [left; exists a | right; exists e]; reflexivity. Qed.

Lemma field_lookup fields k : k < length fields -> exists f, fields !! k = Some f /\ field fields k = Ok f.
Proof.
  intros H. destruct (lookup_lt_is_Some_2 fields k H) as [f Hf].
  exists f. split; [exact Hf|]. unfold field. rewrite Hf. reflexivity.
Qed.

Ltac conv_Ok Hm :=
  match goal with
  | |- context [?conv ?f] =>
      match conv with py_int => idtac | py_float => idtac end;
      let n := fresh "n" in
      let e := fresh "e" in
      let Hn := fresh "Hn" in
      destruct (conv f) as [n|e] eqn:Hn;
      [ cbn [mbind result_bind]
      | exfalso; apply Hm; right;
        match goal with
        | L : _ !! ?k = Some f |- _ =>
            first [ left; exists k, f;
                    (split; [simpl; tauto |]);
                    (split; [exact L |]);
                    rewrite Hn; apply not_is_Ok_Raise
                  | right; exists k, f;
                    (split; [simpl; tauto |]);
                    (split; [exact L |]);
                    rewrite Hn; apply not_is_Ok_Raise ]
        end ]
  end.

Lemma downstream_record_Ok channel_raw :
  ~ malformed_downstream channel_raw -> is_Ok (downstream_record channel_raw).
Proof.
  unfold malformed_downstream, malformed_record, downstream_record.
  intros Hm.
  assert (Hlen : 9 <= length (split "^" channel_raw)).
  { destruct (le_lt_dec 9 (length (split "^" channel_raw))); [assumption|].
    exfalso. apply Hm. left. assumption. }
  destruct (field_lookup (split "^" channel_raw) 0 ltac:(lia)) as (f0 & L0 & ->).
  destruct (field_lookup (split "^" channel_raw) 1 ltac:(lia)) as (f1 & L1 & ->).
  destruct (field_lookup (split "^" channel_raw) 2 ltac:(lia)) as (f2 & L2 & ->).
  destruct (field_lookup (split "^" channel_raw) 3 ltac:(lia)) as (f3 & L3 & ->).
  destruct (field_lookup (split "^" channel_raw) 4 ltac:(lia)) as (f4 & L4 & ->).
  destruct (field_lookup (split "^" channel_raw) 5 ltac:(lia)) as (f5 & L5 & ->).
  destruct (field_lookup (split "^" channel_raw) 6 ltac:(lia)) as (f6 & L6 & ->).
  destruct (field_lookup (split "^" channel_raw) 7 ltac:(lia)) as (f7 & L7 & ->).
  destruct (field_lookup (split "^" channel_raw) 8 ltac:(lia)) as (f8 & L8 & ->).
  cbn [mbind result_bind].
  conv_Ok Hm. conv_Ok Hm. conv_Ok Hm. conv_Ok Hm.
  conv_Ok Hm. conv_Ok Hm. conv_Ok Hm.
  apply is_Ok_Ok.
Qed.

Lemma upstream_record_Ok channel_raw :
  ~ malformed_upstream channel_raw -> is_Ok (upstream_record channel_raw).
Proof.
  unfold malformed_upstream, malformed_record, upstream_record.
  intros Hm.
  assert (Hlen : 7 <= length (split "^" channel_raw)).
  { destruct (le_lt_dec 7 (length (split "^" channel_raw))); [assumption|].
    exfalso. apply Hm. left. assumption. }
  destruct (field_lookup (split "^" channel_raw) 0 ltac:(lia)) as (f0 & L0 & ->).
  destruct (field_lookup (split "^" channel_raw) 1 ltac:(lia)) as (f1 & L1 & ->).
  destruct (field_lookup (split "^" channel_raw) 2 ltac:(lia)) as (f2 & L2 & ->).
  destruct (field_lookup (split "^" channel_raw) 3 ltac:(lia)) as (f3 & L3 & ->).
  destruct (field_lookup (split "^" channel_raw) 4 ltac:(lia)) as (f4 & L4 & ->).
  destruct (field_lookup (split "^" channel_raw) 5 ltac:(lia)) as (f5 & L5 & ->).
  destruct (field_lookup (split "^" channel_raw) 6 ltac:(lia)) as (f6 & L6 & ->).
  cbn [mbind result_bind].
  conv_Ok Hm. conv_Ok Hm. conv_Ok Hm. conv_Ok Hm.
  conv_Ok Hm.
  apply is_Ok_Ok.
Qed.

Section ChannelLoopReturns.
Context {C : Type}.
Variable record : string -> result (Z * C).

Lemma channel_loop_Ok channels : forall acc,
  is_Ok (channel_loop record acc channels) <->
  Forall (fun channel_raw => channel_raw = "" \/ is_Ok (record channel_raw))
    channels.
Proof.
  induction channels as [|channel_raw rest IH]; intros acc; simpl.
  - split; [constructor | intros _; apply is_Ok_Ok].
  - unfold str_eqb. case_bool_decide as Hempty.
    + rewrite IH. split.
      * intros H. constructor; [left; exact Hempty | exact H].
      * intros H. inversion H; assumption.
    + rewrite is_Ok_bind. split.
      * intros ([k c] & Hrec & H). constructor.
        -- right. eexists. exact Hrec.
        -- apply (IH (<[k := c]> acc)). exact H.
      * intros H. inversion H as [|? ? [Hne | [[k c] Hrec]] Hrest]; subst;
          [congruence|].
        exists (k, c). split; [exact Hrec|]. apply IH. exact Hrest.
Qed.

(** An entry of the map that the loop returns is the last record for its
    key, or the entry the map had before when no record has that key. *)
Lemma channel_loop_lookup channels : forall acc m k c,
  channel_loop record acc channels = Ok m ->
  m !! k = Some c <->
  last_record record channels k c
  \/ (acc !! k = Some c
      /\ forall j later c', channels !! j = Some later -> later <> "" ->
                            record later <> Ok (k, c')).
Proof.
  induction channels as [|channel_raw rest IH]; intros acc m k c; simpl.
  - intros H. injection H as <-. split.
    + intros H. right. split; [exact H|]. intros j later c' Hj. discriminate.
    + intros [(i & r & Hi & _) | [H _]]; [discriminate | exact H].
  - unfold str_eqb. case_bool_decide as Hempty.
    + intros H. rewrite (IH _ _ k c H). split.
      * intros [(i & r & Hi & Hne & Hrec & Hlast) | [Hacc Hnone]].
        -- left. exists (S i), r. repeat split; try assumption.
           intros j later c' Hij Hj. destruct j as [|j]; [lia|].
           apply (Hlast j later c'); [lia | exact Hj].
        -- right. split; [exact Hacc|]. intros j later c' Hj.
           destruct j as [|j]; simpl in Hj.
           ++ injection Hj as <-. congruence.
           ++ apply (Hnone j later c' Hj).
      * intros [(i & r & Hi & Hne & Hrec & Hlast) | [Hacc Hnone]].
        -- destruct i as [|i]; simpl in Hi; [congruence|].
           left. exists i, r. repeat split; try assumption.
           intros j later c' Hij Hj. apply (Hlast (S j) later c'); [lia | exact Hj].
        -- right. split; [exact Hacc|]. intros j later c' Hj.
           apply (Hnone (S j) later c'). exact Hj.
    + intros H. apply bind_Ok in H as ([k0 c0] & Hrec0 & H).
      rewrite (IH _ _ k c H). split.
      * intros [(i & r & Hi & Hne & Hrec & Hlast) | [Hacc Hnone]].
        -- left. exists (S i), r. repeat split; try assumption.
           intros j later c' Hij Hj. destruct j as [|j]; [lia|].
           apply (Hlast j later c'); [lia | exact Hj].
        -- apply lookup_insert_Some in Hacc as [[<- <-] | [Hk Hacc]].
           ++ left. exists 0, channel_raw. repeat split; try assumption.
              intros j later c' Hij Hj. destruct j as [|j]; [lia|].
              apply (Hnone j later c' Hj).
           ++ right. split; [exact Hacc|]. intros j later c' Hj.
              destruct j as [|j]; simpl in Hj.
              ** injection Hj as <-. intros _. rewrite Hrec0. congruence.
              ** apply (Hnone j later c' Hj).
      * intros [(i & r & Hi & Hne & Hrec & Hlast) | [Hacc Hnone]].
        -- destruct i as [|i]; simpl in Hi.
           ++ injection Hi as <-. right. split.
              ** rewrite Hrec in Hrec0. injection Hrec0 as <- <-.
                 apply lookup_insert_eq.
              ** intros j later c' Hj. apply (Hlast (S j) later c'); [lia | exact Hj].
           ++ left. exists i, r. repeat split; try assumption.
              intros j later c' Hij Hj.
              apply (Hlast (S j) later c'); [lia | exact Hj].
        -- right. split.
           ++ rewrite lookup_insert_ne; [exact Hacc|].
              intros <-. apply (Hnone 0 channel_raw c0 eq_refl Hempty Hrec0).
           ++ intros j later c' Hj. apply (Hnone (S j) later c'). exact Hj.
Qed.
End ChannelLoopReturns.

Lemma value_split_Ok v l :
  value_split "|+|" v = Ok l <-> exists s, v = VStr s /\ l = split "|+|" s.
Proof.
  destruct v; simpl; split; try discriminate;
    try (intros (s0 & E & _); discriminate).
  - intros H. injection H as <-. eexists. split; reflexivity.
  - intros (s0 & E & ->). injection E as <-. reflexivity.
Qed.

Lemma parse_uptime_value_Ok v n :
  parse_uptime_value v = Ok n <-> exists s, v = VStr s /\ parse_uptime s = Ok n.
Proof.
  destruct v; simpl; split; try discriminate;
    try (intros (s0 & E & _); discriminate).
  - intros H. eexists. split; [reflexivity | exact H].
  - intros (s0 & E & H). injection E as <-. exact H.
Qed.

(** The model is returned from three strings of the reply. *)
Lemma parse_mb8600_json_Ok data model :
  _parse_mb8600_json data = Ok model <->
  exists ds_blob us_blob uptime_str uptime,
    ds_path data = Ok (VStr ds_blob) /\ us_path data = Ok (VStr us_blob)
    /\ uptime_path data = Ok (VStr uptime_str)
    /\ channel_loop downstream_record ∅ (split "|+|" ds_blob)
       = Ok (downstream model)
    /\ channel_loop upstream_record ∅ (split "|+|" us_blob)
       = Ok (upstream model)
    /\ parse_uptime uptime_str = Ok uptime
    /\ system_uptime model = Some uptime.
Proof.
  unfold _parse_mb8600_json, ds_path, us_path, uptime_path. split.
  - intros H.
    apply bind_Ok in H as (ds_channels & Hds & H).
    apply bind_Ok in Hds as (dv & Hdv & Hds).
    apply value_split_Ok in Hds as (ds_blob & -> & ->).
    apply bind_Ok in H as (ds & Hloop & H).
    apply bind_Ok in H as (us_channels & Hus & H).
    apply bind_Ok in Hus as (uv & Huv & Hus).
    apply value_split_Ok in Hus as (us_blob & -> & ->).
    apply bind_Ok in H as (us & Hloop' & H).
    apply bind_Ok in H as (uptime_str & Hup & H).
    apply bind_Ok in H as (uptime & Hparse & H).
    apply parse_uptime_value_Ok in Hparse as (s & -> & Hparse).
    injection H as <-. simpl.
    exists ds_blob, us_blob, s, uptime. auto 10.
  - intros (ds_blob & us_blob & uptime_str & uptime & -> & -> & -> & Hds & Hus
            & Hup & Hsys).
    cbn [mbind result_bind value_split parse_uptime_value].
    rewrite Hds. cbn [mbind result_bind]. rewrite Hus. cbn [mbind result_bind].
    rewrite Hup. cbn [mbind result_bind].
    destruct model as [ds us up]. simpl in *. subst. reflexivity.
Qed.

Lemma well_formed_loop {C} (record : string -> result (Z * C))
    (malformed : string -> Prop) (blob : string) :
  (forall r, is_Ok (record r) <-> ~ malformed r) ->
  is_Ok (channel_loop record ∅ (split "|+|" blob))
  <-> well_formed malformed blob.
Proof.
  intros Hrec. rewrite channel_loop_Ok. unfold well_formed.
  apply Forall_iff. intros r. rewrite Hrec. reflexivity.
Qed.

Lemma downstream_record_Ok_iff r :
  is_Ok (downstream_record r) <-> ~ malformed_downstream r.
Proof.
  split; [|apply downstream_record_Ok].
  intros [x Hx]. eapply downstream_record_well_formed. exact Hx.
Qed.

Lemma upstream_record_Ok_iff r :
  is_Ok (upstream_record r) <-> ~ malformed_upstream r.
Proof.
  split; [|apply upstream_record_Ok].
  intros [x Hx]. eapply upstream_record_well_formed. exact Hx.
Qed.

(** The JSON parser returns a model exactly when the three key paths of
    the reply lead to strings, every non-empty record of the two channel
    strings has the fields of its direction, and [parse_uptime] accepts the
    uptime. *)
Theorem parse_mb8600_json_returns_iff (data : value) :
  is_Ok (_parse_mb8600_json data) <->
  exists ds_blob us_blob uptime_str,
    ds_path data = Ok (VStr ds_blob) /\ us_path data = Ok (VStr us_blob)
    /\ uptime_path data = Ok (VStr uptime_str)
    /\ well_formed malformed_downstream ds_blob
    /\ well_formed malformed_upstream us_blob
    /\ is_Ok (parse_uptime uptime_str).
Proof.
  split.
  - intros [model H]. apply parse_mb8600_json_Ok in H
      as (ds_blob & us_blob & uptime_str & uptime & Hd & Hu & Hup & Hds & Hus
          & Hparse & _).
    exists ds_blob, us_blob, uptime_str.
    repeat (split; [assumption|]). split; [|split].
    + apply (well_formed_loop downstream_record _ _ downstream_record_Ok_iff).
      eexists. exact Hds.
    + apply (well_formed_loop upstream_record _ _ upstream_record_Ok_iff).
      eexists. exact Hus.
    + eexists. exact Hparse.
  - intros (ds_blob & us_blob & uptime_str & Hd & Hu & Hup & Hds & Hus
            & [uptime Hparse]).
    apply (well_formed_loop downstream_record _ _ downstream_record_Ok_iff)
      in Hds as [ds Hds].
    apply (well_formed_loop upstream_record _ _ upstream_record_Ok_iff)
      in Hus as [us Hus].
    exists {| downstream := ds; upstream := us; system_uptime := Some uptime |}.
    apply parse_mb8600_json_Ok.
    exists ds_blob, us_blob, uptime_str, uptime. auto 10.
Qed.

(** When two records have the same channel number the later one is the
    entry: every entry of a map of the model is the last record of its
    channel string that has the entry's key. *)
Theorem json_last_record_wins (data : value) (model : ChannelModel) :
  _parse_mb8600_json data = Ok model ->
  exists ds_blob us_blob,
    ds_path data = Ok (VStr ds_blob) /\ us_path data = Ok (VStr us_blob)
    /\ (forall k c,
          downstream model !! k = Some c <->
          last_record downstream_record (split "|+|" ds_blob) k c)
    /\ (forall k c,
          upstream model !! k = Some c <->
          last_record upstream_record (split "|+|" us_blob) k c).
Proof.
  intros H. apply parse_mb8600_json_Ok in H
    as (ds_blob & us_blob & uptime_str & uptime & Hd & Hu & _ & Hds & Hus & _).
  exists ds_blob, us_blob. split; [exact Hd|]. split; [exact Hu|].
  split; intros k c.
  - rewrite (channel_loop_lookup _ _ _ _ k c Hds). split; [|auto].
    intros [H | [H _]]; [exact H|]. rewrite lookup_empty in H. discriminate.
  - rewrite (channel_loop_lookup _ _ _ _ k c Hus). split; [|auto].
    intros [H | [H _]]; [exact H|]. rewrite lookup_empty in H. discriminate.
Qed.

Lemma json_last_record_wins_witness :
  exists model,
    _parse_mb8600_json (hnap_response duplicate_blob "" "0 days 00h:00m:00s")
    = Ok model
    /\ Downstream.lock_status <$> downstream model !! 1%Z = Some "second"
    /\ exists ds_blob us_blob,
         ds_path (hnap_response duplicate_blob "" "0 days 00h:00m:00s")
         = Ok (VStr ds_blob)
         /\ us_path (hnap_response duplicate_blob "" "0 days 00h:00m:00s")
            = Ok (VStr us_blob)
         /\ (forall k c,
               downstream model !! k = Some c <->
               last_record downstream_record (split "|+|" ds_blob) k c)
         /\ (forall k c,
               upstream model !! k = Some c <->
               last_record upstream_record (split "|+|" us_blob) k c).
Proof.
  eexists. split; [vm_compute; reflexivity|].
  split; [vm_compute; reflexivity|].
  apply (json_last_record_wins
           (hnap_response duplicate_blob "" "0 days 00h:00m:00s")).
  vm_compute. reflexivity.
Defined.

Lemma getitem_str_raises v k e :
  getitem v (KStr k) = Raise e -> e = KeyError \/ e = TypeError.
Proof.
  destruct v; simpl; try (intros H; injection H as <-; auto).
  destruct (dict_get d (KStr k)); [discriminate|].
  intros H; injection H as <-; auto.
Qed.

Lemma path3_raises data k1 k2 k3 e :
  path3 data k1 k2 k3 = Raise e -> e = KeyError \/ e = TypeError.
Proof.
  unfold path3. intros H.
  apply bind_Raise in H as [H | (v1 & _ & H)];
    [eapply getitem_str_raises; exact H|].
  apply bind_Raise in H as [H | (v2 & _ & H)];
    eapply getitem_str_raises; exact H.
Qed.

Lemma value_split_raises v e :
  value_split "|+|" v = Raise e -> e = AttributeError /\ forall s, v <> VStr s.
Proof.
  destruct v; simpl; try discriminate; intros H; injection H as <-;
    (split; [reflexivity | discriminate]).
Qed.

Lemma parse_uptime_value_raises v e :
  parse_uptime_value v = Raise e ->
  (e = TypeError /\ forall s, v <> VStr s)
  \/ (e = ValueError /\ exists s, v = VStr s /\ parse_uptime s = Raise e).
Proof.
  destruct v; simpl;
    try (intros H; injection H as <-; left; split; [reflexivity | discriminate]).
  intros H. right. split; [eapply parse_uptime_raises; exact H|].
  eexists. split; [reflexivity | exact H].
Qed.

(** What the JSON parser raises, and why: a [KeyError] or a [TypeError]
    of one of the three key paths; an [AttributeError] when the value at a
    channel path is no string; a [TypeError] when the uptime is no string;
    or, once the downstream string is read, the [IndexError] or the
    [ValueError] of a record or of the uptime text. *)
Theorem json_parser_raise_causes (data : value) (e : exn) :
  _parse_mb8600_json data = Raise e ->
  ((e = KeyError \/ e = TypeError)
   /\ (ds_path data = Raise e \/ us_path data = Raise e
       \/ uptime_path data = Raise e))
  \/ (e = AttributeError
      /\ exists v, (ds_path data = Ok v \/ us_path data = Ok v)
                   /\ forall s, v <> VStr s)
  \/ (e = TypeError
      /\ exists v, uptime_path data = Ok v /\ forall s, v <> VStr s)
  \/ ((e = IndexError \/ e = ValueError)
      /\ exists ds_blob, ds_path data = Ok (VStr ds_blob)).
Proof.
  unfold _parse_mb8600_json. fold (ds_path data) (us_path data)
    (uptime_path data). intros H.
  apply bind_Raise in H as [H | (ds_channels & Hds & H)].
  { apply bind_Raise in H as [H | (v & Hv & H)].
    - left. split; [eapply path3_raises; exact H | left; exact H].
    - apply value_split_raises in H as [-> Hv'].
      right. left. split; [reflexivity|]. exists v. auto. }
  apply bind_Ok in Hds as (dv & Hdv & Hds).
  apply value_split_Ok in Hds as (ds_blob & -> & ->).
  apply bind_Raise in H as [H | (ds & _ & H)].
  { right. right. right. split; [|eexists; exact Hdv].
    eapply channel_loop_raises; [|exact H]. exact downstream_record_raises. }
  apply bind_Raise in H as [H | (us_channels & Hus & H)].
  { apply bind_Raise in H as [H | (v & Hv & H)].
    - left. split; [eapply path3_raises; exact H | right; left; exact H].
    - apply value_split_raises in H as [-> Hv'].
      right. left. split; [reflexivity|]. exists v. auto. }
  apply bind_Raise in H as [H | (us & _ & H)].
  { right. right. right. split; [|eexists; exact Hdv].
    eapply channel_loop_raises; [|exact H]. exact upstream_record_raises. }
  apply bind_Raise in H as [H | (uptime_str & Hup & H)].
  { left. split; [eapply path3_raises; exact H | right; right; exact H]. }
  apply bind_Raise in H as [H | (uptime & _ & H)]; [|discriminate].
  apply parse_uptime_value_raises in H as [[-> Hv] | [-> _]].
  - right. right. left. split; [reflexivity|]. exists uptime_str. auto.
  - right. right. right. split; [right; reflexivity | eexists; exact Hdv].
Qed.

Lemma json_parser_raise_causes_witness :
  ((KeyError = KeyError \/ KeyError = TypeError)
   /\ (ds_path (VDict []) = Raise KeyError \/ us_path (VDict []) = Raise KeyError
       \/ uptime_path (VDict []) = Raise KeyError))
  \/ (KeyError = AttributeError
      /\ exists v, (ds_path (VDict []) = Ok v \/ us_path (VDict []) = Ok v)
                   /\ forall s, v <> VStr s)
  \/ (KeyError = TypeError
      /\ exists v, uptime_path (VDict []) = Ok v /\ forall s, v <> VStr s)
  \/ ((KeyError = IndexError \/ KeyError = ValueError)
      /\ exists ds_blob, ds_path (VDict []) = Ok (VStr ds_blob)).
Proof. apply (json_parser_raise_causes (VDict []) KeyError). reflexivity. Defined.

Lemma prefix_caret c s :
  String.prefix "^" (String c s) = bool_decide (c = "^"%char).
Proof.
  change (String.prefix "^" (String c s))
    with (if ascii_dec "^" c then String.prefix "" s else false).
  destruct (ascii_dec "^" c) as [<-|Hc].
  - destruct s; reflexivity.
  - rewrite bool_decide_eq_false_2 by congruence. reflexivity.
Qed.

Lemma split_caret_app a : forall cur b,
  split_from "^" 0 cur (a +:+ "^" +:+ b)
  = split_from "^" 0 cur a ++ split "^" b.
Proof.
  induction a as [|c a IH]; intros cur b.
  - rewrite append_nil. change ("^" +:+ b) with (String "^" b).
    cbn [split_from]. rewrite prefix_caret, bool_decide_eq_true_2 by reflexivity.
    reflexivity.
  - rewrite append_cons. cbn [split_from]. rewrite !prefix_caret.
    case_bool_decide; rewrite IH; reflexivity.
Qed.

Lemma field_app l l' k : k < length l -> field (l ++ l') k = field l k.
Proof. intros H. unfold field. rewrite lookup_app_l by exact H. reflexivity. Qed.

(** Fields after the ones a direction requires are not read: a record
    that has them is accepted, and gives the same entry. *)
Theorem trailing_fields_ignored (channel_raw extra : string) :
  (9 <= length (split "^" channel_raw) ->
   downstream_record (channel_raw +:+ "^" +:+ extra)
   = downstream_record channel_raw)
  /\ (7 <= length (split "^" channel_raw) ->
      upstream_record (channel_raw +:+ "^" +:+ extra)
      = upstream_record channel_raw).
Proof.
  split; intros Hlen.
  - unfold downstream_record, split. rewrite split_caret_app.
    fold (split "^" channel_raw). rewrite !field_app by lia. reflexivity.
  - unfold upstream_record, split. rewrite split_caret_app.
    fold (split "^" channel_raw). rewrite !field_app by lia. reflexivity.
Qed.

Lemma trailing_fields_ignored_witness :
  downstream_record ("1^locked^QAM256^5^549.0^5.1^40.2^0^0" +:+ "^" +:+ "x^y")
  = downstream_record "1^locked^QAM256^5^549.0^5.1^40.2^0^0"
  /\ upstream_record ("1^Locked^SC-QAM^1^5120^17.8^45.0" +:+ "^" +:+ "")
     = upstream_record "1^Locked^SC-QAM^1^5120^17.8^45.0".
Proof.
  split.
  - apply (proj1 (trailing_fields_ignored
                    "1^locked^QAM256^5^549.0^5.1^40.2^0^0" "x^y")).
    vm_compute. lia.
  - apply (proj2 (trailing_fields_ignored
                    "1^Locked^SC-QAM^1^5120^17.8^45.0" "")).
    vm_compute. lia.
Defined.

(** ** The pieces of a run of digits *)

Lemma window_read giant_id i :
  all_digits giant_id = true -> i + 2 < String.length giant_id ->
  is_Ok (py_int (slice giant_id i (i + 3))).
Proof.
  intros Hd Hi. unfold slice. replace (i + 3 - i) with 3 by lia.
  eexists. apply py_int_all_digits.
  - apply all_digits_substring, Hd.
  - intros E. pose proof (length_substring giant_id i 3 ltac:(lia)) as Hl.
    rewrite E in Hl. discriminate.
Qed.

Lemma take_drop_step {A} (l : list A) (i m : nat) :
  take m (drop i l) ++ drop (i + m) l = drop i l.
Proof. rewrite <- drop_drop. apply take_drop. Qed.

Lemma split_giant_loop_partition giant_id :
  all_digits giant_id = true ->
  forall fuel i values,
    i <= String.length giant_id -> String.length giant_id - i <= fuel ->
    exists chunks,
      split_giant_loop fuel giant_id i values = Ok (values ++ chunks)
      /\ concat (map list_ascii_of_string chunks)
         = drop i (list_ascii_of_string giant_id)
      /\ Forall (fun chunk => String.length chunk = 1
                              \/ String.length chunk = 2) chunks.
Proof.
  intros Hd. induction fuel as [|fuel IH]; intros i values Hi Hfuel.
  - exists []. rewrite app_nil_r. split; [reflexivity|]. split; [|constructor].
    rewrite drop_ge; [reflexivity | rewrite length_list_ascii; lia].
  - rewrite split_giant_loop_step.
    destruct (i <? String.length giant_id)%nat eqn:Hlt.
    2: { apply Nat.ltb_ge in Hlt. exists []. rewrite app_nil_r.
         split; [reflexivity|]. split; [|constructor].
         rewrite drop_ge; [reflexivity | rewrite length_list_ascii; lia]. }
    apply Nat.ltb_lt in Hlt.
    assert (Htwo : exists two : bool,
              (if (i + 2 <? String.length giant_id)%nat
               then n ← py_int (slice giant_id i (i + 3)); Ok (n <? 100)%Z
               else Ok false) = Ok two
              /\ (two = true -> i + 2 < String.length giant_id)).
    { destruct (i + 2 <? String.length giant_id)%nat eqn:H2.
      - apply Nat.ltb_lt in H2.
        destruct (window_read giant_id i Hd H2) as [n ->].
        eexists. split; [reflexivity | intros _; exact H2].
      - exists false. split; [reflexivity | discriminate]. }
    destruct Htwo as (two & -> & Htwo). cbn [mbind result_bind].
    destruct two.
    + specialize (Htwo eq_refl).
      destruct (IH (i + 2) (values ++ [slice giant_id i (i + 2)])
                  ltac:(lia) ltac:(lia)) as (chunks & Hloop & Hcat & Hall).
      exists (slice giant_id i (i + 2) :: chunks).
      split; [rewrite Hloop, <- app_assoc; reflexivity|]. split.
      * cbn [map concat]. rewrite Hcat. unfold slice.
        rewrite list_ascii_substring. replace (i + 2 - i) with 2 by lia.
        apply take_drop_step.
      * constructor; [|exact Hall]. right. unfold slice.
        replace (i + 2 - i) with 2 by lia. apply length_substring. lia.
    + destruct (IH (i + 1) (values ++ [slice giant_id i (i + 1)])
                  ltac:(lia) ltac:(lia)) as (chunks & Hloop & Hcat & Hall).
      exists (slice giant_id i (i + 1) :: chunks).
      split; [rewrite Hloop, <- app_assoc; reflexivity|]. split.
      * cbn [map concat]. rewrite Hcat. unfold slice.
        rewrite list_ascii_substring. replace (i + 1 - i) with 1 by lia.
        apply take_drop_step.
      * constructor; [|exact Hall]. left. unfold slice.
        replace (i + 1 - i) with 1 by lia. apply length_substring. lia.
Qed.

(** The heuristic loses no digit: a run of digits is cut into pieces of
    one or two digits that, put together again, are the run. *)
Theorem split_giant_id_partition (giant_id : string) :
  all_digits giant_id = true ->
  exists chunks,
    split_giant_id giant_id = Ok chunks
    /\ join chunks = giant_id
    /\ Forall (fun chunk => String.length chunk = 1
                            \/ String.length chunk = 2) chunks.
Proof.
  intros Hd. unfold split_giant_id.
  destruct (split_giant_loop_partition giant_id Hd (String.length giant_id) 0 []
              ltac:(lia) ltac:(lia)) as (chunks & Hloop & Hcat & Hall).
  exists chunks. split; [exact Hloop|]. split; [|exact Hall].
  apply list_ascii_inj. rewrite list_ascii_join, Hcat. reflexivity.
Qed.

Lemma split_giant_id_partition_witness :
  exists chunks,
    split_giant_id "0102345" = Ok chunks
    /\ join chunks = "0102345"
    /\ Forall (fun chunk => String.length chunk = 1
                            \/ String.length chunk = 2) chunks.
Proof. apply (split_giant_id_partition "0102345"). reflexivity. Defined.

(** ** The entries of the HTML parser, field by field *)

Lemma value_at_cons value rest i k :
  value_at (value :: rest) i k
  = if bool_decide (k = (Z.of_nat i + 1)%Z) then Some value
    else value_at rest (S i) k.
Proof.
  unfold value_at. case_bool_decide as Hk.
  - subst k. rewrite (proj2 (Z.leb_le _ _)) by lia.
    replace (Z.to_nat (Z.of_nat i + 1 - 1) - i) with 0 by lia. reflexivity.
  - destruct (Z.leb_spec (Z.of_nat i + 1) k) as [H1|H1].
    + rewrite (proj2 (Z.leb_le _ _)) by lia.
      replace (Z.to_nat (k - 1) - i) with (S (Z.to_nat (k - 1) - S i)) by lia.
      reflexivity.
    + rewrite (proj2 (Z.leb_gt _ _)) by lia. reflexivity.
Qed.

Lemma value_at_nil i k : value_at [] i k = None.
Proof. unfold value_at. destruct (_ <=? _)%Z; reflexivity. Qed.

Lemma channel_id_at_int_or channel_ids i :
  channel_id_at channel_ids i
  = Ok (int_or (value_at channel_ids 0 (Z.of_nat i + 1))
          (Z.of_nat i + 1)).
Proof.
  unfold channel_id_at, value_at, int_or.
  rewrite (proj2 (Z.leb_le _ _)) by lia.
  replace (Z.to_nat (Z.of_nat i + 1 - 1) - 0) with i by lia.
  destruct (channel_ids !! i) as [text|]; [|reflexivity].
  destruct (py_int text) as [n|e] eqn:Hn; [reflexivity|].
  apply py_int_raises in Hn as ->. reflexivity.
Qed.

Lemma dict_get_notin {V} (items : list (string * V)) (k : string) :
  k ∉ map fst items -> dict_get items k = None.
Proof.
  induction items as [|[h v] rest IH]; [reflexivity|].
  cbn [map fst dict_get]. intros H. apply not_elem_of_cons in H as [Hne H].
  rewrite bool_decide_eq_false_2 by congruence. apply IH, H.
Qed.

Section ChannelsLookup.
Context {C : Type}.
Variable new_channel : Z -> Z -> C.
Variable set_value : string -> string -> C -> result C.

Lemma create_channels_lookup channel_ids n : forall a channels m,
  create_channels new_channel channel_ids channels (seq a n) = Ok m ->
  forall k,
    m !! k
    = if (Z.of_nat a + 1 <=? k)%Z && (k <=? Z.of_nat (a + n))%Z
      then Some (new_channel k (int_or (value_at channel_ids 0 k) k))
      else channels !! k.
Proof.
  induction n as [|n IH]; intros a channels m; simpl.
  - intros H k. injection H as <-.
    destruct (Z.leb_spec (Z.of_nat a + 1) k), (Z.leb_spec k (Z.of_nat (a + 0)));
      simpl; try reflexivity. exfalso. lia.
  - rewrite channel_id_at_int_or. cbn [mbind result_bind].
    intros H k. rewrite (IH _ _ _ H k).
    destruct (Z.leb_spec (Z.of_nat (S a) + 1) k),
      (Z.leb_spec k (Z.of_nat (S a + n))),
      (Z.leb_spec (Z.of_nat a + 1) k),
      (Z.leb_spec k (Z.of_nat (a + S n))); simpl;
      first [ reflexivity
            | exfalso; lia
            | rewrite lookup_insert_ne by lia; reflexivity
            | assert (k = (Z.of_nat a + 1)%Z) as -> by lia;
              rewrite lookup_insert_eq; reflexivity ].
Qed.

Lemma set_row_lookup header values : forall channels i m,
  set_row set_value header channels i values = Ok m ->
  forall k,
    m !! k = apply_value set_value header (value_at values i k)
               <$> channels !! k.
Proof.
  induction values as [|value rest IH]; intros channels i m; simpl.
  - intros H k. injection H as <-. rewrite value_at_nil.
    destruct (channels !! k); reflexivity.
  - destruct (channels !! (Z.of_nat i + 1)%Z) as [c|] eqn:Hc.
    + intros H. apply bind_Ok in H as (c' & Hset & H).
      intros k. rewrite (IH _ _ _ H k), value_at_cons.
      case_bool_decide as Hk.
      * subst k. rewrite lookup_insert_eq, Hc. simpl.
        unfold value_at. rewrite (proj2 (Z.leb_gt _ _)) by lia.
        simpl. rewrite Hset. reflexivity.
      * rewrite lookup_insert_ne by congruence. reflexivity.
    + intros H k. rewrite (IH _ _ _ H k), value_at_cons.
      case_bool_decide as Hk; [|reflexivity].
      subst k. rewrite Hc. reflexivity.
Qed.

Lemma entry_of_rows_cons header values rest k c :
  entry_of_rows set_value ((header, values) :: rest) k c
  = entry_of_rows set_value rest k
      (if str_eqb header "Channel ID" then c
       else apply_value set_value header (value_at values 0 k) c).
Proof. reflexivity. Qed.

Lemma set_rows_lookup items : forall channels m,
  set_rows set_value channels items = Ok m ->
  forall k, m !! k = entry_of_rows set_value items k <$> channels !! k.
Proof.
  induction items as [|[header values] rest IH]; intros channels m;
    cbn [set_rows].
  - intros H k. injection H as <-. destruct (channels !! k); reflexivity.
  - destruct (str_eqb header "Channel ID") eqn:Hid.
    + intros H k. rewrite (IH _ _ H k).
      destruct (channels !! k) as [c|]; [|reflexivity].
      cbn [fmap option_fmap option_map].
      rewrite entry_of_rows_cons, Hid. reflexivity.
    + intros H. apply bind_Ok in H as (channels' & Hrow & H).
      intros k. rewrite (IH _ _ H k), (set_row_lookup _ _ _ _ _ Hrow k).
      destruct (channels !! k) as [c|]; [|reflexivity].
      cbn [fmap option_fmap option_map].
      rewrite entry_of_rows_cons, Hid. reflexivity.
Qed.

(** A field that one header sets. *)
Section Field.
Context {A : Type}.
Variable proj : C -> A.
Variable hd : string.
Variable upd : string -> A -> A.
Hypothesis hd_not_id : hd <> "Channel ID".
Hypothesis own : forall value c,
  proj (apply_value set_value hd (Some value) c) = upd value (proj c).
Hypothesis other : forall header value c,
  header <> hd -> proj (apply_value set_value header (Some value) c) = proj c.

Lemma entry_of_rows_other items k : forall c,
  dict_get items hd = None ->
  proj (entry_of_rows set_value items k c) = proj c.
Proof.
  induction items as [|[header values] rest IH]; intros c; [reflexivity|].
  cbn [dict_get]. case_bool_decide as Hh; [discriminate|]. intros Hget.
  rewrite entry_of_rows_cons, IH by exact Hget.
  destruct (str_eqb header "Channel ID"); [reflexivity|].
  destruct (value_at values 0 k) as [v|]; [|reflexivity].
  apply other. exact Hh.
Qed.

Lemma entry_of_rows_field items k : forall c,
  NoDup (map fst items) ->
  proj (entry_of_rows set_value items k c)
  = match dict_get items hd ≫= (fun values => value_at values 0 k) with
    | Some value => upd value (proj c)
    | None => proj c
    end.
Proof.
  induction items as [|[header values] rest IH]; intros c Hnd; [reflexivity|].
  inversion Hnd as [|? ? Hnotin Hnd']; subst.
  rewrite entry_of_rows_cons. cbn [dict_get]. case_bool_decide as Hh.
  - subst header. unfold str_eqb.
    rewrite bool_decide_eq_false_2 by exact hd_not_id.
    rewrite entry_of_rows_other.
    + cbn [mbind option_bind].
      destruct (value_at values 0 k) as [v|]; [apply own | reflexivity].
    + apply dict_get_notin. exact Hnotin.
  - rewrite IH by exact Hnd'.
    assert (Hstep : proj (if str_eqb header "Channel ID" then c
                          else apply_value set_value header
                                 (value_at values 0 k) c) = proj c).
    { destruct (str_eqb header "Channel ID"); [reflexivity|].
      destruct (value_at values 0 k) as [v|]; [|reflexivity].
      apply other. exact Hh. }
    rewrite Hstep. reflexivity.
Qed.
End Field.

(** A field that no header sets. *)
Lemma entry_of_rows_kept {A} (proj : C -> A) items k :
  (forall header value c,
     proj (apply_value set_value header (Some value) c) = proj c) ->
  forall c, proj (entry_of_rows set_value items k c) = proj c.
Proof.
  intros Hkeep. induction items as [|[header values] rest IH]; intros c;
    [reflexivity|].
  rewrite entry_of_rows_cons, IH. destruct (str_eqb header "Channel ID"); [reflexivity|].
  destruct (value_at values 0 k) as [v|]; [apply Hkeep | reflexivity].
Qed.
End ChannelsLookup.

Lemma map_fst_dict_set {V} (d : list (string * V)) (k : string) (v : V) :
  map fst (dict_set d k v)
  = if bool_decide (k ∈ map fst d) then map fst d else map fst d ++ [k].
Proof.
  induction d as [|[k' v'] d IH]; [reflexivity|].
  cbn [dict_set map fst]. destruct (decide (k' = k)) as [Hk|Hk].
  - subst k'. rewrite (bool_decide_eq_true_2 (k = k)) by reflexivity.
    rewrite bool_decide_eq_true_2 by apply list_elem_of_here.
    reflexivity.
  - rewrite (bool_decide_eq_false_2 (k' = k)) by exact Hk.
    cbn [map fst]. rewrite IH.
    destruct (decide (k ∈ map fst d)) as [Hin|Hin].
    + rewrite (bool_decide_eq_true_2 _ Hin).
      rewrite bool_decide_eq_true_2 by (apply list_elem_of_further, Hin).
      reflexivity.
    + rewrite (bool_decide_eq_false_2 _ Hin).
      rewrite bool_decide_eq_false_2; [reflexivity|].
      intros H. apply elem_of_cons in H as [H|H]; [congruence | tauto].
Qed.

Lemma NoDup_dict_set {V} (d : list (string * V)) (k : string) (v : V) :
  NoDup (map fst d) -> NoDup (map fst (dict_set d k v)).
Proof.
  intros H. rewrite map_fst_dict_set. case_bool_decide as Hin; [exact H|].
  apply NoDup_app. split; [exact H|]. split.
  - intros x Hx Hx'. apply list_elem_of_singleton in Hx'. subst. tauto.
  - apply NoDup_singleton.
Qed.

(** The headers of the gathered rows are distinct: a header that comes
    again replaces the row read before. *)
Lemma gather_rows_NoDup row_values rows : forall data data',
  NoDup (map fst data) ->
  gather_rows row_values data rows = Ok data' -> NoDup (map fst data').
Proof.
  induction rows as [|row rest IH]; intros data data' Hnd; simpl.
  - intros H. injection H as <-. exact Hnd.
  - destruct (find "th" (children row)) as [th|]; [|apply IH; exact Hnd].
    intros H. apply bind_Ok in H as (values & _ & H).
    eapply IH; [|exact H]. apply NoDup_dict_set, Hnd.
Qed.

Lemma fold_left_max l : forall x, fold_left Nat.max l x = Nat.max x (fold_right Nat.max 0 l).
Proof.
  induction l as [|y l IH]; intros x; simpl; [lia|]. rewrite IH. lia.
Qed.

Lemma num_channels_longest data num :
  num_channels data = Ok num -> num = longest_row data.
Proof.
  unfold num_channels, py_max, longest_row.
  destruct data as [|item data]; simpl; [discriminate|].
  intros H. injection H as <-. apply fold_left_max.
Qed.

Lemma downstream_eta (c : Downstream.t) :
  c = {| Downstream.channel := Downstream.channel c;
         Downstream.lock_status := Downstream.lock_status c;
         Downstream.modulation := Downstream.modulation c;
         Downstream.channel_id := Downstream.channel_id c;
         Downstream.frequency := Downstream.frequency c;
         Downstream.power := Downstream.power c;
         Downstream.snr := Downstream.snr c;
         Downstream.corrected_errors := Downstream.corrected_errors c;
         Downstream.uncorrected_errors := Downstream.uncorrected_errors c |}.
Proof. destruct c; reflexivity. Qed.

Lemma upstream_eta (c : Upstream.t) :
  c = {| Upstream.channel := Upstream.channel c;
         Upstream.lock_status := Upstream.lock_status c;
         Upstream.modulation := Upstream.modulation c;
         Upstream.channel_id := Upstream.channel_id c;
         Upstream.symbol_rate := Upstream.symbol_rate c;
         Upstream.frequency := Upstream.frequency c;
         Upstream.power := Upstream.power c |}.
Proof. destruct c; reflexivity. Qed.

Lemma frequency_step_or {C} (set : spec_float -> C -> C) (get : C -> spec_float)
    (value : string) (c : C) :
  set (get c) c = c ->
  (freq ← frequency_of value; Ok (from_option (fun f => set f c) c freq))
  = Ok (set (frequency_or (Some value) (get c)) c).
Proof.
  intros Heta. unfold frequency_or.
  destruct (frequency_of_Ok value) as [[f|] ->]; cbn; [reflexivity|].
  rewrite Heta. reflexivity.
Qed.

Lemma number_step {C} (set : spec_float -> C -> C) (get : C -> spec_float)
    (pattern : string -> option (string * string)) (value : string) (c : C) :
  set (get c) c = c ->
  (forall number r, pattern value = Some (number, r) -> is_Ok (py_float number)) ->
  match pattern value with
  | Some (number, _) => f ← py_float number; Ok (set f c)
  | None => Ok c
  end = Ok (set (number_or pattern (Some value) (get c)) c).
Proof.
  intros Heta Hp. unfold number_or.
  destruct (pattern value) as [[number r]|] eqn:Hn; [|rewrite Heta; reflexivity].
  destruct (Hp number r eq_refl) as [f ->]. reflexivity.
Qed.

(** What one value does to a downstream entry, header by header. *)
Lemma set_downstream_value_spec header value c :
  set_downstream_value header value c
  = Ok (if str_eqb header "Lock Status" then
          Downstream.set_lock_status value c
        else if str_eqb header "Frequency" then
          Downstream.set_frequency
            (frequency_or (Some value) (Downstream.frequency c)) c
        else if str_eqb header "SNR" then
          Downstream.set_snr
            (number_or match_number (Some value) (Downstream.snr c)) c
        else if str_eqb header "Power Level" then
          Downstream.set_power
            (number_or match_signed_number (Some value) (Downstream.power c)) c
        else if str_eqb header "Modulation" then
          Downstream.set_modulation value c
        else c).
Proof.
  unfold set_downstream_value.
  destruct (str_eqb header "Lock Status"); [reflexivity|].
  destruct (str_eqb header "Frequency").
  { apply (frequency_step_or Downstream.set_frequency Downstream.frequency).
    destruct c; reflexivity. }
  destruct (str_eqb header "SNR").
  { apply (number_step Downstream.set_snr Downstream.snr match_number).
    - destruct c; reflexivity.
    - intros number r H. apply match_number_plain in H.
      apply (py_float_plain number false H). }
  destruct (str_eqb header "Power Level").
  { apply (number_step Downstream.set_power Downstream.power
             match_signed_number).
    - destruct c; reflexivity.
    - apply match_signed_number_Ok. }
  destruct (str_eqb header "Modulation"); reflexivity.
Qed.

Lemma set_upstream_value_spec header value c :
  set_upstream_value header value c
  = Ok (if str_eqb header "Lock Status" then
          Upstream.set_lock_status value c
        else if str_eqb header "Frequency" then
          Upstream.set_frequency
            (frequency_or (Some value) (Upstream.frequency c)) c
        else if str_eqb header "Symbol Rate" then
          Upstream.set_symbol_rate
            (digits_or (Some value) (Upstream.symbol_rate c)) c
        else if str_eqb header "Power Level" then
          Upstream.set_power
            (number_or match_signed_number (Some value) (Upstream.power c)) c
        else if str_eqb header "Modulation" then
          Upstream.set_modulation value c
        else c).
Proof.
  unfold set_upstream_value.
  destruct (str_eqb header "Lock Status"); [reflexivity|].
  destruct (str_eqb header "Frequency").
  { apply (frequency_step_or Upstream.set_frequency Upstream.frequency).
    destruct c; reflexivity. }
  destruct (str_eqb header "Symbol Rate").
  { unfold digits_or, int_or.
    destruct (match_digits value) as [[number r]|] eqn:Hn;
      [|destruct c; reflexivity].
    apply match_digits_Some in Hn as [Hne Hd].
    rewrite (py_int_all_digits number Hd Hne). reflexivity. }
  destruct (str_eqb header "Power Level").
  { apply (number_step Upstream.set_power Upstream.power
             match_signed_number).
    - destruct c; reflexivity.
    - apply match_signed_number_Ok. }
  destruct (str_eqb header "Modulation"); reflexivity.
Qed.

Ltac header_cases :=
  unfold str_eqb; repeat case_bool_decide; simplify_eq; try reflexivity.

Lemma downstream_entry_of_rows data k id :
  NoDup (map fst data) ->
  entry_of_rows set_downstream_value data k (new_downstream k id)
  = {| Downstream.channel := k;
       Downstream.lock_status := default "" (cell data "Lock Status" k);
       Downstream.modulation := default "" (cell data "Modulation" k);
       Downstream.channel_id := id;
       Downstream.frequency :=
         frequency_or (cell data "Frequency" k) (S754_zero false);
       Downstream.power :=
         number_or match_signed_number (cell data "Power Level" k)
           (S754_zero false);
       Downstream.snr :=
         number_or match_number (cell data "SNR" k) (S754_zero false);
       Downstream.corrected_errors := 0;
       Downstream.uncorrected_errors := 0 |}.
Proof.
  intros Hnd.
  rewrite (downstream_eta (entry_of_rows _ data k _)).
  assert (Hkeep : forall {A} (proj : Downstream.t -> A),
            (forall header value c,
               proj (apply_value set_downstream_value header (Some value) c)
               = proj c) ->
            proj (entry_of_rows set_downstream_value data k
                    (new_downstream k id))
            = proj (new_downstream k id)).
  { intros A proj H. apply entry_of_rows_kept. exact H. }
  assert (Hfield : forall {A} (proj : Downstream.t -> A) hd upd,
            hd <> "Channel ID" ->
            (forall value c,
               proj (apply_value set_downstream_value hd (Some value) c)
               = upd value (proj c)) ->
            (forall header value c, header <> hd ->
               proj (apply_value set_downstream_value header (Some value) c)
               = proj c) ->
            proj (entry_of_rows set_downstream_value data k
                    (new_downstream k id))
            = match cell data hd k with
              | Some value => upd value (proj (new_downstream k id))
              | None => proj (new_downstream k id)
              end).
  { intros A proj hd upd H1 H2 H3.
    apply (entry_of_rows_field set_downstream_value proj hd upd H1 H2 H3).
    exact Hnd. }
  f_equal.
  - apply Hkeep. intros header value c. unfold apply_value.
    rewrite set_downstream_value_spec. header_cases.
  - rewrite (Hfield _ Downstream.lock_status "Lock Status" (fun v _ => v));
      [destruct (cell data "Lock Status" k); reflexivity | discriminate | |];
      intros; unfold apply_value; rewrite set_downstream_value_spec;
      header_cases.
  - rewrite (Hfield _ Downstream.modulation "Modulation" (fun v _ => v));
      [destruct (cell data "Modulation" k); reflexivity | discriminate | |];
      intros; unfold apply_value; rewrite set_downstream_value_spec;
      header_cases.
  - apply Hkeep. intros header value c. unfold apply_value.
    rewrite set_downstream_value_spec. header_cases.
  - rewrite (Hfield _ Downstream.frequency "Frequency"
               (fun v old => frequency_or (Some v) old));
      [destruct (cell data "Frequency" k); reflexivity | discriminate | |];
      intros; unfold apply_value; rewrite set_downstream_value_spec;
      header_cases.
  - rewrite (Hfield _ Downstream.power "Power Level"
               (fun v old => number_or match_signed_number (Some v) old));
      [destruct (cell data "Power Level" k); reflexivity | discriminate | |];
      intros; unfold apply_value; rewrite set_downstream_value_spec;
      header_cases.
  - rewrite (Hfield _ Downstream.snr "SNR"
               (fun v old => number_or match_number (Some v) old));
      [destruct (cell data "SNR" k); reflexivity | discriminate | |];
      intros; unfold apply_value; rewrite set_downstream_value_spec;
      header_cases.
  - apply Hkeep. intros header value c. unfold apply_value.
    rewrite set_downstream_value_spec. header_cases.
  - apply Hkeep. intros header value c. unfold apply_value.
    rewrite set_downstream_value_spec. header_cases.
Qed.

Lemma upstream_entry_of_rows data k id :
  NoDup (map fst data) ->
  entry_of_rows set_upstream_value data k (new_upstream k id)
  = {| Upstream.channel := k;
       Upstream.lock_status := default "" (cell data "Lock Status" k);
       Upstream.modulation := default "" (cell data "Modulation" k);
       Upstream.channel_id := id;
       Upstream.symbol_rate := digits_or (cell data "Symbol Rate" k) 0;
       Upstream.frequency :=
         frequency_or (cell data "Frequency" k) (S754_zero false);
       Upstream.power :=
         number_or match_signed_number (cell data "Power Level" k)
           (S754_zero false) |}.
Proof.
  intros Hnd.
  rewrite (upstream_eta (entry_of_rows _ data k _)).
  assert (Hkeep : forall {A} (proj : Upstream.t -> A),
            (forall header value c,
               proj (apply_value set_upstream_value header (Some value) c)
               = proj c) ->
            proj (entry_of_rows set_upstream_value data k
                    (new_upstream k id))
            = proj (new_upstream k id)).
  { intros A proj H. apply entry_of_rows_kept. exact H. }
  assert (Hfield : forall {A} (proj : Upstream.t -> A) hd upd,
            hd <> "Channel ID" ->
            (forall value c,
               proj (apply_value set_upstream_value hd (Some value) c)
               = upd value (proj c)) ->
            (forall header value c, header <> hd ->
               proj (apply_value set_upstream_value header (Some value) c)
               = proj c) ->
            proj (entry_of_rows set_upstream_value data k
                    (new_upstream k id))
            = match cell data hd k with
              | Some value => upd value (proj (new_upstream k id))
              | None => proj (new_upstream k id)
              end).
  { intros A proj hd upd H1 H2 H3.
    apply (entry_of_rows_field set_upstream_value proj hd upd H1 H2 H3).
    exact Hnd. }
  f_equal.
  - apply Hkeep. intros header value c. unfold apply_value.
    rewrite set_upstream_value_spec. header_cases.
  - rewrite (Hfield _ Upstream.lock_status "Lock Status" (fun v _ => v));
      [destruct (cell data "Lock Status" k); reflexivity | discriminate | |];
      intros; unfold apply_value; rewrite set_upstream_value_spec;
      header_cases.
  - rewrite (Hfield _ Upstream.modulation "Modulation" (fun v _ => v));
      [destruct (cell data "Modulation" k); reflexivity | discriminate | |];
      intros; unfold apply_value; rewrite set_upstream_value_spec;
      header_cases.
  - apply Hkeep. intros header value c. unfold apply_value.
    rewrite set_upstream_value_spec. header_cases.
  - rewrite (Hfield _ Upstream.symbol_rate "Symbol Rate"
               (fun v old => digits_or (Some v) old));
      [destruct (cell data "Symbol Rate" k); reflexivity | discriminate | |];
      intros; unfold apply_value; rewrite set_upstream_value_spec;
      header_cases.
  - rewrite (Hfield _ Upstream.frequency "Frequency"
               (fun v old => frequency_or (Some v) old));
      [destruct (cell data "Frequency" k); reflexivity | discriminate | |];
      intros; unfold apply_value; rewrite set_upstream_value_spec;
      header_cases.
  - rewrite (Hfield _ Upstream.power "Power Level"
               (fun v old => number_or match_signed_number (Some v) old));
      [destruct (cell data "Power Level" k); reflexivity | discriminate | |];
      intros; unfold apply_value; rewrite set_upstream_value_spec;
      header_cases.
Qed.

Section ChannelTableLookup.
Context {C : Type}.
Variable new_channel : Z -> Z -> C.
Variable set_value : string -> string -> C -> result C.

Lemma parse_channel_table_lookup table m :
  parse_channel_table new_channel set_value table = Ok m ->
  exists data,
    table_rows table = Ok data /\ NoDup (map fst data)
    /\ forall k,
         m !! k
         = if (1 <=? k)%Z && (k <=? Z.of_nat (channel_count data))%Z
           then Some (entry_of_rows set_value data k
                        (new_channel k (int_or (cell data "Channel ID" k) k)))
           else None.
Proof.
  unfold parse_channel_table. fold (table_rows table). intros H.
  apply bind_Ok in H as (data & Hdata & H).
  apply bind_Ok in H as (num & Hnum & H).
  apply num_channels_longest in Hnum.
  exists data. split; [exact Hdata|]. split.
  { eapply gather_rows_NoDup; [|exact Hdata]. constructor. }
  intros k. unfold channel_count, cell.
  destruct (dict_get data "Channel ID") as [[|id ids]|] eqn:Hids.
  1, 3: injection H as <-; rewrite lookup_empty;
    destruct (Z.leb_spec 1 k), (Z.leb_spec k (Z.of_nat 0)); simpl;
    first [reflexivity | exfalso; lia].
  apply bind_Ok in H as (channels & Hcreate & H).
  rewrite (set_rows_lookup _ _ _ _ H k),
    (create_channels_lookup _ _ _ _ _ _ Hcreate k), lookup_empty.
  subst num. cbn [mbind option_bind].
  change (Z.of_nat 0 + 1)%Z with 1%Z. change (0 + longest_row data)
    with (longest_row data).
  destruct ((1 <=? k)%Z && (k <=? Z.of_nat (longest_row data))%Z);
    reflexivity.
Qed.
End ChannelTableLookup.

Lemma set_count_int_or set get counts i c :
  (forall c, set (get c) c = c) ->
  set_count set counts i c
  = Ok (set (int_or (value_at counts 0 (Z.of_nat i + 1)) (get c)) c).
Proof.
  intros Heta. unfold set_count, value_at, int_or.
  rewrite (proj2 (Z.leb_le _ _)) by lia.
  replace (Z.to_nat (Z.of_nat i + 1 - 1) - 0) with i by lia.
  destruct (counts !! i) as [text|]; [|rewrite Heta; reflexivity].
  destruct (py_int text) as [n|e] eqn:Hn; [reflexivity|].
  apply py_int_raises in Hn as ->. simpl. rewrite Heta. reflexivity.
Qed.

Ltac range_cases :=
  repeat match goal with
    | |- context [(?a <=? ?b)%Z] => destruct (Z.leb_spec a b)
    end;
  simpl; first [reflexivity | exfalso; lia].

Lemma assign_errors_lookup correctable uncorrectable channel_ids :
  forall channels i m,
    assign_errors correctable uncorrectable channels i channel_ids = Ok m ->
    forall k,
      m !! k
      = (fun c =>
           if (Z.of_nat i + 1 <=? k)%Z
              && (k <=? Z.of_nat (i + length channel_ids))%Z
           then
             Downstream.set_uncorrected_errors
               (int_or (value_at uncorrectable 0 k)
                  (Downstream.uncorrected_errors c))
               (Downstream.set_corrected_errors
                  (int_or (value_at correctable 0 k)
                     (Downstream.corrected_errors c)) c)
           else c) <$> channels !! k.
Proof.
  induction channel_ids as [|id rest IH]; intros channels i m;
    cbn [assign_errors length].
  - intros H k. injection H as <-.
    destruct (Z.leb_spec (Z.of_nat i + 1) k),
      (Z.leb_spec k (Z.of_nat (i + 0))); simpl;
      first [exfalso; lia | destruct (channels !! k); reflexivity].
  - destruct (channels !! (Z.of_nat i + 1)%Z) as [c|] eqn:Hc.
    + rewrite (set_count_int_or _ Downstream.corrected_errors)
        by (intros []; reflexivity).
      cbn [mbind result_bind].
      rewrite (set_count_int_or _ Downstream.uncorrected_errors)
        by (intros []; reflexivity).
      cbn [mbind result_bind].
      intros H k. rewrite (IH _ _ _ H k).
      destruct (decide (k = (Z.of_nat i + 1)%Z)) as [->|Hk].
      * rewrite lookup_insert_eq, Hc. cbn [fmap option_fmap option_map].
        f_equal. range_cases.
      * rewrite lookup_insert_ne by congruence.
        destruct (channels !! k) as [c'|]; [|reflexivity].
        cbn [fmap option_fmap option_map]. f_equal.
        destruct (Z.leb_spec (Z.of_nat (S i) + 1) k),
          (Z.leb_spec k (Z.of_nat (S i + length rest))),
          (Z.leb_spec (Z.of_nat i + 1) k),
          (Z.leb_spec k (Z.of_nat (i + S (length rest)))); simpl;
          first [reflexivity | exfalso; lia].
    + intros H k. rewrite (IH _ _ _ H k).
      destruct (channels !! k) as [c'|] eqn:Hc'; [|reflexivity].
      cbn [fmap option_fmap option_map]. f_equal.
      destruct (Z.leb_spec (Z.of_nat (S i) + 1) k),
        (Z.leb_spec k (Z.of_nat (S i + length rest))),
        (Z.leb_spec (Z.of_nat i + 1) k),
        (Z.leb_spec k (Z.of_nat (i + S (length rest)))); simpl;
        first [reflexivity | exfalso; lia | idtac].
      assert (k = (Z.of_nat i + 1)%Z) by lia. congruence.
Qed.

Lemma parse_error_table_lookup table channels m :
  parse_error_table table channels = Ok m ->
  exists errors,
    error_rows table = Ok errors
    /\ forall k, m !! k = with_error_counts errors k <$> channels !! k.
Proof.
  unfold parse_error_table. fold (error_rows table). intros H.
  apply bind_Ok in H as (errors & Herrors & H).
  exists errors. split; [exact Herrors|]. intros k. unfold with_error_counts.
  destruct (dict_get errors "Channel ID") as [channel_ids|];
    [|injection H as <-; destruct (channels !! k); reflexivity].
  destruct (dict_get errors "Correctable Codewords") as [correctable|];
    [|injection H as <-; destruct (channels !! k); reflexivity].
  destruct (dict_get errors "Uncorrectable Codewords") as [uncorrectable|];
    [|injection H as <-; destruct (channels !! k); reflexivity].
  rewrite (assign_errors_lookup _ _ _ _ _ _ H k). reflexivity.
Qed.

(** With three tables or more, the downstream map has the channels 1 to
    the length of the longest row of the first table; the entry of a
    channel has, field by field, the value at the channel's position in the
    row of the field's header, and the error counts at that position in
    the third table. *)
Theorem html_downstream_entries (soup : list node) (model : ChannelModel)
    (t0 t1 t2 : node) (rest : list node) :
  find_all "tbody" soup = t0 :: t1 :: t2 :: rest ->
  _parse_cgm4331com_html soup = Ok model ->
  exists data errors,
    table_rows t0 = Ok data /\ error_rows t2 = Ok errors
    /\ forall k,
         downstream model !! k
         = if (1 <=? k)%Z && (k <=? Z.of_nat (channel_count data))%Z
           then Some (with_error_counts errors k (downstream_of_rows data k))
           else None.
Proof.
  intros Hfind H. unfold _parse_cgm4331com_html in H.
  apply bind_Ok in H as (uptime & _ & H).
  apply bind_Ok in H as ([ds us] & Htables & H). injection H as <-.
  unfold parse_tables in Htables. rewrite Hfind in Htables.
  apply bind_Ok in Htables as (ds0 & Hds & Htables).
  apply bind_Ok in Htables as (us0 & _ & Htables).
  apply bind_Ok in Htables as (ds' & Herr & Htables).
  injection Htables as <- <-.
  apply parse_channel_table_lookup in Hds as (data & Hdata & Hnd & Hds).
  apply parse_error_table_lookup in Herr as (errors & Herrors & Herr).
  exists data, errors. split; [exact Hdata|]. split; [exact Herrors|].
  intros k. cbn [downstream]. rewrite Herr, Hds.
  destruct ((1 <=? k)%Z && (k <=? Z.of_nat (channel_count data))%Z);
    [|reflexivity].
  cbn [fmap option_fmap option_map].
  rewrite (downstream_entry_of_rows data k _ Hnd). reflexivity.
Qed.

Lemma html_downstream_entries_witness :
  exists model data errors,
    _parse_cgm4331com_html three_tables_page = Ok model
    /\ table_rows ds_table = Ok data /\ error_rows err_table = Ok errors
    /\ channel_count data = 3
    /\ (forall k,
          downstream model !! k
          = if (1 <=? k)%Z && (k <=? Z.of_nat (channel_count data))%Z
            then Some (with_error_counts errors k (downstream_of_rows data k))
            else None).
Proof.
  destruct (html_downstream_entries three_tables_page
              {| downstream :=
                   default ∅ (match parse_tables three_tables_page with
                              | Ok (ds, _) => Some ds | Raise _ => None end);
                 upstream :=
                   default ∅ (match parse_tables three_tables_page with
                              | Ok (_, us) => Some us | Raise _ => None end);
                 system_uptime := None |}
              ds_table us_table err_table [])
    as (data & errors & Hdata & Herrors & H).
  - vm_compute. reflexivity.
  - vm_compute. reflexivity.
  - eexists _, data, errors. split; [vm_compute; reflexivity|].
    split; [exact Hdata|]. split; [exact Herrors|].
    split; [|exact H].
    vm_compute in Hdata. injection Hdata as <-. vm_compute. reflexivity.
Defined.

(** The upstream map, from the second table: the channels 1 to the length
    of its longest row, each with the values at its position. *)
Theorem html_upstream_entries (soup : list node) (model : ChannelModel)
    (t0 t1 t2 : node) (rest : list node) :
  find_all "tbody" soup = t0 :: t1 :: t2 :: rest ->
  _parse_cgm4331com_html soup = Ok model ->
  exists data,
    table_rows t1 = Ok data
    /\ forall k,
         upstream model !! k
         = if (1 <=? k)%Z && (k <=? Z.of_nat (channel_count data))%Z
           then Some (upstream_of_rows data k)
           else None.
Proof.
  intros Hfind H. unfold _parse_cgm4331com_html in H.
  apply bind_Ok in H as (uptime & _ & H).
  apply bind_Ok in H as ([ds us] & Htables & H). injection H as <-.
  unfold parse_tables in Htables. rewrite Hfind in Htables.
  apply bind_Ok in Htables as (ds0 & _ & Htables).
  apply bind_Ok in Htables as (us0 & Hus & Htables).
  apply bind_Ok in Htables as (ds' & _ & Htables).
  injection Htables as <- <-.
  apply parse_channel_table_lookup in Hus as (data & Hdata & Hnd & Hus).
  exists data. split; [exact Hdata|].
  intros k. cbn [upstream]. rewrite Hus.
  destruct ((1 <=? k)%Z && (k <=? Z.of_nat (channel_count data))%Z);
    [|reflexivity].
  rewrite (upstream_entry_of_rows data k _ Hnd). reflexivity.
Qed.

Lemma html_upstream_entries_witness :
  exists model data,
    _parse_cgm4331com_html three_tables_page = Ok model
    /\ table_rows us_table = Ok data
    /\ channel_count data = 1
    /\ (forall k,
          upstream model !! k
          = if (1 <=? k)%Z && (k <=? Z.of_nat (channel_count data))%Z
            then Some (upstream_of_rows data k)
            else None).
Proof.
  destruct (html_upstream_entries three_tables_page
              {| downstream :=
                   default ∅ (match parse_tables three_tables_page with
                              | Ok (ds, _) => Some ds | Raise _ => None end);
                 upstream :=
                   default ∅ (match parse_tables three_tables_page with
                              | Ok (_, us) => Some us | Raise _ => None end);
                 system_uptime := None |}
              ds_table us_table err_table [])
    as (data & Hdata & H).
  - vm_compute. reflexivity.
  - vm_compute. reflexivity.
  - eexists _, data. split; [vm_compute; reflexivity|].
    split; [exact Hdata|]. split; [|exact H].
    vm_compute in Hdata. injection Hdata as <-. vm_compute. reflexivity.
Defined.

(** ** The requests and the outcome of an update *)

Ltac io_unfold :=
  unfold async_step_user, _async_update_data, update_body, validate_input,
    send, raise_for_status, of_sum, of_result, raise, mbind, io_bind, mret,
    io_ret.

Ltac io_cases :=
  repeat match goal with
    | |- context [respond ?env ?log ?r] =>
        let resp := fresh "resp" in
        let f := fresh "f" in
        let E := fresh "Hrespond" in
        destruct (respond env log r) as [f|resp] eqn:E
    | |- context [(400 <=? ?s)%Z] =>
        let E := fresh "Hstatus" in destruct (400 <=? s)%Z eqn:E
    | |- context [Response.json ?r] =>
        let E := fresh "Hjson" in destruct (Response.json r) eqn:E
    | |- context [Response.text ?r] =>
        let E := fresh "Htext" in destruct (Response.text r) eqn:E
    | |- context [is_redirect ?r] =>
        let E := fresh "Hredirect" in destruct (is_redirect r) eqn:E
    | |- context [Response.cookies ?r] =>
        let E := fresh "Hcookies" in destruct (Response.cookies r) eqn:E
    | |- context [_parse_mb8600_json ?d] =>
        let E := fresh "Hparse" in destruct (_parse_mb8600_json d) eqn:E
    | |- context [_parse_cgm4331com_html ?d] =>
        let E := fresh "Hparse" in destruct (_parse_cgm4331com_html d) eqn:E
    end.

(** Without a user name or a password a modem that is no MB8600 gets no
    request: the update raises [UpdateFailed], the form shows
    [invalid_auth]. *)
Theorem no_credentials_no_request (env : environment) (data : UserInput.t)
    (log : list request) :
  UserInput.model data <> "MB8600" ->
  falsy (UserInput.username data) = true
  \/ falsy (UserInput.password data) = true ->
  _async_update_data env (coordinator_of_entry data) log
  = (log, Failed (Py UpdateFailed))
  /\ async_step_user env (Some data) log
     = (log, ShowForm [("base", "invalid_auth")]).
Proof.
  intros Hmodel Hcred.
  assert (Hor : falsy (UserInput.username data)
                || falsy (UserInput.password data) = true).
  { apply orb_true_iff. exact Hcred. }
  io_unfold. unfold coordinator_of_entry, str_eqb. cbn.
  rewrite bool_decide_eq_false_2 by exact Hmodel.
  rewrite Hor. split; reflexivity.
Qed.

Lemma no_credentials_no_request_witness :
  _async_update_data example_env
    (coordinator_of_entry (example_input "CGM4331COM" None)) []
  = ([], Failed (Py UpdateFailed))
  /\ async_step_user example_env (Some (example_input "CGM4331COM" None)) []
     = ([], ShowForm [("base", "invalid_auth")]).
Proof.
  apply (no_credentials_no_request example_env
           (example_input "CGM4331COM" None) []).
  - discriminate.
  - left. reflexivity.
Defined.

(** The requests of an update: one POST to [/HNAP1] for the MB8600; for
    another model the login POST with the user name and the password, and
    after it, only when the reply to the login is a redirect with a
    cookie, one GET of the status page with the cookies of that reply. All
    go to the configured host, over https exactly when [use_ssl] is set. *)
Theorem update_requests (env : environment) (self : Coordinator.t)
    (log : list request) :
  exists sent,
    fst (_async_update_data env self log) = log ++ sent
    /\ if str_eqb (Coordinator.model self) "MB8600" then
         sent = [hnap_request (protocol_of (Coordinator.use_ssl self))
                   (Coordinator.host self)]
       else
         sent = []
         \/ (sent = [login_of self]
             /\ forall reply, respond env log (login_of self) = inr reply ->
                  is_redirect reply = false \/ Response.cookies reply = [])
         \/ exists reply,
              respond env log (login_of self) = inr reply
              /\ is_redirect reply = true /\ Response.cookies reply <> []
              /\ sent = [login_of self;
                         data_request (protocol_of (Coordinator.use_ssl self))
                           (Coordinator.host self) (Response.cookies reply)].
Proof.
  io_unfold. unfold login_of, protocol_of.
  destruct (str_eqb (Coordinator.model self) "MB8600").
  - exists [hnap_request (if Coordinator.use_ssl self then "https" else "http")
              (Coordinator.host self)].
    split; [|reflexivity]. io_cases; reflexivity.
  - destruct (falsy (Coordinator.username self)
              || falsy (Coordinator.password self)).
    { exists []. split; [cbn; rewrite app_nil_r; reflexivity | left; reflexivity]. }
    destruct (respond env log _) as [f|reply] eqn:Hlogin.
    { eexists. split; [reflexivity|]. right. left. split; [reflexivity|].
      intros reply H. discriminate. }
    destruct (is_redirect reply) eqn:Hredirect; cbn [negb].
    2: { eexists. split; [reflexivity|]. right. left. split; [reflexivity|].
         intros reply' H. injection H as <-. left. exact Hredirect. }
    destruct (Response.cookies reply) as [|cookie rest] eqn:Hcookies.
    { eexists. split; [reflexivity|]. right. left. split; [reflexivity|].
      intros reply' H. injection H as <-. right. exact Hcookies. }
    exists [login_request (if Coordinator.use_ssl self then "https" else "http")
              (Coordinator.host self) (Coordinator.username self)
              (Coordinator.password self);
            data_request (if Coordinator.use_ssl self then "https" else "http")
              (Coordinator.host self) (cookie :: rest)].
    split.
    + io_cases; cbn [fst]; rewrite <- app_assoc; reflexivity.
    + right. right. exists reply. rewrite Hcookies.
      split; [reflexivity|]. split; [exact Hredirect|]. split; [discriminate|].
      reflexivity.
Qed.


(** When the form creates an entry, the update of the coordinator made
    from the entry, with a modem that answers as it did to the validation,
    sends the requests the validation sent; all of them are answered, and
    the outcome is that of the parser on the body of the last reply. *)
Theorem entry_created_update_parses (env : environment) (data : UserInput.t)
    (log log' : list request) (title : string) (entry : UserInput.t) :
  async_step_user env (Some data) log = (log', CreateEntry title entry) ->
  entry = data
  /\ title = "Arris Modem " +:+ UserInput.model data
  /\ fst (_async_update_data env (coordinator_of_entry entry) log) = log'
  /\ exists reply,
       (Response.status reply < 400)%Z
       /\ if str_eqb (UserInput.model data) "MB8600" then
            respond env log
              (hnap_request (protocol_of (default true (UserInput.ssl data)))
                 (UserInput.host data)) = inr reply
            /\ exists d,
                 Response.json reply = inr d
                 /\ snd (_async_update_data env (coordinator_of_entry entry)
                           log)
                    = parsed (_parse_mb8600_json d)
          else
            exists login html,
              respond env log (login_of (coordinator_of_entry data))
              = inr login
              /\ respond env (log ++ [login_of (coordinator_of_entry data)])
                   (data_request
                      (protocol_of (default true (UserInput.ssl data)))
                      (UserInput.host data) (Response.cookies login))
                 = inr reply
              /\ Response.text reply = inr html
              /\ snd (_async_update_data env (coordinator_of_entry entry) log)
                 = parsed (_parse_cgm4331com_html (BeautifulSoup env html)).
Proof.
  unfold async_step_user.
  destruct (validate_input env data log) as [l [t|f]] eqn:Hv;
    [|destruct (is_ValueError f); discriminate].
  intros H. injection H as <- <- <-.
  revert Hv. io_unfold. unfold coordinator_of_entry, login_of, protocol_of, parsed.
  cbn [Coordinator.host Coordinator.username Coordinator.password
       Coordinator.use_ssl Coordinator.model].
  destruct (str_eqb (UserInput.model data) "MB8600").
  - destruct (respond env log _) as [f|reply] eqn:Hreply; [discriminate|].
    destruct (400 <=? Response.status reply)%Z eqn:Hstatus; [discriminate|].
    destruct (Response.json reply) as [f|d] eqn:Hjson; [discriminate|].
    intros H. injection H as <- <-.
    split; [reflexivity|]. split; [reflexivity|].
    split; [destruct (_parse_mb8600_json d); reflexivity|].
    exists reply. split; [apply Z.leb_gt; exact Hstatus|].
    split; [reflexivity|]. exists d. split; [exact Hjson|].
    destruct (_parse_mb8600_json d); reflexivity.
  - destruct (falsy (UserInput.username data)
              || falsy (UserInput.password data)); [discriminate|].
    destruct (respond env log _) as [f|login] eqn:Hlogin; [discriminate|].
    destruct (is_redirect login); cbn [negb]; [|discriminate].
    destruct (Response.cookies login) as [|cookie rest] eqn:Hcookies;
      [discriminate|].
    destruct (respond env (log ++ _) _) as [f|reply] eqn:Hreply; [discriminate|].
    destruct (400 <=? Response.status reply)%Z eqn:Hstatus; [discriminate|].
    destruct (Response.text reply) as [f|html] eqn:Htext; [discriminate|].
    intros H. injection H as <- <-.
    split; [reflexivity|]. split; [reflexivity|].
    split; [destruct (_parse_cgm4331com_html _); reflexivity|].
    exists reply. split; [apply Z.leb_gt; exact Hstatus|].
    exists login, html. split; [reflexivity|].
    rewrite Hcookies. split; [exact Hreply|]. split; [exact Htext|].
    destruct (_parse_cgm4331com_html _); reflexivity.
Qed.

Lemma entry_created_update_parses_witness :
  exists reply d,
    respond example_env [] (hnap_request "http" "modem") = inr reply
    /\ Response.json reply = inr d
    /\ snd (_async_update_data example_env
              (coordinator_of_entry (example_input "MB8600" None)) [])
       = parsed (_parse_mb8600_json d).
Proof.
  destruct (entry_created_update_parses example_env
              (example_input "MB8600" None) [] [hnap_request "http" "modem"]
              "Arris Modem MB8600" (example_input "MB8600" None))
    as (_ & _ & _ & reply & _ & Hreply & d & Hjson & Hparsed).
  - vm_compute. reflexivity.
  - exists reply, d. split; [exact Hreply|]. split; [exact Hjson|].
    exact Hparsed.
Defined.

(** A login that the modem rejects (no redirect, or no cookie) is
    reported as [cannot_connect], not as [invalid_auth]: the form shows
    [invalid_auth] only for a missing user name or password, or for a
    [ValueError] of the library. The update raises [UpdateFailed]. In both
    cases the login is the only request. *)
Theorem rejected_login_cannot_connect (env : environment)
    (data : UserInput.t) (log : list request) (reply : Response.t) :
  UserInput.model data <> "MB8600" ->
  falsy (UserInput.username data) = false ->
  falsy (UserInput.password data) = false ->
  respond env log (login_of (coordinator_of_entry data)) = inr reply ->
  is_redirect reply = false \/ Response.cookies reply = [] ->
  async_step_user env (Some data) log
  = (log ++ [login_of (coordinator_of_entry data)],
     ShowForm [("base", "cannot_connect")])
  /\ _async_update_data env (coordinator_of_entry data) log
     = (log ++ [login_of (coordinator_of_entry data)],
        Failed (Py UpdateFailed)).
Proof.
  intros Hmodel Hu Hp Hreply Hrejected. revert Hreply.
  io_unfold. unfold coordinator_of_entry, login_of, protocol_of, str_eqb.
  cbn [Coordinator.host Coordinator.username Coordinator.password
       Coordinator.use_ssl Coordinator.model].
  rewrite bool_decide_eq_false_2 by exact Hmodel. rewrite Hu, Hp. cbn [orb].
  intros ->.
  destruct Hrejected as [Hr | Hc].
  - rewrite Hr. split; reflexivity.
  - destruct (is_redirect reply); cbn [negb]; [|split; reflexivity].
    rewrite Hc. split; reflexivity.
Qed.

Lemma rejected_login_cannot_connect_witness :
  async_step_user rejecting_env
    (Some (example_input "CGM4331COM" (Some "admin"))) []
  = ([login_of (coordinator_of_entry
                  (example_input "CGM4331COM" (Some "admin")))],
     ShowForm [("base", "cannot_connect")])
  /\ _async_update_data rejecting_env
       (coordinator_of_entry (example_input "CGM4331COM" (Some "admin"))) []
     = ([login_of (coordinator_of_entry
                     (example_input "CGM4331COM" (Some "admin")))],
        Failed (Py UpdateFailed)).
Proof.
  apply (rejected_login_cannot_connect rejecting_env
           (example_input "CGM4331COM" (Some "admin")) []
           {| Response.status := 200; Response.cookies := [];
              Response.json := inl LibraryValueError;
              Response.text := inr "wrong password" |}).
  - discriminate.
  - reflexivity.
  - reflexivity.
  - reflexivity.
  - left. reflexivity.
Defined.

(** ** The sensor entities *)

Lemma dict_get_channels {C} (to_dict : C -> value) (l : list (Z * C)) (k : Z) :
  dict_get (map (fun item => (KInt (fst item), to_dict (snd item))) l) (KInt k)
  = to_dict <$> (list_to_map l : gmap Z C) !! k.
Proof.
  induction l as [|[k0 c0] l IH]; [reflexivity|].
  cbn [map fst snd dict_get list_to_map foldr].
  destruct (decide (k0 = k)) as [->|Hk].
  - rewrite bool_decide_eq_true_2 by reflexivity.
    rewrite lookup_insert_eq. reflexivity.
  - rewrite bool_decide_eq_false_2 by congruence.
    rewrite lookup_insert_ne by exact Hk. exact IH.
Qed.

Lemma getitem_channels {C} (to_dict : C -> value) (channels : gmap Z C) k :
  dict_get
    (map (fun item => (KInt (fst item), to_dict (snd item)))
       (map_to_list channels)) (KInt k)
  = to_dict <$> channels !! k.
Proof. rewrite dict_get_channels, list_to_map_to_list. reflexivity. Qed.



(** The accessor of an entity goes with its direction. *)
Lemma sensor_entities_accessor host s :
  In s (sensor_entities host) ->
  (Sensor._direction s = "Downstream"
   /\ Description.value_fn (Sensor.entity_description s)
      = Some get_downstream_value)
  \/ (Sensor._direction s = "Upstream"
      /\ Description.value_fn (Sensor.entity_description s)
         = Some get_upstream_value).
Proof.
  unfold sensor_entities. intros H. apply in_app_or in H as [H|H];
    apply in_flat_map in H as (channel & _ & H);
    apply in_map_iff in H as (description & <- & H); cbn.
  - left. split; [reflexivity|].
    repeat destruct H as [<- | H]; try reflexivity. destruct H.
  - right. split; [reflexivity|].
    repeat destruct H as [<- | H]; try reflexivity. destruct H.
Qed.

Lemma body_value_contains direction data key channel v :
  get_value_body direction data key channel = Ok v -> v <> VNone ->
  exists d channels,
    data = VDict d /\ dict_get d (KStr direction) = Some channels
    /\ contains channels (KInt channel) = Ok true.
Proof.
  intros Hbody Hv.
  destruct data as [| b | z | f | s | l | d];
    try (rewrite body_not_dict in Hbody by discriminate; congruence).
  rewrite body_dict in Hbody.
  destruct (dict_get d (KStr direction)) as [channels|] eqn:Hdir;
    [|congruence].
  exists d, channels. split; [reflexivity|]. split; [exact Hdir|].
  unfold channel_lookup in Hbody.
  apply bind_Ok in Hbody as ([|] & Hc & Hbody); [exact Hc|].
  simpl in Hbody. congruence.
Qed.

(** An entity that has a value is available: whatever the data of the
    coordinator, when [native_value] is not [None], [available] is
    [True]. *)
Theorem value_implies_available (host : string) (s : Sensor.t)
    (data : option value) :
  In s (sensor_entities host) ->
  native_value s data <> VNone ->
  available s data = Ok true.
Proof.
  intros Hs Hv. destruct data as [data|]; [|destruct Hv; reflexivity].
  assert (Hgen : forall direction,
            or_None (get_value_body direction data
                       (Description.key (Sensor.entity_description s))
                       (Sensor._channel s)) <> VNone ->
            (has_key ← contains data (KStr direction);
             if negb has_key then Ok false
             else
               channels ← getitem data (KStr direction);
               has_channel ← contains channels (KInt (Sensor._channel s));
               if negb has_channel then Ok false else Ok true) = Ok true).
  { intros direction H.
    destruct (get_value_body direction data _ _) as [v|e] eqn:Hbody;
      [|destruct H; reflexivity].
    destruct (body_value_contains _ _ _ _ _ Hbody H)
      as (d & channels & -> & Hdir & Hch).
    cbn [contains getitem mbind result_bind]. rewrite Hdir.
    rewrite bool_decide_eq_true_2 by (eexists; reflexivity).
    cbn [negb mbind result_bind]. rewrite Hch. reflexivity. }
  unfold available, native_value in *.
  destruct (sensor_entities_accessor host s Hs) as [[-> Hfn] | [-> Hfn]];
    rewrite Hfn in Hv.
  - apply (Hgen "downstream"). exact Hv.
  - apply (Hgen "upstream"). exact Hv.
Qed.

Lemma value_implies_available_witness :
  available example_sensor (Some example_data) = Ok true.
Proof.
  apply (value_implies_available "modem" example_sensor (Some example_data)).
  - unfold sensor_entities. apply in_or_app. left. apply in_flat_map.
    exists 1%Z. split; [left; reflexivity|].
    right. right. right. left. reflexivity.
  - intros H. vm_compute in H. discriminate.
Defined.

Lemma model_dict_get model direction :
  dict_get
    ([(KStr "downstream", channels_dict downstream_dict (downstream model));
      (KStr "upstream", channels_dict upstream_dict (upstream model))]
     ++ match system_uptime model with
        | Some uptime => [(KStr "system_uptime", VInt uptime)]
        | None => []
        end) (KStr direction)
  = if str_eqb direction "downstream" then
      Some (channels_dict downstream_dict (downstream model))
    else if str_eqb direction "upstream" then
      Some (channels_dict upstream_dict (upstream model))
    else if str_eqb direction "system_uptime" then
      VInt <$> system_uptime model
    else None.
Proof.
  cbn [app dict_get]. unfold str_eqb.
  destruct (system_uptime model) as [uptime|];
    cbn [dict_get fmap option_fmap option_map];
    repeat case_bool_decide; simplify_eq; reflexivity.
Qed.

Lemma body_model_downstream model key channel :
  get_value_body "downstream" (model_dict model) key channel
  = match downstream model !! channel with
    | Some c =>
        channel_lookup (VDict [(KInt channel, downstream_dict c)]) key channel
    | None => Ok VNone
    end.
Proof.
  unfold model_dict. rewrite body_dict, model_dict_get.
  change (str_eqb "downstream" "downstream") with true. cbv iota.
  unfold channels_dict. rewrite !channel_lookup_dict, getitem_channels.
  destruct (downstream model !! channel) as [c|]; [|reflexivity].
  rewrite channel_lookup_dict. cbn [fmap option_fmap option_map dict_get].
  rewrite bool_decide_eq_true_2 by reflexivity. reflexivity.
Qed.

Lemma body_model_upstream model key channel :
  get_value_body "upstream" (model_dict model) key channel
  = match upstream model !! channel with
    | Some c =>
        channel_lookup (VDict [(KInt channel, upstream_dict c)]) key channel
    | None => Ok VNone
    end.
Proof.
  unfold model_dict. rewrite body_dict, model_dict_get.
  change (str_eqb "upstream" "downstream") with false.
  change (str_eqb "upstream" "upstream") with true. cbv iota.
  unfold channels_dict. rewrite !channel_lookup_dict, getitem_channels.
  destruct (upstream model !! channel) as [c|]; [|reflexivity].
  rewrite channel_lookup_dict. cbn [fmap option_fmap option_map dict_get].
  rewrite bool_decide_eq_true_2 by reflexivity. reflexivity.
Qed.

(** The accessors read what the parsers store: for a channel of the
    model, each key of the sensor descriptions gives the field of the
    entry; for a channel that the model does not have, [None]. *)
Theorem accessors_read_model (model : ChannelModel) (channel : Z) :
  match downstream model !! channel with
  | Some c =>
      get_downstream_value (model_dict model) "frequency" channel
      = VFloat (Downstream.frequency c)
      /\ get_downstream_value (model_dict model) "power" channel
         = VFloat (Downstream.power c)
      /\ get_downstream_value (model_dict model) "snr" channel
         = VFloat (Downstream.snr c)
      /\ get_downstream_value (model_dict model) "corrected_errors" channel
         = VInt (Downstream.corrected_errors c)
      /\ get_downstream_value (model_dict model) "uncorrected_errors" channel
         = VInt (Downstream.uncorrected_errors c)
  | None =>
      forall key, get_downstream_value (model_dict model) key channel = VNone
  end
  /\ match upstream model !! channel with
     | Some c =>
         get_upstream_value (model_dict model) "frequency" channel
         = VFloat (Upstream.frequency c)
         /\ get_upstream_value (model_dict model) "power" channel
            = VFloat (Upstream.power c)
         /\ get_upstream_value (model_dict model) "symbol_rate" channel
            = VInt (Upstream.symbol_rate c)
     | None =>
         forall key, get_upstream_value (model_dict model) key channel = VNone
     end.
Proof.
  unfold get_downstream_value, get_upstream_value. split.
  - destruct (downstream model !! channel) as [c|] eqn:Hc.
    + rewrite !body_model_downstream, Hc, !channel_lookup_dict.
      cbn [dict_get]. rewrite bool_decide_eq_true_2 by reflexivity.
      repeat split; reflexivity.
    + intros key. rewrite body_model_downstream, Hc. reflexivity.
  - destruct (upstream model !! channel) as [c|] eqn:Hc.
    + rewrite !body_model_upstream, Hc, !channel_lookup_dict.
      cbn [dict_get]. rewrite bool_decide_eq_true_2 by reflexivity.
      repeat split; reflexivity.
    + intros key. rewrite body_model_upstream, Hc. reflexivity.
Qed.

Lemma contains_channels {C} (to_dict : C -> value) (channels : gmap Z C) k :
  contains (channels_dict to_dict channels) (KInt k)
  = Ok (bool_decide (is_Some (channels !! k))).
Proof.
  unfold channels_dict. cbn [contains]. rewrite getitem_channels.
  f_equal. apply bool_decide_ext. rewrite fmap_is_Some. reflexivity.
Qed.

Lemma available_model model s :
  Sensor._direction s = "Downstream" \/ Sensor._direction s = "Upstream" ->
  available s (Some (model_dict model))
  = Ok (has_channel model (Sensor._direction s) (Sensor._channel s)).
Proof.
  unfold available, has_channel, model_dict. cbn [contains getitem].
  intros [-> | ->].
  - change (str_eqb "Downstream" "Downstream") with true. cbv iota.
    rewrite model_dict_get.
    change (str_eqb "downstream" "downstream") with true. cbv iota.
    rewrite bool_decide_eq_true_2 by (eexists; reflexivity).
    cbn [negb mbind result_bind]. rewrite contains_channels.
    cbn [mbind result_bind]. destruct (bool_decide _); reflexivity.
  - change (str_eqb "Upstream" "Downstream") with false. cbv iota.
    rewrite model_dict_get.
    change (str_eqb "upstream" "downstream") with false.
    change (str_eqb "upstream" "upstream") with true. cbv iota.
    rewrite bool_decide_eq_true_2 by (eexists; reflexivity).
    cbn [negb mbind result_bind]. rewrite contains_channels.
    cbn [mbind result_bind]. destruct (bool_decide _); reflexivity.
Qed.

(** On the model of a parser an entity is available exactly when the
    model has its channel, and exactly then it has a value: the key of
    every sensor description is a key of the channel dictionaries. *)
Theorem sensor_available_iff_channel (host : string) (model : ChannelModel)
    (s : Sensor.t) :
  In s (sensor_entities host) ->
  available s (Some (model_dict model))
  = Ok (has_channel model (Sensor._direction s) (Sensor._channel s))
  /\ (native_value s (Some (model_dict model)) <> VNone
      <-> has_channel model (Sensor._direction s) (Sensor._channel s) = true).
Proof.
  intros Hs. split.
  { apply available_model.
    destruct (sensor_entities_accessor host s Hs) as [[H _] | [H _]]; auto. }
  unfold sensor_entities in Hs. apply in_app_or in Hs as [Hs|Hs];
    apply in_flat_map in Hs as (channel & _ & Hs);
    apply in_map_iff in Hs as (description & <- & Hs);
    unfold native_value, has_channel;
    cbn [ArrisModemSensor Sensor._direction Sensor._channel
         Sensor.entity_description].
  - change (str_eqb "Downstream" "Downstream") with true. cbv iota.
    assert (Hkey : exists v,
              forall c, channel_lookup
                          (VDict [(KInt channel, downstream_dict c)])
                          (Description.key description) channel = Ok (v c)
                        /\ v c <> VNone).
    { repeat destruct Hs as [<- | Hs]; [..|destruct Hs];
        eexists (fun c => _); intros c; rewrite channel_lookup_dict;
        cbn [dict_get]; rewrite bool_decide_eq_true_2 by reflexivity;
        (split; [reflexivity | discriminate]). }
    destruct Hkey as (v & Hkey).
    assert (Hfn : Description.value_fn description = Some get_downstream_value).
    { repeat destruct Hs as [<- | Hs]; try reflexivity. destruct Hs. }
    rewrite Hfn. unfold get_downstream_value.
    rewrite body_model_downstream.
    destruct (downstream model !! channel) as [c|].
    + destruct (Hkey c) as [-> Hne]. cbn [or_None].
      rewrite bool_decide_eq_true_2 by (eexists; reflexivity). tauto.
    + cbn [or_None].
      rewrite bool_decide_eq_false_2 by (intros [x Hx]; discriminate).
      split; [congruence | discriminate].
  - change (str_eqb "Upstream" "Downstream") with false. cbv iota.
    assert (Hkey : exists v,
              forall c, channel_lookup
                          (VDict [(KInt channel, upstream_dict c)])
                          (Description.key description) channel = Ok (v c)
                        /\ v c <> VNone).
    { repeat destruct Hs as [<- | Hs]; [..|destruct Hs];
        eexists (fun c => _); intros c; rewrite channel_lookup_dict;
        cbn [dict_get]; rewrite bool_decide_eq_true_2 by reflexivity;
        (split; [reflexivity | discriminate]). }
    destruct Hkey as (v & Hkey).
    assert (Hfn : Description.value_fn description = Some get_upstream_value).
    { repeat destruct Hs as [<- | Hs]; try reflexivity. destruct Hs. }
    rewrite Hfn. unfold get_upstream_value.
    rewrite body_model_upstream.
    destruct (upstream model !! channel) as [c|].
    + destruct (Hkey c) as [-> Hne]. cbn [or_None].
      rewrite bool_decide_eq_true_2 by (eexists; reflexivity). tauto.
    + cbn [or_None].
      rewrite bool_decide_eq_false_2 by (intros [x Hx]; discriminate).
      split; [congruence | discriminate].
Qed.

Lemma sensor_available_iff_channel_witness :
  available example_sensor (Some (model_dict one_channel_model))
  = Ok (has_channel one_channel_model (Sensor._direction example_sensor)
          (Sensor._channel example_sensor))
  /\ (native_value example_sensor (Some (model_dict one_channel_model))
      <> VNone
      <-> has_channel one_channel_model (Sensor._direction example_sensor)
            (Sensor._channel example_sensor) = true).
Proof.
  apply (sensor_available_iff_channel "modem" one_channel_model example_sensor).
  unfold sensor_entities. apply in_or_app. left. apply in_flat_map.
  exists 1%Z. split; [left; reflexivity|].
  right. right. right. left. reflexivity.
Defined.
